(** * Telemetry producer / consumer: framing, acknowledgement, reconnect and fan-out

    A shallow embedding of the Python sources

    - [consumer_tcp.py] and [consumer_tcp_threaded.py] (ingestion server:
      [recv_exact], [handle_client], [send_response], [process_document],
      [broadcast_to_clients], [mongo_watcher], [sse_events]),
    - [producer_periodic.py] (client: [send_frame], [recv_frame],
      [connect_with_backoff], [random_value_for_col],
      [build_generated_fields], [pick_country_city], [load_csv_rows],
      [main]),
    - [tcp/consumer.py] (poll-based enrichment: [to_number],
      [process_document]),
    - [tcp/producer_tcp.py] and [tcp/producer.py] (the two older
      producers),

    together with the properties the design document states about them,
    and further properties read off the code.

    Conventions.  Python [bytes] are [list byte]; a Python [str] is a Rocq
    [string] (its UTF-8 text); [len] is [length] on [nat].  A call that may
    raise returns a value of [res].  A [while] loop is a [Fixpoint] on a
    step bound, and each bound is shown to be large enough.  What the
    sources call but do not define (the [json] module, the arithmetic of the
    interpreter, the document store, the clock) is a parameter of the
    embedding: a type class or a section variable.  [NoFuel] stands for "no
    answer": a step bound that ran out, or a collaborator that does not
    return. *)

From Stdlib Require Import ZArith QArith Qminmax List String Ascii Floats Lia.
From Stdlib Require Import DecimalString Lqa.
From Stdlib.Strings Require Import Byte.
From stdpp Require Import gmap strings list.

Local Open Scope nat_scope.
Set Warnings "-register-all".

(** ** Exceptions and results *)

(** The exception classes the sources raise or catch.  [ConnectionError] is a
    subclass of [OSError]; every class below is a subclass of [Exception]. *)
Inductive exn : Type :=
| ConnectionError (msg : string)
| OSError (msg : string)
| StructError (msg : string)
| TypeError (msg : string)
| AttributeError (msg : string)
| ValueError (msg : string)
| OverflowError (msg : string)
| QueueFull
| PyMongoError (msg : string).

(** [str(e)] *)
Definition exn_str (e : exn) : string :=
  match e with
  | ConnectionError m | OSError m | StructError m | TypeError m
  | AttributeError m | ValueError m | OverflowError m | PyMongoError m => m
  | QueueFull => EmptyString
  end.

(** [isinstance(e, ConnectionError)] *)
Definition is_ConnectionError (e : exn) : bool :=
  match e with ConnectionError _ => true | _ => false end.

(** [isinstance(e, (ConnectionError, OSError))] *)
Definition is_ConnectionError_or_OSError (e : exn) : bool :=
  match e with ConnectionError _ | OSError _ => true | _ => false end.

Inductive res (A : Type) : Type :=
| Ok (a : A)
| Raise (e : exn)
| NoFuel.
Arguments Ok {A} a.
Arguments Raise {A} e.
Arguments NoFuel {A}.

#[global] Instance res_ret : MRet res := fun A a => Ok a.
#[global] Instance res_bind : MBind res := fun A B k m =>
  match m with
  | Ok a => k a
  | Raise e => Raise e
  | NoFuel => NoFuel
  end.

(** [try: m  except Exception as e: h e] *)
Definition try_except {A : Type} (m : res A) (h : exn -> res A) : res A :=
  match m with
  | Ok a => Ok a
  | Raise e => h e
  | NoFuel => NoFuel
  end.

(** ** Bytes and the [">I"] header of [struct] *)

Abbreviation bytes := (list byte).

Definition byte_of_N (n : N) : byte :=
  match Byte.of_N (n mod 256) with
  | Some b => b
  | None => x00
  end.

(** [struct.pack(">I", n)]: four bytes, most significant first;
    [struct.error] when [n] does not fit 32 bits. *)
Definition struct_pack_I (n : nat) : res bytes :=
  let v := N.of_nat n in
  if (v <? 2 ^ 32)%N then
    Ok [ byte_of_N (N.shiftr v 24); byte_of_N (N.shiftr v 16);
         byte_of_N (N.shiftr v 8); byte_of_N v ]
  else Raise (StructError "'I' format requires 0 <= number <= 4294967295").

(** [struct.unpack(">I", header)[0]]: [struct.error] unless [header] has
    exactly four bytes. *)
Definition struct_unpack_I (header : bytes) : res nat :=
  match header with
  | [b3; b2; b1; b0] =>
      Ok (N.to_nat (N.lor (N.shiftl (Byte.to_N b3) 24)
                   (N.lor (N.shiftl (Byte.to_N b2) 16)
                   (N.lor (N.shiftl (Byte.to_N b1) 8) (Byte.to_N b0)))))
  | _ => Raise (StructError "unpack requires a buffer of 4 bytes")
  end.

(** ** Sockets

    A connected stream socket, seen from one end.  [rx] lists the segments
    the transport will hand to the next [recv] calls, in order; when it is
    used up the peer has closed and [recv] returns [b""].  [tx] logs the
    buffers given to [sendall].  [wr] scripts the transport's answer to the
    next [sendall] calls ([None]: accepted; [Some e]: the call raises [e]);
    when it is used up every further [sendall] is accepted. *)
Record socket : Type := Socket {
  rx : list bytes;
  tx : list bytes;
  wr : list (option exn)
}.

(** What [recv(n)] takes from the pending segments: at most [n] bytes of the
    first segment that holds data. *)
Fixpoint recv_segments (segs : list bytes) (n : nat) : bytes * list bytes :=
  match segs with
  | [] => ([], [])
  | [] :: rest => recv_segments rest n
  | seg :: rest =>
      if length seg <=? n then (seg, rest)
      else (take n seg, drop n seg :: rest)
  end.

(** [sock.recv(n)] *)
Definition sock_recv (s : socket) (n : nat) : bytes * socket :=
  let '(chunk, rest) := recv_segments (rx s) n in
  (chunk, Socket rest (tx s) (wr s)).

(** [sock.sendall(b)] *)
Definition sock_sendall (s : socket) (b : bytes) : res unit * socket :=
  match wr s with
  | Some e :: w => (Raise e, Socket (rx s) (tx s) w)
  | None :: w => (Ok tt, Socket (rx s) (tx s ++ [b]) w)
  | [] => (Ok tt, Socket (rx s) (tx s ++ [b]) [])
  end.

(** Will the transport accept the next [sendall]? *)
Definition write_ok (s : socket) : bool :=
  match wr s with
  | Some _ :: _ => false
  | _ => true
  end.

(** ** [recv_exact] (consumer_tcp.py, consumer_tcp_threaded.py)

    A socket is an object the calls change in place, so every function on
    it returns the socket as the call leaves it, also when it raises. *)

(** The loop [while len(buf) < n]; each turn appends at least one byte, so
    [n] turns are enough. *)
Fixpoint recv_exact_loop (fuel : nat) (s : socket) (n : nat) (buf : bytes)
  : res bytes * socket :=
  if length buf <? n then
    match fuel with
    | O => (NoFuel, s)
    | S fuel' =>
        let '(chunk, s') := sock_recv s (n - length buf) in
        match chunk with
        | [] => (Raise (ConnectionError "Socket closed while reading"), s')
        | _ :: _ => recv_exact_loop fuel' s' n (buf ++ chunk)
        end
    end
  else (Ok buf, s).

Definition recv_exact (s : socket) (n : nat) : res bytes * socket :=
  recv_exact_loop n s n [].

(** ** JSON values and the [json] module

    What [json.loads] returns and what the sources pass to [json.dumps]:
    [None], [bool], [int], [float], [str], [list], and [dict] with [str]
    keys.  A [dict] keeps insertion order, so it is an association list.
    [F] is the type of Python [float]s. *)
Inductive json (F : Type) : Type :=
| JNull
| JBool (b : bool)
| JInt (z : Z)
| JFloat (f : F)
| JStr (s : string)
| JList (l : list (json F))
| JDict (d : list (string * json F)).
Arguments JNull {F}.
Arguments JBool {F} b.
Arguments JInt {F} z.
Arguments JFloat {F} f.
Arguments JStr {F} s.
Arguments JList {F} l.
Arguments JDict {F} d.

Abbreviation document F := (list (string * json F)).

(** [d[k] = v] on a [dict]: the value is replaced where the key stands, a new
    key goes last. *)
Fixpoint dict_set {F : Type} (k : string) (v : json F) (d : document F)
  : document F :=
  match d with
  | [] => [(k, v)]
  | (k', v') :: d' =>
      if String.eqb k' k then (k', v) :: d' else (k', v') :: dict_set k v d'
  end.

(** [d.get(k)] *)
Fixpoint dict_get {F : Type} (k : string) (d : document F) : option (json F) :=
  match d with
  | [] => None
  | (k', v) :: d' => if String.eqb k' k then Some v else dict_get k d'
  end.

(** The two calls the sources make into the [json] module, with the UTF-8
    step folded in:
    - [json_dumps obj] is [json.dumps(obj, default=str).encode("utf-8")]
      (it raises on a key that is not a scalar, or on a cycle);
    - [json_loads b] is [json.loads(b.decode("utf-8"))], which raises
      ([UnicodeDecodeError] and [JSONDecodeError] are [ValueError]s) when [b]
      is not valid JSON text. *)
Class JsonCodec (F : Type) : Type := {
  json_dumps : json F -> res bytes;
  json_loads : bytes -> res (json F)
}.

(** The two shapes of an AckResponse. *)
Definition ok_ack {F : Type} (id : string) : json F :=
  JDict [("status", JStr "ok"); ("id", JStr id)].

Definition error_ack {F : Type} (reason : string) : json F :=
  JDict [("status", JStr "error"); ("reason", JStr reason)].

Section Framing.
Context {F : Type} `{JsonCodec F}.

(** [send_frame] (producer_periodic.py) *)
Definition send_frame (sock : socket) (obj : json F) : res unit * socket :=
  match json_dumps obj with
  | Ok b =>
      match struct_pack_I (length b) with
      | Ok header => sock_sendall sock (header ++ b)
      | Raise e => (Raise e, sock)
      | NoFuel => (NoFuel, sock)
      end
  | Raise e => (Raise e, sock)
  | NoFuel => (NoFuel, sock)
  end.

(** [send_response] (consumer_tcp.py, consumer_tcp_threaded.py) *)
Definition send_response (conn : socket) (obj : json F) : res unit * socket :=
  match json_dumps obj with
  | Ok b =>
      match struct_pack_I (length b) with
      | Ok header => sock_sendall conn (header ++ b)
      | Raise e => (Raise e, conn)
      | NoFuel => (NoFuel, conn)
      end
  | Raise e => (Raise e, conn)
  | NoFuel => (NoFuel, conn)
  end.

(** The payload loop of [recv_frame]: [while len(data) < msglen]. *)
Fixpoint recv_frame_loop (fuel : nat) (s : socket) (msglen : nat) (data : bytes)
  : res bytes * socket :=
  if length data <? msglen then
    match fuel with
    | O => (NoFuel, s)
    | S fuel' =>
        let '(chunk, s') := sock_recv s (msglen - length data) in
        match chunk with
        | [] => (Raise (ConnectionError "server closed mid-frame"), s')
        | _ :: _ => recv_frame_loop fuel' s' msglen (data ++ chunk)
        end
    end
  else (Ok data, s).

(** [recv_frame] (producer_periodic.py).  The header is completed by ONE
    further [recv], whatever that call returns. *)
Definition recv_frame (sock : socket) : res (json F) * socket :=
  let '(header, s1) := sock_recv sock 4 in
  match header with
  | [] => (Raise (ConnectionError "connection closed by server"), s1)
  | _ :: _ =>
      let '(header, s2) :=
        if length header <? 4 then
          let needed := 4 - length header in
          let '(more, s') := sock_recv s1 needed in
          (header ++ more, s')
        else (header, s1) in
      match struct_unpack_I header with
      | Ok msglen =>
          match recv_frame_loop msglen s2 msglen [] with
          | (Ok data, s3) => (json_loads data, s3)
          | (Raise e, s3) => (Raise e, s3)
          | (NoFuel, s3) => (NoFuel, s3)
          end
      | Raise e => (Raise e, s2)
      | NoFuel => (NoFuel, s2)
      end
  end.

(** The frame decoder of [handle_client] (the first lines of its loop, in
    both servers): what one turn reads before it looks at the payload. *)
Inductive decoded : Type :=
| Eof
| Frame (payload : bytes).

Definition read_frame (conn : socket) : res decoded * socket :=
  let '(header, c1) := sock_recv conn 4 in
  match header with
  | [] => (Ok Eof, c1)
  | _ :: _ =>
      let '(r, c2) :=
        if length header <? 4 then
          match recv_exact c1 (4 - length header) with
          | (Ok more, c) => (Ok (header ++ more), c)
          | (Raise e, c) => (Raise e, c)
          | (NoFuel, c) => (NoFuel, c)
          end
        else (Ok header, c1) in
      match r with
      | Ok header =>
          match struct_unpack_I header with
          | Ok msglen =>
              match recv_exact c2 msglen with
              | (Ok payload, c3) => (Ok (Frame payload), c3)
              | (Raise e, c3) => (Raise e, c3)
              | (NoFuel, c3) => (NoFuel, c3)
              end
          | Raise e => (Raise e, c2)
          | NoFuel => (NoFuel, c2)
          end
      | Raise e => (Raise e, c2)
      | NoFuel => (NoFuel, c2)
      end
  end.

End Framing.

(** ** Enrichment: [process_document] and [to_number] *)

(** A Python number as the sources keep it in a list: [bool] is a subclass
    of [int], so [True] passes [isinstance(v, (int, float))] unchanged. *)
Inductive number (F : Type) : Type :=
| NBool (b : bool)
| NInt (z : Z)
| NFloat (f : F).
Arguments NBool {F} b.
Arguments NInt {F} z.
Arguments NFloat {F} f.

(** The arithmetic builtins the enrichment calls.  Their values on [float]s
    are the interpreter's business (rounding, [OverflowError] on an [int] too
    large for a [float]); the sources only decide WHICH values reach them.
    - [py_sum nums] is [sum(nums)];
    - [py_truediv s n] is [s / n] for [n = len(nums)], [n > 0];
    - [py_int s] is [int(s)] and [py_float s] is [float(s)] on a [str]. *)
Class PyArith (F : Type) : Type := {
  py_sum : list (number F) -> res (number F);
  py_truediv : number F -> nat -> res F;
  py_int : string -> res Z;
  py_float : string -> res F
}.

(** The dictionary [process_document] returns. *)
Record summary (F : Type) : Type := Summary {
  numeric_count : nat;
  numeric_sum : number F;
  numeric_avg : option F
}.
Arguments Summary {F} _ _ _.
Arguments numeric_count {F} _.
Arguments numeric_sum {F} _.
Arguments numeric_avg {F} _.

(** [k.startswith("gen_")] *)
Definition is_gen_key (k : string) : bool := String.prefix "gen_" k.

(** ASCII white space as [str.strip] and [str.isspace] see it. *)
Definition is_space (c : ascii) : bool :=
  let n := nat_of_ascii c in
  ((9 <=? n) && (n <=? 13)) || ((28 <=? n) && (n <=? 32)).

(** [v.strip() == ""] *)
Fixpoint strip_is_empty (v : string) : bool :=
  match v with
  | EmptyString => true
  | String c v' => is_space c && strip_is_empty v'
  end.

(** ["." in v] *)
Fixpoint has_dot (v : string) : bool :=
  match v with
  | EmptyString => false
  | String c v' => Ascii.eqb c "."%char || has_dot v'
  end.

Section Enrichment.
Context {F : Type} `{PyArith F}.

(** [v if isinstance(v, (int, float))] *)
Definition as_int_or_float (v : json F) : option (number F) :=
  match v with
  | JBool b => Some (NBool b)
  | JInt z => Some (NInt z)
  | JFloat f => Some (NFloat f)
  | _ => None
  end.

(** The tail both versions share: sum, average and the result dictionary. *)
Definition summarize (nums : list (number F)) : res (summary F) :=
  match nums with
  | [] => Ok (Summary 0 (NInt 0) None)
  | _ :: _ =>
      s ← py_sum nums;
      avg ← py_truediv s (length nums);
      Ok (Summary (length nums) s (Some avg))
  end.

(** [process_document] (consumer_tcp.py, consumer_tcp_threaded.py):
    [[v for k, v in doc.items()
        if k.startswith("gen_") and isinstance(v, (int, float))]] *)
Definition process_document (doc : document F) : res (summary F) :=
  let nums :=
    omap (fun '(k, v) => if is_gen_key k then as_int_or_float v else None) doc in
  summarize nums.

(** [to_number] (tcp/consumer.py).  [int(v)] and [float(v)] raise [TypeError]
    on a [list] or a [dict].  The function catches every exception, so its
    answer is a value or [None]; only a builtin that gives no answer at all
    ([NoFuel]) leaves it without one. *)
Definition to_number (v : json F) : res (option (number F)) :=
  match as_int_or_float v with
  | Some n => Ok (Some n)
  | None =>
      let attempt : res (option (number F)) :=
        match v with
        | JNull => Ok None
        | JStr s =>
            if strip_is_empty s then Ok None
            else if has_dot s then f ← py_float s; Ok (Some (NFloat f))
            else z ← py_int s; Ok (Some (NInt z))
        | _ => Raise (TypeError "int() argument must be a string, a bytes-like object or a real number")
        end in
      let retry : res (option (number F)) :=
        match v with
        | JStr s => f ← py_float s; Ok (Some (NFloat f))
        | _ => Raise (TypeError "float() argument must be a string or a real number")
        end in
      try_except attempt (fun _ => try_except retry (fun _ => Ok None))
  end.

(** The loop [for k, v in doc.items()] of [process_document]
    (tcp/consumer.py), which fills [numeric_values]. *)
Fixpoint numeric_values (doc : document F) : res (list (number F)) :=
  match doc with
  | [] => Ok []
  | (k, v) :: doc' =>
      if is_gen_key k then
        num ← to_number v;
        rest ← numeric_values doc';
        Ok (match num with Some n => n :: rest | None => rest end)
      else numeric_values doc'
  end.

(** [process_document] (tcp/consumer.py) *)
Definition process_document_poll (doc : document F) : res (summary F) :=
  nums ← numeric_values doc;
  summarize nums.

End Enrichment.

(** ** The storage collaborator *)

(** The [$set] document of the enrichment update:
    [{"_processed": True, "_processedAt": ..., "_processingResult": ...}];
    a time stamp is kept as its text. *)
Record patch (F : Type) : Type := Patch {
  processedAt : string;
  processingResult : summary F
}.
Arguments Patch {F} _ _.
Arguments processedAt {F} _.
Arguments processingResult {F} _.

(** A collection, as the handler uses it.  [C] is the state of the store.
    - [insert_one c doc] is [db_coll.insert_one(doc)]: the identifier given
      to the record, or the driver's exception, and the store afterwards;
    - [update_one c i p] is [db_coll.update_one({"_id": i}, {"$set": p})];
    - [oid_str i] is [str(insert_result.inserted_id)];
    - [find_one c i] reads what the store holds under [i]: the record and
      the enrichment set on it, if any.
    The two laws are the contract of the collaborator: an insert that
    returns stores the record, and an update that raises changes no
    record. *)
Class Collection (F C : Type) : Type := {
  oid : Type;
  oid_str : oid -> string;
  insert_one : C -> document F -> res oid * C;
  update_one : C -> oid -> patch F -> res unit * C;
  find_one : C -> oid -> option (document F * option (patch F));
  insert_one_find : forall c doc i c',
    insert_one c doc = (Ok i, c') -> find_one c' i = Some (doc, None);
  update_one_raise_find : forall c i p e c' j,
    update_one c i p = (Raise e, c') -> find_one c' j = find_one c j
}.

(** ** The connection handler: [handle_client] *)

(** What a handler owns: its connection, the collection, and the number of
    clock readings made so far ([utcnow k] is the text of the [k]-th reading
    of [datetime.utcnow()]). *)
Record server (C : Type) : Type := Server {
  conn : socket;
  coll : C;
  clock : nat
}.
Arguments Server {C} _ _ _.
Arguments conn {C} _.
Arguments coll {C} _.
Arguments clock {C} _.

(** How one turn of [while True] ends. *)
Inductive turn (C : Type) : Type :=
| Continue (st : server C)          (* [continue], or the end of the body *)
| Break (st : server C)             (* [break] *)
| Throw (e : exn) (st : server C)   (* an exception leaves the loop *)
| Stuck.                            (* a step bound was too small *)
Arguments Continue {C} st.
Arguments Break {C} st.
Arguments Throw {C} e st.
Arguments Stuck {C}.

(** How [handle_client] ends: the [break] on a closed connection, the
    [except ConnectionError] clause, or the [except Exception] clause. *)
Inductive exit_status : Type :=
| ClosedByPeer
| ConnectionFault (e : exn)
| UnexpectedError (e : exn).

Record exit (C : Type) : Type := Exit {
  status : exit_status;
  final : server C;
  conn_closed : bool      (* did the handler call [conn.close()]? *)
}.
Arguments Exit {C} _ _ _.
Arguments status {C} _.
Arguments final {C} _.
Arguments conn_closed {C} _.

Section Handler.
Context {F C : Type} `{JsonCodec F} `{PyArith F} `{Collection F C}.
Variable utcnow : nat -> string.

(** The [try] block around the storage calls, with its [except Exception]:
    the ack to send, the store and the clock afterwards.  ([insert_one]
    adds an ["_id"] entry to [doc] in place when it has none; the key does
    not start with ["gen_"], so [process_document] sees the same numbers.) *)
Definition store_record (doc : document F) (c : C) (now : nat)
  : res (json F) * C * nat :=
  match insert_one c doc with
  | (Ok inserted_id, c1) =>
      match process_document doc with
      | Ok proc_res =>
          match update_one c1 inserted_id (Patch (utcnow now) proc_res) with
          | (Ok _, c2) => (Ok (ok_ack (oid_str inserted_id)), c2, S now)
          | (Raise e, c2) => (Ok (error_ack (exn_str e)), c2, S now)
          | (NoFuel, c2) => (NoFuel, c2, S now)
          end
      | Raise e => (Ok (error_ack (exn_str e)), c1, now)
      | NoFuel => (NoFuel, c1, now)
      end
  | (Raise e, c1) => (Ok (error_ack (exn_str e)), c1, now)
  | (NoFuel, c1) => (NoFuel, c1, now)
  end.

(** The loop body of [handle_client] from [json.loads] on: [st] is the
    handler before the turn, [c] the connection after the frame was read. *)
Definition process_payload (st : server C) (c : socket) (payload : bytes)
  : turn C :=
  match json_loads payload with
  | NoFuel => Stuck
  | Raise e =>
      let err := error_ack (String.append "invalid json: " (exn_str e)) in
      match send_response c err with
      | (Ok _, c') => Continue (Server c' (coll st) (clock st))
      | (Raise e', c') => Throw e' (Server c' (coll st) (clock st))
      | (NoFuel, _) => Stuck
      end
  | Ok (JDict d) =>
      let doc := dict_set "_receivedAt" (JStr (utcnow (clock st))) d in
      match store_record doc (coll st) (S (clock st)) with
      | (Ok ack, c1, now) =>
          match send_response c ack with
          | (Ok _, c') => Continue (Server c' c1 now)
          | (Raise e', c') => Throw e' (Server c' c1 now)
          | (NoFuel, _) => Stuck
          end
      | _ => Stuck
      end
  | Ok _ =>
      Throw (TypeError "object does not support item assignment")
            (Server c (coll st) (S (clock st)))
  end.

(** One turn of the loop of [handle_client]: read a frame, then handle its
    payload. *)
Definition handle_frame (st : server C) : turn C :=
  match read_frame (conn st) with
  | (NoFuel, _) => Stuck
  | (Raise e, c) => Throw e (Server c (coll st) (clock st))
  | (Ok Eof, c) => Break (Server c (coll st) (clock st))
  | (Ok (Frame payload), c) => process_payload st c payload
  end.

(** [while True]: at most [fuel] turns. *)
Fixpoint handle_client_loop (fuel : nat) (st : server C)
  : option (exit_status * server C) :=
  match fuel with
  | O => None
  | S fuel' =>
      match handle_frame st with
      | Continue st' => handle_client_loop fuel' st'
      | Break st' => Some (ClosedByPeer, st')
      | Throw e st' =>
          if is_ConnectionError e then Some (ConnectionFault e, st')
          else Some (UnexpectedError e, st')
      | Stuck => None
      end
  end.

(** A turn that does not end the loop takes at least one byte from the
    connection, so one turn more than there are bytes is enough. *)
Definition turns (st : server C) : nat := S (length (concat (rx (conn st)))).

(** [handle_client] (consumer_tcp.py): [conn.close()] stands in the
    [except Exception] clause only. *)
Definition handle_client (st : server C) : option (exit C) :=
  match handle_client_loop (turns st) st with
  | Some (UnexpectedError e, st') => Some (Exit (UnexpectedError e) st' true)
  | Some (s, st') => Some (Exit s st' false)
  | None => None
  end.

(** [handle_client] (consumer_tcp_threaded.py): the same loop, and
    [conn.close()] in a [finally] clause. *)
Definition handle_client_threaded (st : server C) : option (exit C) :=
  match handle_client_loop (turns st) st with
  | Some (s, st') => Some (Exit s st' true)
  | None => None
  end.

End Handler.

(** ** The reconnecting client (producer_periodic.py) *)

(** The command line of the producer, as [parse_args] declares it.  There
    is an option for the initial reconnect backoff and none for its
    ceiling.  Durations are seconds; a Python [float] duration is the
    rational it denotes (doubling and [min] are exact on them). *)
Inductive send_mode : Type := ModeCsv | ModeGenerate.

Record args : Type := Args {
  file : option string;
  host : string;
  port : Z;
  interval : Q;
  mode : send_mode;
  batch : nat;
  loop : bool;
  seed : option Z;
  ack : bool;
  reconnect_backoff : Q
}.

(** What the network answers to the next [sock.connect] calls. *)
Inductive dial : Type :=
| Refused (e : exn)
| Accepted (s : socket).

(** [time.sleep(d)] raises [ValueError] on a negative duration. *)
Definition time_sleep (d : Q) : res unit :=
  if Qle_bool 0 d then Ok tt
  else Raise (ValueError "sleep length must be non-negative").

(** The loop [while not connectedd] of [connect_with_backoff]: the socket
    it returns, the answers of the network it has not used, and the
    durations it slept, in order.  It retries for ever; when the scripted
    answers run out while it is still refused the run is cut off
    ([NoFuel]). *)
Fixpoint connect_loop (net : list dial) (backoff max_backoff : Q)
  : res socket * list dial * list Q :=
  match net with
  | [] => (NoFuel, [], [])
  | Accepted sock :: net' => (Ok sock, net', [])
  | Refused e :: net' =>
      match time_sleep backoff with
      | Ok _ =>
          let '(r, net'', slept) :=
            connect_loop net' (Qmin max_backoff (backoff * 2)) max_backoff in
          (r, net'', backoff :: slept)
      | Raise e' => (Raise e', net', [])
      | NoFuel => (NoFuel, net', [])
      end
  end.

(** [connect_with_backoff]: [backoff = initial_backoff], then the loop. *)
Definition connect_with_backoff (net : list dial) (initial_backoff max_backoff : Q)
  : res socket * list dial * list Q :=
  connect_loop net initial_backoff max_backoff.

(** The default of the parameter [max_backoff]. *)
Definition default_max_backoff : Q := 60.

(** What the client does, in order. *)
Inductive event (F : Type) : Type :=
| EvSend (doc : json F)     (* a call of [send_frame] *)
| EvRecv                    (* a call of [recv_frame] *)
| EvClose                   (* [sock.close()] *)
| EvSleep (d : Q)           (* [time.sleep(d)] in [connect_with_backoff] *)
| EvConnected.              (* [connect_with_backoff] returned a socket *)
Arguments EvSend {F} doc.
Arguments EvRecv {F}.
Arguments EvClose {F}.
Arguments EvSleep {F} d.
Arguments EvConnected {F}.

Record client (F : Type) : Type := Client {
  sock : socket;
  net : list dial;
  sent_total : nat;
  log : list (event F)
}.
Arguments Client {F} _ _ _ _.
Arguments sock {F} _.
Arguments net {F} _.
Arguments sent_total {F} _.
Arguments log {F} _.

Section Producer.
Context {F : Type} `{JsonCodec F}.

(** The call [connect_with_backoff(args.host, args.port,
    initial_backoff=args.reconnect_backoff)] of [main]: [max_backoff] keeps
    its default. *)
Definition main_connect (a : args) (net : list dial)
  : res socket * list dial * list Q :=
  connect_with_backoff net (reconnect_backoff a) default_max_backoff.

(** [ack.get("status")]: only a [dict] has [get]. *)
Definition ack_get_status (ack : json F) : res (option (json F)) :=
  match ack with
  | JDict d => Ok (dict_get "status" d)
  | _ => Raise (AttributeError "object has no attribute 'get'")
  end.

(** The body of the first [try] of the send loop:
    [send_frame]; [recv_frame] and the look at the status when [--ack]. *)
Definition first_attempt (a : args) (s : socket) (doc : json F)
  : res unit * socket * list (event F) :=
  match send_frame s doc with
  | (Ok _, s1) =>
      if ack a then
        match recv_frame s1 with
        | (Ok reply, s2) =>
            match ack_get_status reply with
            | Ok _ => (Ok tt, s2, [EvSend doc; EvRecv])
            | Raise e => (Raise e, s2, [EvSend doc; EvRecv])
            | NoFuel => (NoFuel, s2, [EvSend doc; EvRecv])
            end
        | (Raise e, s2) => (Raise e, s2, [EvSend doc; EvRecv])
        | (NoFuel, s2) => (NoFuel, s2, [EvSend doc; EvRecv])
        end
      else (Ok tt, s1, [EvSend doc])
  | (Raise e, s1) => (Raise e, s1, [EvSend doc])
  | (NoFuel, s1) => (NoFuel, s1, [EvSend doc])
  end.

(** The body of the inner [try], after the reconnect. *)
Definition second_attempt (a : args) (s : socket) (doc : json F)
  : res unit * socket * list (event F) :=
  match send_frame s doc with
  | (Ok _, s1) =>
      if ack a then
        match recv_frame s1 with
        | (Ok _, s2) => (Ok tt, s2, [EvSend doc; EvRecv])
        | (Raise e, s2) => (Raise e, s2, [EvSend doc; EvRecv])
        | (NoFuel, s2) => (NoFuel, s2, [EvSend doc; EvRecv])
        end
      else (Ok tt, s1, [EvSend doc])
  | (Raise e, s1) => (Raise e, s1, [EvSend doc])
  | (NoFuel, s1) => (NoFuel, s1, [EvSend doc])
  end.

(** One turn of [for doc in batch_to_send].  [Ok] means the loop goes on
    with the next document; [Raise] means the exception leaves [main]'s
    loops. *)
Definition send_doc (a : args) (st : client F) (doc : json F)
  : res unit * client F :=
  match first_attempt a (sock st) doc with
  | (Ok _, s1, evs) =>
      (Ok tt, Client s1 (net st) (S (sent_total st)) (log st ++ evs))
  | (NoFuel, s1, evs) =>
      (NoFuel, Client s1 (net st) (sent_total st) (log st ++ evs))
  | (Raise e, s1, evs) =>
      if is_ConnectionError_or_OSError e then
        match main_connect a (net st) with
        | (Ok s2, net', slept) =>
            let evs' := evs ++ [EvClose] ++ map EvSleep slept ++ [EvConnected] in
            match second_attempt a s2 doc with
            | (Ok _, s3, evs2) =>
                (Ok tt, Client s3 net' (S (sent_total st)) (log st ++ evs' ++ evs2))
            | (Raise e2, s3, evs2) =>
                (Ok tt, Client s3 net' (sent_total st) (log st ++ evs' ++ evs2))
            | (NoFuel, s3, evs2) =>
                (NoFuel, Client s3 net' (sent_total st) (log st ++ evs' ++ evs2))
            end
        | (r, net', slept) =>
            (match r with Raise e' => Raise e' | _ => NoFuel end,
             Client s1 net' (sent_total st)
                    (log st ++ evs ++ [EvClose] ++ map EvSleep slept))
        end
      else (Raise e, Client s1 (net st) (sent_total st) (log st ++ evs))
  end.

(** [for doc in batch_to_send: ...] *)
Fixpoint send_batch (a : args) (st : client F) (batch_to_send : list (json F))
  : res unit * client F :=
  match batch_to_send with
  | [] => (Ok tt, st)
  | doc :: rest =>
      match send_doc a st doc with
      | (Ok _, st') => send_batch a st' rest
      | (r, st') => (r, st')
      end
  end.

End Producer.

(** ** Change notification fan-out (consumer_tcp_threaded.py) *)

(** A [queue.Queue] of event texts; [maxsize <= 0] means no bound. *)
Record queue : Type := Queue {
  maxsize : Z;
  items : list string
}.

(** [Queue.full()] *)
Definition queue_full (q : queue) : bool :=
  (0 <? maxsize q)%Z && (maxsize q <=? Z.of_nat (length (items q)))%Z.

(** [q.put_nowait(item)] *)
Definition put_nowait (q : queue) (item : string) : res queue :=
  if queue_full q then Raise QueueFull
  else Ok (Queue (maxsize q) (items q ++ [item])).

(** The module's [clients = set()] of queue objects: [heap] holds the
    queue objects by identity, [clients] the identities in the set. *)
Record registry : Type := Registry {
  heap : gmap nat queue;
  clients : gset nat
}.

(** The body of [for q in list(clients)]:
    [try: q.put_nowait(data_str)  except Exception: pass] *)
Definition offer (data_str : string) (h : gmap nat queue) (q : nat)
  : res (gmap nat queue) :=
  match h !! q with
  | Some obj =>
      try_except (obj' ← put_nowait obj data_str; Ok (<[q := obj']> h))
                 (fun _ => Ok h)
  | None => Ok h
  end.

(** [broadcast_to_clients] *)
Definition broadcast_to_clients (data_str : string) (reg : registry)
  : res registry :=
  h ← foldl (fun (acc : res (gmap nat queue)) q => h ← acc; offer data_str h q)
            (Ok (heap reg)) (elements (clients reg));
  Ok (Registry h (clients reg)).

(** The first lines of [sse_events]: [q = queue.Queue(maxsize=200)] and
    [clients.add(q)]. *)
Definition sse_register (reg : registry) : nat * registry :=
  let q := fresh (dom (heap reg)) in
  (q, Registry (<[q := Queue 200 []]> (heap reg)) ({[q]} ∪ clients reg)).

(** The [finally] clause of [sse_events]: [clients.discard(q)]. *)
Definition sse_unregister (q : nat) (reg : registry) : registry :=
  Registry (heap reg) (clients reg ∖ {[q]}).

(** ** The frame decoder, as the design document words it

    "Reads exactly 4 bytes for the length header, then reads exactly that
    many bytes; if the stream yields zero bytes on a read before the header
    is complete, this signals a clean EOF (ConnectionClosed); if it yields
    zero bytes mid-payload or mid-header after at least one byte was read,
    this signals TruncatedFrame."  Here the stream is the byte string the
    peer sends before it closes. *)
Inductive decode_result : Type :=
| ConnectionClosed
| TruncatedFrame
| Decoded (payload rest : bytes).

Definition decode (stream : bytes) : decode_result :=
  match stream with
  | [] => ConnectionClosed
  | _ :: _ =>
      if length stream <? 4 then TruncatedFrame
      else match struct_unpack_I (take 4 stream) with
           | Ok l =>
               if length stream - 4 <? l then TruncatedFrame
               else Decoded (take l (drop 4 stream)) (drop (4 + l) stream)
           | _ => TruncatedFrame
           end
  end.

(** ** The vocabulary of the properties *)

(** What a socket still has to deliver, as one byte string. *)
Definition pending (s : socket) : bytes := concat (rx s).

(** A Frame of the data model: the 4-byte big-endian length of the payload,
    then the payload.  A payload of [2^32] bytes or more has no frame. *)
Definition frame_of (payload : bytes) : res bytes :=
  header ← struct_pack_I (length payload); Ok (header ++ payload).

(** A stream that ends inside a frame: after at least one byte, and before
    the header or the payload it announces is complete. *)
Definition ends_mid_frame (stream : bytes) : Prop :=
  stream <> [] /\
  (length stream < 4 \/
   exists l, struct_unpack_I (take 4 stream) = Ok l /\ length stream < 4 + l).



(** Is this event a call of [send_frame]? *)
Definition is_send {F : Type} (ev : event F) : bool :=
  match ev with
  | EvSend _ => true
  | _ => false
  end.

(** What a broadcast of [data_str] should leave in a registered channel:
    the message behind what was pending, unless the channel was full. *)
Definition delivered (data_str : string) (q : queue) : queue :=
  if queue_full q then q else Queue (maxsize q) (items q ++ [data_str]).

(** ** A reference runtime

    Concrete collaborators, used to run the embedding on concrete inputs.
    Each one covers a small part of the input space of what it stands for,
    answers there as CPython and its [json] module do, and gives no answer
    ([NoFuel]) outside it.

    - Arithmetic: [int]s are exact; the average of [int]s below [2^53] is
      the IEEE 754 quotient; [int] reads ASCII text of at most 512
      characters; anything that needs more [float] arithmetic is left
      unanswered.
    - JSON: ASCII text of at most 512 bytes, without string escapes and
      without fractions or exponents, written as [json.dumps] writes it
      ([", "] and [": "] separators).
    - Storage: a document store in memory, which keeps the records in
      arrival order, the position being the identifier, and follows a
      script of outages.  The limits of a particular store on the size and
      the types of a record are not modelled. *)
Module Ref.

Definition float_of_Z (z : Z) : float :=
  SF2Prim (binary_normalize prec emax z 0 false).

Definition int_of_number (n : number float) : option Z :=
  match n with
  | NBool b => Some (if b then 1 else 0)%Z
  | NInt z => Some z
  | NFloat _ => None
  end.

(** [sum(nums)] when every element is an [int] or a [bool]. *)
Definition sum (nums : list (number float)) : res (number float) :=
  match mapM int_of_number nums with
  | Some zs => Ok (NInt (foldl Z.add 0%Z zs))
  | None => NoFuel
  end.

(** [s / n]: both operands are exact as [float]s below [2^53], and then
    the correctly rounded quotient is the IEEE 754 one. *)
Definition truediv (s : number float) (n : nat) : res float :=
  match int_of_number s with
  | Some z =>
      if (Z.abs z <? 2 ^ 53)%Z && (Z.of_nat n <? 2 ^ 53)%Z && (0 <? n) then
        Ok (PrimFloat.div (float_of_Z z) (float_of_Z (Z.of_nat n)))
      else NoFuel
  | None => NoFuel
  end.

Definition is_digit (b : byte) : bool :=
  let n := Byte.to_N b in (48 <=? n)%N && (n <=? 57)%N.

Definition digit_value (b : byte) : Z := (Z.of_N (Byte.to_N b) - 48)%Z.

(** ASCII text of at most 512 bytes. *)
Definition is_ascii_text (s : bytes) : bool :=
  (length s <=? 512) && forallb (fun b => (Byte.to_N b <? 128)%N) s.

(** Digits with single underscores between them, as [int] reads them:
    the value, or [None] when the text is not of that shape. *)
Fixpoint int_digits (s : bytes) (acc : Z) (after_digit : bool) : option Z :=
  match s with
  | [] => if after_digit then Some acc else None
  | b :: s' =>
      if is_digit b then int_digits s' (acc * 10 + digit_value b)%Z true
      else if Byte.eqb b "_"%byte && after_digit then
        match s' with
        | d :: _ => if is_digit d then int_digits s' acc false else None
        | [] => None
        end
      else None
  end.

Fixpoint lstrip (s : bytes) : bytes :=
  match s with
  | b :: s' => if is_space (ascii_of_byte b) then lstrip s' else s
  | [] => []
  end.

Definition strip (s : bytes) : bytes := rev (lstrip (rev (lstrip s))).

(** [int(s)] on ASCII text. *)
Definition int (s : string) : res Z :=
  let b := list_byte_of_string s in
  if is_ascii_text b then
    let invalid := Raise (ValueError "invalid literal for int() with base 10") in
    match strip b with
    | [] => invalid
    | c :: t =>
        let '(neg, ds) :=
          if Byte.eqb c "-"%byte then (true, t)
          else if Byte.eqb c "+"%byte then (false, t)
          else (false, c :: t) in
        match int_digits ds 0%Z false with
        | Some z => Ok (if neg then (- z)%Z else z)
        | None => invalid
        end
    end
  else NoFuel.

#[export] Instance arith : PyArith float := {
  py_sum := sum;
  py_truediv := truediv;
  py_int := int;
  py_float := fun _ => NoFuel
}.

(** *** JSON text *)

Definition text (s : string) : bytes := list_byte_of_string s.

Definition is_plain (b : byte) : bool :=
  let n := Byte.to_N b in
  (32 <=? n)%N && (n <? 127)%N && negb (Byte.eqb b x22) && negb (Byte.eqb b x5c).

(** A string that [json.dumps] writes without an escape. *)
Definition write_string (s : string) : res bytes :=
  let b := list_byte_of_string s in
  if forallb is_plain b then Ok (x22 :: b ++ [x22]) else NoFuel.

Fixpoint write (v : json float) : res bytes :=
  match v with
  | JNull => Ok (text "null")
  | JBool true => Ok (text "true")
  | JBool false => Ok (text "false")
  | JInt z => Ok (text (NilZero.string_of_int (Z.to_int z)))
  | JFloat _ => NoFuel
  | JStr s => write_string s
  | JList l =>
      inner ← (fix items (l : list (json float)) : res bytes :=
                 match l with
                 | [] => Ok []
                 | [x] => write x
                 | x :: l' =>
                     a ← write x; b ← items l'; Ok (a ++ text ", " ++ b)
                 end) l;
      Ok (text "[" ++ inner ++ text "]")
  | JDict d =>
      inner ← (fix members (d : document float) : res bytes :=
                 match d with
                 | [] => Ok []
                 | [(k, x)] =>
                     a ← write_string k; b ← write x; Ok (a ++ text ": " ++ b)
                 | (k, x) :: d' =>
                     a ← write_string k; b ← write x; c ← members d';
                     Ok (a ++ text ": " ++ b ++ text ", " ++ c)
                 end) d;
      Ok (text "{" ++ inner ++ text "}")
  end.

(** [json.dumps], for texts of at most 512 bytes. *)
Definition dumps (v : json float) : res bytes :=
  b ← write v; if length b <=? 512 then Ok b else NoFuel.

Definition is_ws (b : byte) : bool :=
  Byte.eqb b " "%byte || Byte.eqb b x09 || Byte.eqb b x0a || Byte.eqb b x0d.

Fixpoint skip_ws (s : bytes) : bytes :=
  match s with
  | b :: s' => if is_ws b then skip_ws s' else s
  | [] => []
  end.

(** The characters of a string up to its closing quote, and what follows. *)
Fixpoint scan_string (s : bytes) (acc : bytes) : res (string * bytes) :=
  match s with
  | [] => Raise (ValueError "Unterminated string")
  | b :: s' =>
      if Byte.eqb b x22 then Ok (string_of_list_byte (rev acc), s')
      else if Byte.eqb b x5c then NoFuel
      else if (Byte.to_N b <? 32)%N then Raise (ValueError "Invalid control character")
      else scan_string s' (b :: acc)
  end.

Fixpoint span_digits (s : bytes) (acc : Z) : Z * bytes :=
  match s with
  | b :: s' => if is_digit b then span_digits s' (acc * 10 + digit_value b)%Z else (acc, s)
  | [] => (acc, [])
  end.

(** The integer part of a number, [0] or a digit string without a leading
    zero; a fraction or an exponent after it is left unanswered. *)
Definition scan_int (neg : bool) (s : bytes) : res (json float * bytes) :=
  match s with
  | d :: s' =>
      if is_digit d then
        let '(z, rest) :=
          if Byte.eqb d "0"%byte then (0%Z, s') else span_digits s 0%Z in
        match rest with
        | c :: _ =>
            if Byte.eqb c "."%byte || Byte.eqb c "e"%byte || Byte.eqb c "E"%byte
            then NoFuel
            else Ok (JInt (if neg then (- z)%Z else z), rest)
        | [] => Ok (JInt (if neg then (- z)%Z else z), rest)
        end
      else if Byte.eqb d "I"%byte then NoFuel
      else Raise (ValueError "Expecting value")
  | [] => Raise (ValueError "Expecting value")
  end.

Fixpoint strip_prefix (p s : bytes) : option bytes :=
  match p, s with
  | [], _ => Some s
  | a :: p', b :: s' => if Byte.eqb a b then strip_prefix p' s' else None
  | _ :: _, [] => None
  end.

Inductive pmode : Type :=
| PValue
| PElems (acc : list (json float))
| PMembers (acc : document float).

Fixpoint parse (fuel : nat) (m : pmode) (s : bytes) : res (json float * bytes) :=
  match fuel with
  | O => NoFuel
  | S fuel =>
      match m with
      | PValue =>
          match skip_ws s with
          | [] => Raise (ValueError "Expecting value")
          | b :: s' =>
              if Byte.eqb b x22 then
                '(str, r) ← scan_string s' []; Ok (JStr str, r)
              else if Byte.eqb b "{"%byte then
                match skip_ws s' with
                | c :: r => if Byte.eqb c "}"%byte then Ok (JDict [], r)
                            else parse fuel (PMembers []) s'
                | [] => parse fuel (PMembers []) s'
                end
              else if Byte.eqb b "["%byte then
                match skip_ws s' with
                | c :: r => if Byte.eqb c "]"%byte then Ok (JList [], r)
                            else parse fuel (PElems []) s'
                | [] => parse fuel (PElems []) s'
                end
              else if Byte.eqb b "-"%byte then scan_int true s'
              else if Byte.eqb b "N"%byte || Byte.eqb b "I"%byte then NoFuel
              else
                match strip_prefix (text "null") (b :: s'),
                      strip_prefix (text "true") (b :: s'),
                      strip_prefix (text "false") (b :: s') with
                | Some r, _, _ => Ok (JNull, r)
                | _, Some r, _ => Ok (JBool true, r)
                | _, _, Some r => Ok (JBool false, r)
                | _, _, _ => scan_int false (b :: s')
                end
          end
      | PElems acc =>
          '(v, r) ← parse fuel PValue s;
          match skip_ws r with
          | c :: r' =>
              if Byte.eqb c ","%byte then parse fuel (PElems (acc ++ [v])) r'
              else if Byte.eqb c "]"%byte then Ok (JList (acc ++ [v]), r')
              else Raise (ValueError "Expecting ',' delimiter")
          | [] => Raise (ValueError "Expecting ',' delimiter")
          end
      | PMembers acc =>
          match skip_ws s with
          | q :: s1 =>
              if Byte.eqb q x22 then
                '(k, r) ← scan_string s1 [];
                match skip_ws r with
                | c :: r1 =>
                    if Byte.eqb c ":"%byte then
                      '(v, r2) ← parse fuel PValue r1;
                      let acc' := dict_set k v acc in
                      match skip_ws r2 with
                      | c' :: r3 =>
                          if Byte.eqb c' ","%byte then parse fuel (PMembers acc') r3
                          else if Byte.eqb c' "}"%byte then Ok (JDict acc', r3)
                          else Raise (ValueError "Expecting ',' delimiter")
                      | [] => Raise (ValueError "Expecting ',' delimiter")
                      end
                    else Raise (ValueError "Expecting ':' delimiter")
                | [] => Raise (ValueError "Expecting ':' delimiter")
                end
              else Raise (ValueError "Expecting property name enclosed in double quotes")
          | [] => Raise (ValueError "Expecting property name enclosed in double quotes")
          end
      end
  end.

Definition loads (b : bytes) : res (json float) :=
  if is_ascii_text b then
    '(v, r) ← parse (2 * length b + 2) PValue b;
    match skip_ws r with
    | [] => Ok v
    | _ :: _ => Raise (ValueError "Extra data")
    end
  else NoFuel.

#[export] Instance codec : JsonCodec float := {
  json_dumps := dumps;
  json_loads := loads
}.

(** *** A document store in memory *)

(** [records]: what was inserted, in order, each with the enrichment set
    on it; the identifier of a record is its position.  [outages]: for the
    next storage calls, whether the store is unreachable ([true]: the call
    raises); when the script is used up the store is reachable. *)
Record store : Type := Store {
  records : list (document float * option (patch float));
  outages : list bool
}.

Definition unreachable : exn := PyMongoError "connection refused".

(** A record that brings its own ["_id"] is left unanswered. *)
Definition insert (c : store) (doc : document float) : res nat * store :=
  match outages c with
  | true :: o => (Raise unreachable, Store (records c) o)
  | o =>
      match dict_get "_id" doc with
      | Some _ => (NoFuel, c)
      | None =>
          (Ok (length (records c)),
           Store (records c ++ [(doc, None)]) (tail o))
      end
  end.

Definition update (c : store) (i : nat) (p : patch float) : res unit * store :=
  match outages c with
  | true :: o => (Raise unreachable, Store (records c) o)
  | o =>
      (Ok tt,
       Store (alter (fun r : document float * option (patch float) => (r.1, Some p))
                    i (records c))
             (tail o))
  end.

Definition find (c : store) (i : nat)
  : option (document float * option (patch float)) :=
  records c !! i.

Lemma insert_find (c : store) doc i c' :
  insert c doc = (Ok i, c') -> find c' i = Some (doc, None).
Proof.
  unfold insert, find.
  destruct (outages c) as [|[] o]; try done;
    destruct (dict_get "_id" doc); try done;
    intros [= <- <-]; simpl; apply list_lookup_middle; done.
Qed.

Lemma update_raise_find (c : store) i p e c' j :
  update c i p = (Raise e, c') -> find c' j = find c j.
Proof.
  unfold update, find.
  destruct (outages c) as [|[] o]; try done. by intros [= <- <-].
Qed.

#[export] Instance collection : Collection float store := {
  oid := nat;
  oid_str := fun i => NilZero.string_of_uint (Nat.to_uint i);
  insert_one := insert;
  update_one := update;
  find_one := find;
  insert_one_find := insert_find;
  update_one_raise_find := update_raise_find
}.

(** A clock: the [k]-th reading, as ISO text. *)
Definition utcnow (k : nat) : string :=
  String.append "2024-05-01T12:00:00." (NilZero.string_of_uint (Nat.to_uint k)).

End Ref.

(** ** One ack per frame, as the design document words it

    "Exactly one AckResponse is sent per received Frame, in the order
    received."  [ack_for] is the AckResponse due to one payload, with the
    store and the clock after it: an error ack for text that is not JSON,
    the outcome of the storage calls for an object.  It gives nothing for
    JSON that is not an object. *)
Section AckSpec.
Context {F C : Type} `{JsonCodec F} `{PyArith F} `{Collection F C}.
Variable utcnow : nat -> string.



(** What the [try] block does when the insert succeeds and the enrichment
    raises: in [process_document], or in [update_one]. *)
Definition enrichment_raises (doc : document F) (i : oid) (c1 : C) (now : nat)
    (e : exn) (c2 : C) (now' : nat) : Prop :=
  (process_document doc = Raise e /\ c2 = c1 /\ now' = now) \/
  (exists proc_res,
     process_document doc = Ok proc_res /\
     update_one c1 i (Patch (utcnow now) proc_res) = (Raise e, c2) /\
     now' = S now).

(** The collaborators answer every call (they return or raise). *)
Definition collaborators_answer : Prop :=
  (forall b, json_loads b <> NoFuel) /\
  (forall obj : json F, json_dumps obj <> NoFuel) /\
  (forall nums, py_sum nums <> NoFuel) /\
  (forall s n, py_truediv s n <> NoFuel) /\
  (forall (c : C) doc, (insert_one c doc).1 <> NoFuel) /\
  (forall (c : C) i p, (update_one c i p).1 <> NoFuel).


End AckSpec.

(** The transport at its least helpful: every byte in a segment of its
    own. *)
Definition bytewise (b : bytes) : list bytes := map (fun x => [x]) b.

(** ** Sample data *)
Module Sample.

(** The text [{"x": 1}] and the record it denotes. *)
Definition record_text : bytes :=
  Ref.text "{" ++ [x22] ++ Ref.text "x" ++ [x22] ++ Ref.text ": 1}".

Definition record : json float := JDict [("x", JInt 1)].

Definition record_frame : bytes := [x00; x00; x00; x08] ++ record_text.

(** Three bytes that are not JSON, and valid JSON that is not an object. *)
Definition garbage_frame : bytes := [x00; x00; x00; x03] ++ Ref.text "xyz".

Definition array_frame : bytes := [x00; x00; x00; x02] ++ Ref.text "[]".

(** A store that is reachable, and one that is lost after the next call. *)
Definition empty_store : Ref.store := Ref.Store [] [].

Definition failing_store : Ref.store := Ref.Store [] [false; true].

(** A connection on which the peer sends [stream] in one segment and then
    closes, and whose writes are accepted. *)
Definition connection (stream : bytes) : socket := Socket [stream] [] [].

(** The text of an ack and its frame. *)
Definition ack_text (ack : json float) : bytes :=
  match Ref.dumps ack with
  | Ok b => b
  | _ => []
  end.

Definition ack_frame (ack : json float) : bytes :=
  match frame_of (ack_text ack) with
  | Ok fr => fr
  | _ => []
  end.

(** A socket whose next write fails, and the network's answers to the
    reconnect: refused twice, then accepted. *)
Definition broken_socket : socket := Socket [] [] [Some (OSError "Broken pipe")].

Definition fresh_socket : socket :=
  Socket [ack_frame (ok_ack "0")] [] [].

Definition network : list dial :=
  [Refused (OSError "Connection refused");
   Refused (OSError "Connection refused");
   Accepted fresh_socket].

(** Two subscriber channels of one place: one empty, one taken. *)
Definition two_channels : registry :=
  Registry {[ 1 := Queue 1 []; 2 := Queue 1 ["old"] ]} {[ 1; 2 ]}.

(** A producer run with [--ack] and [--reconnect-backoff 100]. *)
Definition producer_args : args :=
  Args None "127.0.0.1" 5000 5 ModeGenerate 1 false None true 100.

End Sample.

(** The frame that carries an object: the text [json.dumps] gives it,
    behind its length. *)
Definition framed {F : Type} `{JsonCodec F} (obj : json F) (fr : bytes) : Prop :=
  exists b, json_dumps obj = Ok b /\ frame_of b = Ok fr.

(** A frame that carries a JSON object (an ack, whatever it says). *)
Definition object_frame {F : Type} `{JsonCodec F} (fr : bytes) : Prop :=
  exists payload d, frame_of payload = Ok fr /\ json_loads payload = Ok (JDict d).

(** ** The change watcher and the event stream (consumer_tcp_threaded.py) *)

(** How [mongo_watcher] stands after the changes that have come so far: it
    waits for the next one, or it has ended in its [except Exception]
    clause. *)
Inductive watcher : Type :=
| Watching
| Ended (e : exn).

(** [mongo_watcher], on the changes the stream has delivered:
    [[for change in stream:
        data = json.dumps(change, default=str)
        broadcast_to_clients(data)]]
    inside [try: ... except Exception].  [None]: a collaborator gave no
    answer. *)
Fixpoint mongo_watcher {F : Type} `{JsonCodec F}
    (stream : list (json F)) (reg : registry) : option (watcher * registry) :=
  match stream with
  | [] => Some (Watching, reg)
  | change :: stream' =>
      match json_dumps change with
      | Ok data =>
          match broadcast_to_clients (string_of_list_byte data) reg with
          | Ok reg' => mongo_watcher stream' reg'
          | Raise e => Some (Ended e, reg)
          | NoFuel => None
          end
      | Raise e => Some (Ended e, reg)
      | NoFuel => None
      end
  end.

(** ["\n"] *)
Definition nl : string := String (ascii_of_nat 10) EmptyString.

(** [": connected\n\n"] and [f"data: {data}\n\n"] *)
Definition sse_connected : string :=
  String.append ": connected" (String.append nl nl).

Definition sse_data (data : string) : string :=
  String.append "data: " (String.append data (String.append nl nl)).

(** The generator [gen] of [sse_events]: not started, suspended at a
    [yield] (or inside [q.get()]), or finished. *)
Inductive gen_state : Type :=
| Created
| Suspended
| Finished.

(** What a call of [next(gen)] gives: the chunk of a [yield]; no return
    yet, the generator waits in [q.get()] on an empty queue; or
    [StopIteration]. *)
Inductive pulled : Type :=
| Yielded (chunk : string)
| Waiting
| StopIteration.

(** [next(gen)] for the generator of the subscriber with queue [q]. *)
Definition gen_next (q : nat) (st : gen_state) (reg : registry)
  : pulled * gen_state * registry :=
  match st with
  | Created => (Yielded sse_connected, Suspended, reg)
  | Suspended =>
      match heap reg !! q with
      | Some (Queue m (data :: waiting)) =>
          (Yielded (sse_data data), Suspended,
           Registry (<[q := Queue m waiting]> (heap reg)) (clients reg))
      | _ => (Waiting, Suspended, reg)
      end
  | Finished => (StopIteration, Finished, reg)
  end.

(** [gen.close()]: [GeneratorExit] is raised at the [yield] where the
    generator is suspended, its [except] clause returns and the [finally]
    clause discards the queue.  A generator that was never started has not
    entered the [try], and closing it runs nothing. *)
Definition gen_close (q : nat) (st : gen_state) (reg : registry)
  : gen_state * registry :=
  match st with
  | Created => (Finished, reg)
  | Suspended => (Finished, sse_unregister q reg)
  | Finished => (Finished, reg)
  end.

(** Several broadcasts in a row, and several [next] calls in a row. *)
Fixpoint broadcasts (msgs : list string) (reg : registry) : res registry :=
  match msgs with
  | [] => Ok reg
  | m :: msgs' => reg' ← broadcast_to_clients m reg; broadcasts msgs' reg'
  end.

Fixpoint gen_pulls (n : nat) (q : nat) (st : gen_state) (reg : registry)
  : list pulled * gen_state * registry :=
  match n with
  | O => ([], st, reg)
  | S n' =>
      let '(p, st1, reg1) := gen_next q st reg in
      let '(ps, st2, reg2) := gen_pulls n' q st1 reg1 in
      (p :: ps, st2, reg2)
  end.

(** * The producers: documents, the CSV file and [main]

    [producer_periodic.py], and below it the two older producers
    [tcp/producer_tcp.py] and [tcp/producer.py]. *)

(** ** Exceptions and results of the producers

    Besides the classes of [exn] the producers meet [IndexError] and
    [KeyError] (subclasses of [Exception]) and raise [SystemExit] (which is
    not one). *)
Inductive raised : Type :=
| Exc (e : exn)
| IndexError (msg : string)
| KeyError (msg : string)
| SystemExit (msg : string).

Inductive outcome (A : Type) : Type :=
| Returns (a : A)
| Raises (r : raised)
| Unanswered.
Arguments Returns {A} a.
Arguments Raises {A} r.
Arguments Unanswered {A}.

#[global] Instance outcome_ret : MRet outcome := fun A a => Returns a.
#[global] Instance outcome_bind : MBind outcome := fun A B k m =>
  match m with
  | Returns a => k a
  | Raises r => Raises r
  | Unanswered => Unanswered
  end.

(** [str(n)] for a natural number, as an f-string writes it. *)
Definition str_nat (n : nat) : string := NilZero.string_of_uint (Nat.to_uint n).

(** [f"gen_{i}"] and [f"col{i+1}"] *)
Definition gen_key (i : nat) : string := String.append "gen_" (str_nat i).

Definition col_key (i : nat) : string := String.append "col" (str_nat (i + 1)).

(** [d.update(fields)] *)
Definition dict_update {F : Type} (d fields : document F) : document F :=
  foldl (fun acc kv => dict_set kv.1 kv.2 acc) d fields.

(** ** The random sources

    The calls the producers make into [random] and [faker], on the state
    [G] of the two generators.
    - [random_random] is [random.random()];
    - [float_lt t c] is [t < c] for the [float] literal written [c];
    - [random_randint a b] is [random.randint(a, b)];
    - [random_uniform_round a b n] is [round(random.uniform(a, b), n)];
    - [randbelow n] is the index [random.choice] draws in a sequence of
      [n > 0] items;
    - [faker_word] is [faker.word()] and [faker_sentence n] is
      [faker.sentence(nb_words=n)]. *)
Class PyRandom (F G : Type) : Type := {
  random_random : G -> F * G;
  float_lt : F -> Q -> bool;
  random_randint : Z -> Z -> G -> Z * G;
  random_uniform_round : Q -> Q -> nat -> G -> F * G;
  randbelow : nat -> G -> nat * G;
  randbelow_lt : forall n g, 0 < n -> (randbelow n g).1 < n;
  faker_word : G -> string * G;
  faker_sentence : Z -> G -> string * G
}.

(** [DEFAULT_COUNTRIES] *)
Definition DEFAULT_COUNTRIES : list (string * list string) :=
  [ ("India", ["Mumbai"; "Delhi"; "Bengaluru"; "Kolkata"; "Chennai"]);
    ("USA", ["New York"; "Los Angeles"; "Chicago"; "Houston"; "San Francisco"]);
    ("United Kingdom", ["London"; "Manchester"; "Birmingham"; "Leeds"; "Glasgow"]);
    ("Germany", ["Berlin"; "Hamburg"; "Munich"; "Cologne"; "Frankfurt"]);
    ("France", ["Paris"; "Marseille"; "Lyon"; "Toulouse"; "Nice"]);
    ("Canada", ["Toronto"; "Montreal"; "Vancouver"; "Calgary"; "Ottawa"]);
    ("Australia", ["Sydney"; "Melbourne"; "Brisbane"; "Perth"; "Adelaide"]);
    ("Brazil", ["Sao Paulo"; "Rio de Janeiro"; "Brasilia"; "Salvador"; "Fortaleza"]);
    ("South Africa", ["Johannesburg"; "Cape Town"; "Durban"; "Pretoria"; "Port Elizabeth"]);
    ("Japan", ["Tokyo"; "Osaka"; "Kyoto"; "Yokohama"; "Nagoya"]) ].

(** [mapping[k]] on a [dict] of lists, [None] for a missing key. *)
Fixpoint mapping_get (mapping : list (string * list string)) (k : string)
  : option (list string) :=
  match mapping with
  | [] => None
  | (k', cities) :: mapping' =>
      if String.eqb k' k then Some cities else mapping_get mapping' k
  end.

Section Generation.
Context {F G : Type} `{PyRandom F G}.

(** [random.choice(seq)] *)
Definition random_choice {A : Type} (seq : list A) (g : G) : outcome A * G :=
  match seq with
  | [] => (Raises (IndexError "Cannot choose from an empty sequence"), g)
  | x :: _ =>
      let '(i, g') := randbelow (length seq) g in (Returns (nth i seq x), g')
  end.

(** [random_value_for_col] (producer_periodic.py, tcp/producer_tcp.py).
    [random.choice([True, False])] draws in a sequence of two items. *)
Definition random_value_for_col (col_index : nat) (g : G) : json F * G :=
  let '(t, g) := random_random g in
  if float_lt t 0.25 then
    let '(z, g) := random_randint 0 10000 g in (JInt z, g)
  else if float_lt t 0.55 then
    let '(x, g) := random_uniform_round (-1000) 10000 4 g in (JFloat x, g)
  else if float_lt t 0.75 then
    let '(i, g) := randbelow 2 g in (JBool (nth i [true; false] true), g)
  else
    let '(u, g) := random_random g in
    if float_lt u 0.6 then
      let '(w, g) := faker_word g in (JStr w, g)
    else
      let '(n, g) := random_randint 2 5 g in
      let '(s, g) := faker_sentence n g in (JStr s, g).

(** A [dict] filled key by key, [acc[key(i)] = value(i)] for [i] in
    [indices]: a comprehension [{key(i): value(i) for i in indices}], or
    the loop that does the same. *)
Fixpoint comprehension (key : nat -> string) (value : nat -> G -> json F * G)
    (indices : list nat) (acc : document F) (g : G) : document F * G :=
  match indices with
  | [] => (acc, g)
  | i :: indices' =>
      let '(v, g') := value i g in
      comprehension key value indices' (dict_set (key i) v acc) g'
  end.

(** [build_generated_fields] (producer_periodic.py, tcp/producer_tcp.py):
    [{f"gen_{i}": random_value_for_col(i) for i in range(26, 151)}] *)
Definition build_generated_fields (g : G) : document F * G :=
  comprehension gen_key random_value_for_col (seq 26 125) [] g.

(** [pick_country_city] (producer_periodic.py, tcp/producer_tcp.py) *)
Definition pick_country_city (mapping : list (string * list string)) (g : G)
  : outcome (string * string) * G :=
  match random_choice (map fst mapping) g with
  | (Returns country, g1) =>
      match mapping_get mapping country with
      | None => (Raises (KeyError country), g1)
      | Some [] => (Returns (country, EmptyString), g1)
      | Some cities =>
          match random_choice cities g1 with
          | (Returns city, g2) => (Returns (country, city), g2)
          | (Raises r, g2) => (Raises r, g2)
          | (Unanswered, g2) => (Unanswered, g2)
          end
      end
  | (Raises r, g1) => (Raises r, g1)
  | (Unanswered, g1) => (Unanswered, g1)
  end.

End Generation.

(** ** The CSV file *)

(** What [pd.read_csv(path, dtype=str, keep_default_na=False)] returns: the
    column labels and the rows of cells, every cell a [str]. *)
Record DataFrame : Type := Table {
  columns : list string;
  cells : list (list string)
}.

(** [r[label]] for a row [r] of a frame with the labels [cols]. *)
Fixpoint series_get (cols : list string) (r : list string) (label : string)
  : outcome string :=
  match cols, r with
  | c :: cols', v :: r' =>
      if String.eqb c label then Returns v else series_get cols' r' label
  | _, _ => Raises (KeyError label)
  end.

(** [l[i]] on a list. *)
Definition list_index {A : Type} (l : list A) (i : nat) : outcome A :=
  match l !! i with
  | Some x => Returns x
  | None => Raises (IndexError "list index out of range")
  end.

(** [None if v == "" else v] *)
Definition cell_of (v : string) : option string :=
  if String.eqb v EmptyString then None else Some v.

(** [[None if r[header[i]] == "" else r[header[i]] for i in indices]] *)
Fixpoint row_cells (header : list string) (r : list string) (indices : list nat)
  : outcome (list (option string)) :=
  match indices with
  | [] => Returns []
  | i :: indices' =>
      label ← list_index header i;
      v ← series_get header r label;
      rest ← row_cells header r indices';
      Returns (cell_of v :: rest)
  end.

(** The loop [for _, r in df.iterrows(): rows.append(...)] *)
Fixpoint rows_of (header : list string) (rs : list (list string))
  : outcome (list (list (option string))) :=
  match rs with
  | [] => Returns []
  | r :: rs' =>
      row ← row_cells header r (seq 0 25);
      rest ← rows_of header rs';
      Returns (row :: rest)
  end.

Section Csv.
(** The file system, through [pd.read_csv]. *)
Variable read_csv : string -> outcome DataFrame.

(** [load_csv_rows] (producer_periodic.py) *)
Definition load_csv_rows (file_path : string)
  : outcome (list string * list (list (option string))) :=
  df ← read_csv file_path;
  if length (columns df) <? 25 then
    Raises (SystemExit
              (String.append "CSV has "
                 (String.append (str_nat (length (columns df)))
                    " columns; at least 25 required")))
  else
    let header := columns df in
    rows ← rows_of header (cells df);
    Returns (take 25 header, rows).

End Csv.

(** ** [main] of producer_periodic.py *)

(** What the document loop of [main] carries along: [row_index], the state
    of the random generators, and the number of clock readings made. *)
Record source (G : Type) : Type := Source {
  row_index : nat;
  rng : G;
  readings : nat
}.
Arguments Source {G} _ _ _.
Arguments row_index {G} _.
Arguments rng {G} _.
Arguments readings {G} _.

(** How the [try] block of [main] ends: by one of its two [break]s, or by
    an exception that nothing catches. *)
Inductive ending : Type :=
| SingleRun          (* ["interval <= 0, exiting after single run"] *)
| CsvExhausted       (* ["CSV exhausted and --loop not set"] *)
| Died (r : raised).

(** A run of [main]: cut off by a step bound or a collaborator without an
    answer; ended by an exception before there was a socket; or ended
    inside the [try] block, with the client as the [finally] clause leaves
    it. *)
Inductive run (F : Type) : Type :=
| Cut
| Before (r : raised)
| Ran (e : ending) (cl : client F).
Arguments Cut {F}.
Arguments Before {F} r.
Arguments Ran {F} e cl.

Section Main.
Context {F G : Type} `{JsonCodec F} `{PyRandom F G}.
Variable utcnow : nat -> string.
Variable read_csv : string -> outcome DataFrame.

(** A CSV cell in a document: [None] or the text. *)
Definition cell_value (c : option string) : json F :=
  match c with
  | None => JNull
  | Some s => JStr s
  end.

(** [{header25[i]: row_values[i] for i in indices}] *)
Fixpoint row_document (header25 : list string) (row_values : list (option string))
    (indices : list nat) (acc : document F) : outcome (document F) :=
  match indices with
  | [] => Returns acc
  | i :: indices' =>
      k ← list_index header25 i;
      v ← list_index row_values i;
      row_document header25 row_values indices' (dict_set k (cell_value v) acc)
  end.

(** One turn of [for _ in range(args.batch)]: the document that is appended
    to [batch_to_send]. *)
Definition next_doc (a : args) (header25 : list string)
    (csv_rows : list (list (option string))) (total_rows : nat) (src : source G)
  : outcome (document F * source G) :=
  '(doc, row_index', g) ←
    match mode a with
    | ModeCsv =>
        if total_rows =? 0 then Raises (SystemExit "CSV has no rows")
        else
          row_values ← list_index csv_rows (row_index src);
          doc ← row_document header25 row_values (seq 0 25) [];
          let next := S (row_index src) in
          Returns (doc, if (total_rows <=? next) && loop a then 0 else next, rng src)
    | ModeGenerate =>
        let '(doc, g) :=
          comprehension col_key (fun i => random_value_for_col (i + 1))
                        (seq 0 25) [] (rng src) in
        Returns (doc, row_index src, g)
    end;
  let '(fields, g) := build_generated_fields g in
  let doc := dict_update doc fields in
  match pick_country_city DEFAULT_COUNTRIES g with
  | (Returns (country, city), g) =>
      let doc := dict_set "country" (JStr country) doc in
      let doc := dict_set "city" (JStr city) doc in
      let doc := dict_set "_ingestedAt" (JStr (utcnow (readings src))) doc in
      Returns (doc, Source row_index' g (S (readings src)))
  | (Raises r, _) => Raises r
  | (Unanswered, _) => Unanswered
  end.

(** [for _ in range(n)]: the documents of a batch, in order. *)
Fixpoint build_batch (a : args) (header25 : list string)
    (csv_rows : list (list (option string))) (total_rows : nat)
    (n : nat) (src : source G) : outcome (list (document F) * source G) :=
  match n with
  | O => Returns ([], src)
  | S n' =>
      '(doc, src1) ← next_doc a header25 csv_rows total_rows src;
      '(docs, src2) ← build_batch a header25 csv_rows total_rows n' src1;
      Returns (doc :: docs, src2)
  end.

Definition is_csv (m : send_mode) : bool :=
  match m with
  | ModeCsv => true
  | ModeGenerate => false
  end.

(** [while True] of [main], at most [fuel] turns: build a batch, send it,
    and look at the two exit tests.  (The pacing in between, [time.time()]
    and a [time.sleep] of a positive duration, changes none of the
    variables below and cannot raise; it is left out.  So is Ctrl+C.) *)
Fixpoint main_loop (fuel : nat) (a : args) (header25 : list string)
    (csv_rows : list (list (option string))) (total_rows : nat)
    (src : source G) (cl : client F) : option (ending * client F) :=
  match fuel with
  | O => None
  | S fuel' =>
      match build_batch a header25 csv_rows total_rows (batch a) src with
      | Returns (batch_to_send, src1) =>
          match send_batch a cl (map JDict batch_to_send) with
          | (Ok _, cl1) =>
              if Qle_bool (interval a) 0 then Some (SingleRun, cl1)
              else if is_csv (mode a) && negb (loop a)
                      && (total_rows <=? row_index src1)
              then Some (CsvExhausted, cl1)
              else main_loop fuel' a header25 csv_rows total_rows src1 cl1
          | (Raise e, cl1) => Some (Died (Exc e), cl1)
          | (NoFuel, _) => None
          end
      | Raises r => Some (Died r, cl)
      | Unanswered => None
      end
  end.

(** [not args.file] *)
Definition no_file (a : args) : bool :=
  match file a with
  | None => true
  | Some p => String.eqb p EmptyString
  end.

(** The lines of [main] that fix [header25], [csv_rows] and
    [total_rows]: from the file in CSV mode, made up otherwise. *)
Definition main_inputs (a : args)
  : outcome (list string * list (list (option string)) * nat) :=
  match mode a, file a with
  | ModeCsv, Some p =>
      '(header25, csv_rows) ← load_csv_rows read_csv p;
      Returns (header25, csv_rows, length csv_rows)
  | _, _ => Returns (map col_key (seq 0 25), [], 0)
  end.

(** [main] (producer_periodic.py).  [g] is the state of the generators
    after the seeding, [network] what the next [connect] calls meet. *)
Definition main (fuel : nat) (a : args) (g : G) (network : list dial) : run F :=
  if is_csv (mode a) && no_file a then
    Before (SystemExit "mode=csv requires --file path")
  else
    match main_inputs a with
    | Raises r => Before r
    | Unanswered => Cut
    | Returns (header25, csv_rows, total_rows) =>
        match main_connect a network with
        | (Ok s, network', slept) =>
            let cl := Client s network' 0 (map EvSleep slept ++ [EvConnected]) in
            match main_loop fuel a header25 csv_rows total_rows (Source 0 g 0) cl with
            | Some (e, cl') =>
                Ran e (Client (sock cl') (net cl') (sent_total cl')
                              (log cl' ++ [EvClose]))
            | None => Cut
            end
        | (Raise e, _, _) => Before (Exc e)
        | (NoFuel, _, _) => Cut
        end
    end.

End Main.

(** ** tcp/producer_tcp.py

    The older TCP producer.  Its [send_frame], [recv_frame],
    [random_value_for_col], [build_generated_fields] and
    [pick_country_city] are the ones of producer_periodic.py, word for
    word. *)
Module Tcp.

(** Its command line: [--file] (required), [--host], [--port], [--seed],
    [--batch]. *)
Record tcp_args : Type := TcpArgs {
  file : string;
  host : string;
  port : Z;
  seed : option Z;
  batch : Z
}.

(** How [main] ends: before there is a socket; normally, with the number
    of documents sent; or by an exception inside its [try] block.  The
    socket is given as the [finally] clause closes it. *)
Inductive tcp_run : Type :=
| TcpCut
| TcpBefore (r : raised)
| TcpFinished (sent : nat) (s : socket)
| TcpDied (r : raised) (s : socket).

(** [row[key]] for the loop variable of [for row in df.iterrows()] and a
    [str] key.  [iterrows] yields pairs [(index, Series)], and a tuple takes
    integers and slices as indices, nothing else. *)
Definition tuple_getitem_str {A B : Type} (row : A * B) (key : string)
  : outcome string :=
  Raises (Exc (TypeError "tuple indices must be integers or slices, not str")).

Section TcpMain.
Context {F G : Type} `{JsonCodec F} `{PyRandom F G}.
Variable utcnow : nat -> string.
Variable read_csv : string -> outcome DataFrame.

(** [for i in range(25): key = csv_header[i];
       doc[key] = None if row[key] == "" else row[key]] *)
Fixpoint row_fields (csv_header : list string) (row : nat * list string)
    (indices : list nat) (doc : document F) : outcome (document F) :=
  match indices with
  | [] => Returns doc
  | i :: indices' =>
      key ← list_index csv_header i;
      v ← tuple_getitem_str row key;
      row_fields csv_header row indices'
                 (dict_set key (cell_value (cell_of v)) doc)
  end.

(** [for item in batch_buf: send_frame(sock, item); ack = recv_frame(sock);
       if ack.get("status") != "ok": print(...)] *)
Fixpoint send_items (s : socket) (items : list (document F)) : res unit * socket :=
  match items with
  | [] => (Ok tt, s)
  | item :: items' =>
      match send_frame s (JDict item) with
      | (Ok _, s1) =>
          match recv_frame s1 with
          | (Ok reply, s2) =>
              match ack_get_status reply with
              | Ok _ => send_items s2 items'
              | Raise e => (Raise e, s2)
              | NoFuel => (NoFuel, s2)
              end
          | (Raise e, s2) => (Raise e, s2)
          | (NoFuel, s2) => (NoFuel, s2)
          end
      | (Raise e, s1) => (Raise e, s1)
      | (NoFuel, s1) => (NoFuel, s1)
      end
  end.

(** The loop [for row in df.iterrows()] with what it carries along: the
    socket, [sent], [batch_buf], the generators and the clock. *)
Fixpoint rows_loop (a : tcp_args) (csv_header : list string)
    (rows : list (nat * list string)) (s : socket) (sent : nat)
    (batch_buf : list (document F)) (g : G) (now : nat)
  : outcome (nat * list (document F)) * socket :=
  match rows with
  | [] => (Returns (sent, batch_buf), s)
  | row :: rows' =>
      match row_fields csv_header row (seq 0 25) [] with
      | Returns doc =>
          let '(fields, g) := build_generated_fields g in
          let doc := dict_update doc fields in
          match pick_country_city DEFAULT_COUNTRIES g with
          | (Returns (country, city), g) =>
              let doc := dict_set "country" (JStr country) doc in
              let doc := dict_set "city" (JStr city) doc in
              let doc := dict_set "_ingestedAt" (JStr (utcnow now)) doc in
              let batch_buf := batch_buf ++ [doc] in
              if (batch a <=? Z.of_nat (length batch_buf))%Z then
                match send_items s batch_buf with
                | (Ok _, s') =>
                    rows_loop a csv_header rows' s' (sent + length batch_buf) [] g (S now)
                | (Raise e, s') => (Raises (Exc e), s')
                | (NoFuel, s') => (Unanswered, s')
                end
              else rows_loop a csv_header rows' s sent batch_buf g (S now)
          | (Raises r, _) => (Raises r, s)
          | (Unanswered, _) => (Unanswered, s)
          end
      | Raises r => (Raises r, s)
      | Unanswered => (Unanswered, s)
      end
  end.

(** [main] (tcp/producer_tcp.py): one [connect], no retry. *)
Definition main (a : tcp_args) (g : G) (network : list dial) : tcp_run :=
  match read_csv (file a) with
  | Returns df =>
      if length (columns df) <? 25 then
        TcpBefore (SystemExit
                     (String.append "CSV has "
                        (String.append (str_nat (length (columns df)))
                           " columns; at least 25 required")))
      else
        match network with
        | Accepted s :: _ =>
            match rows_loop a (columns df) (imap (fun i r => (i, r)) (cells df))
                            s 0 [] g 0 with
            | (Returns (sent, batch_buf), s1) =>
                match send_items s1 batch_buf with
                | (Ok _, s2) => TcpFinished (sent + length batch_buf) s2
                | (Raise e, s2) => TcpDied (Exc e) s2
                | (NoFuel, _) => TcpCut
                end
            | (Raises r, s1) => TcpDied r s1
            | (Unanswered, _) => TcpCut
            end
        | Refused e :: _ => TcpBefore (Exc e)
        | [] => TcpCut
        end
  | Raises r => TcpBefore r
  | Unanswered => TcpCut
  end.

End TcpMain.
End Tcp.

(** ** tcp/producer.py

    The producer that writes to the document store directly, in batches. *)
Module Mongo.

(** Its command line: [--file], [--mongo], [--db], [--coll], [--batch],
    [--seed], [--countries-file]. *)
Record mongo_args : Type := MongoArgs {
  file : option string;
  mongo : string;
  db : string;
  coll : string;
  batch : Z;
  seed : option Z;
  countries_file : option string
}.

(** The collection, as [main] uses it: [inserted] logs the lists given to
    [insert_many], one entry per call that returned; [faults] scripts the
    answers of the store to the next calls ([Some e]: the call raises [e]),
    and when it is used up every call returns.  [insert_many] itself
    refuses an empty list. *)
Record bulk (F : Type) : Type := Bulk {
  inserted : list (list (document F));
  faults : list (option exn)
}.
Arguments Bulk {F} _ _.
Arguments inserted {F} _.
Arguments faults {F} _.

(** [coll.insert_many(docs, ordered=False)] *)
Definition insert_many {F : Type} (c : bulk F) (docs : list (document F))
  : res unit * bulk F :=
  match docs with
  | [] => (Raise (TypeError "documents must be a non-empty list"), c)
  | _ :: _ =>
      match faults c with
      | Some e :: f => (Raise e, Bulk (inserted c) f)
      | None :: f => (Ok tt, Bulk (inserted c ++ [docs]) f)
      | [] => (Ok tt, Bulk (inserted c ++ [docs]) [])
      end
  end.

(** How [main] ends: by an exception (before the loop or in it), or
    normally with [total]; and the collection as it is then. *)
Inductive mongo_run (F : Type) : Type :=
| MongoCut
| MongoDied (r : raised) (c : bulk F)
| MongoFinished (total : nat) (c : bulk F).
Arguments MongoCut {F}.
Arguments MongoDied {F} r c.
Arguments MongoFinished {F} total c.

Section MongoMain.
Context {F G : Type} `{PyRandom F G}.
Variable utcnow : nat -> string.
Variable read_csv : string -> outcome DataFrame.
Variable read_json : string -> outcome (json F).
Variable path_exists : string -> bool.

(** [random_value] (tcp/producer.py) *)
Definition random_value (col_index : nat) (g : G) : json F * G :=
  let '(t, g) := random_random g in
  if float_lt t 0.25 then
    let '(z, g) := random_randint 0 1000 g in (JInt z, g)
  else if float_lt t 0.5 then
    let '(x, g) := random_uniform_round (-10000) 10000 4 g in (JFloat x, g)
  else if float_lt t 0.65 then
    let '(i, g) := randbelow 2 g in (JBool (nth i [true; false] true), g)
  else
    let '(u, g) := random_random g in
    if float_lt u 0.6 then
      let '(w, g) := faker_word g in (JStr w, g)
    else
      let '(n, g) := random_randint 2 5 g in
      let '(s, g) := faker_sentence n g in (JStr s, g).

(** [build_generated_fields] (tcp/producer.py):
    [for i in range(26, 150): out[f"gen_{i}"] = random_value(i)] *)
Definition build_generated_fields (g : G) : document F * G :=
  comprehension gen_key random_value (seq 26 124) [] g.

(** [pick_country_city] (tcp/producer.py): no test for an empty list. *)
Definition pick_country_city (mapping : list (string * list string)) (g : G)
  : outcome (string * string) * G :=
  match random_choice (map fst mapping) g with
  | (Returns country, g1) =>
      match mapping_get mapping country with
      | None => (Raises (KeyError country), g1)
      | Some cities =>
          match random_choice cities g1 with
          | (Returns city, g2) => (Returns (country, city), g2)
          | (Raises r, g2) => (Raises r, g2)
          | (Unanswered, g2) => (Unanswered, g2)
          end
      end
  | (Raises r, g1) => (Raises r, g1)
  | (Unanswered, g1) => (Unanswered, g1)
  end.

(** A list of city names in the countries file. *)
Definition cities_of (v : json F) : option (list string) :=
  match v with
  | JList l => mapM (fun x => match x with JStr s => Some s | _ => None end) l
  | _ => None
  end.

(** [load_country].  The file is to hold an object of lists of names, as
    the help text of the option says; an object of anything else is left
    unanswered. *)
Definition load_country (country_file : option string)
  : outcome (list (string * list string)) :=
  match country_file with
  | None => Returns DEFAULT_COUNTRIES
  | Some p =>
      if String.eqb p EmptyString then Returns DEFAULT_COUNTRIES
      else
        data ← read_json p;
        match data with
        | JDict d =>
            match mapM (fun kv => cs ← cities_of kv.2; Some (kv.1, cs)) d with
            | Some mapping => Returns mapping
            | None => Unanswered
            end
        | _ =>
            Raises (Exc (ValueError
              "file must contain a JSON object mapping country -> list of cities"))
        end
  end.

(** [for i in range(25): key = csv_header[i]; val = row[key];
       doc[key] = None if val == "" else val] *)
Fixpoint row_fields (csv_header : list string) (row : list string)
    (indices : list nat) (doc : document F) : outcome (document F) :=
  match indices with
  | [] => Returns doc
  | i :: indices' =>
      key ← list_index csv_header i;
      val ← series_get csv_header row key;
      row_fields csv_header row indices'
                 (dict_set key (cell_value (cell_of val)) doc)
  end.

(** The body of [for idx, row in df.iterrows()] up to [batch_doc.append]. *)
Definition make_doc (csv_header : list string)
    (countries_map : list (string * list string)) (row : list string)
    (g : G) (now : nat) : outcome (document F * G) :=
  doc ← row_fields csv_header row (seq 0 25) [];
  let '(fields, g) := build_generated_fields g in
  let doc := dict_update doc fields in
  match pick_country_city countries_map g with
  | (Returns (country, city), g) =>
      let doc := dict_set "country" (JStr country) doc in
      let doc := dict_set "city" (JStr city) doc in
      let doc := dict_set "_ingestedAt" (JStr (utcnow now)) doc in
      let doc := dict_set "_processed" (JBool false) doc in
      Returns (doc, g)
  | (Raises r, _) => Raises r
  | (Unanswered, _) => Unanswered
  end.

(** The loop over the rows, with [batch_doc], [total], the collection, the
    generators and the clock. *)
Fixpoint rows_loop (csv_header : list string)
    (countries_map : list (string * list string)) (batch_size : nat)
    (rows : list (list string)) (batch_doc : list (document F)) (total : nat)
    (c : bulk F) (g : G) (now : nat)
  : outcome (list (document F) * nat) * bulk F :=
  match rows with
  | [] => (Returns (batch_doc, total), c)
  | row :: rows' =>
      match make_doc csv_header countries_map row g now with
      | Returns (doc, g) =>
          let batch_doc := batch_doc ++ [doc] in
          if batch_size <=? length batch_doc then
            match insert_many c batch_doc with
            | (Ok _, c') =>
                rows_loop csv_header countries_map batch_size rows' []
                          (S total) c' g (S now)
            | (Raise e, c') => (Raises (Exc e), c')
            | (NoFuel, c') => (Unanswered, c')
            end
          else
            rows_loop csv_header countries_map batch_size rows' batch_doc
                      (S total) c g (S now)
      | Raises r => (Raises r, c)
      | Unanswered => (Unanswered, c)
      end
  end.

(** [main] (tcp/producer.py) *)
Definition main (a : mongo_args) (g : G) (c : bulk F) : mongo_run F :=
  match load_country (countries_file a) with
  | Returns countries_map =>
      match file a with
      | Some csv_path =>
          if negb (String.eqb csv_path EmptyString) && path_exists csv_path then
            match read_csv csv_path with
            | Returns df =>
                if length (columns df) <? 25 then
                  MongoDied (SystemExit
                    (String.append "your data has only "
                       (String.append (str_nat (length (columns df)))
                          " columns. number of columns should be >= 25"))) c
                else
                  let batch_size := Z.to_nat (Z.max 1 (batch a)) in
                  match rows_loop (columns df) countries_map batch_size
                                  (cells df) [] 0 c g 0 with
                  | (Returns (batch_doc, total), c1) =>
                      match batch_doc with
                      | [] => MongoFinished total c1
                      | _ :: _ =>
                          match insert_many c1 batch_doc with
                          | (Ok _, c2) => MongoFinished total c2
                          | (Raise e, c2) => MongoDied (Exc e) c2
                          | (NoFuel, _) => MongoCut
                          end
                      end
                  | (Raises r, c1) => MongoDied r c1
                  | (Unanswered, _) => MongoCut
                  end
            | Raises r => MongoDied r c
            | Unanswered => MongoCut
            end
          else MongoDied (SystemExit (String.append "CSV file not found: " csv_path)) c
      | None => MongoDied (SystemExit "CSV file not found: None") c
      end
  | Raises r => MongoDied r c
  | Unanswered => MongoCut
  end.

(** The documents of all rows, as the loop builds them one after the
    other. *)
Fixpoint documents (csv_header : list string)
    (countries_map : list (string * list string)) (rows : list (list string))
    (g : G) (now : nat) : outcome (list (document F)) :=
  match rows with
  | [] => Returns []
  | row :: rows' =>
      '(doc, g') ← make_doc csv_header countries_map row g now;
      docs ← documents csv_header countries_map rows' g' (S now);
      Returns (doc :: docs)
  end.

End MongoMain.
End Mongo.

(** ** A reference runtime for the producers

    - A scripted random source: every call takes the next number of a
      script ([0] when the script is used up) and maps it into the range
      of the call, so that every value it gives is one the call can
      return.  The words are made up.
    - [json.dumps] for flat documents of any length: a [dict] of [None],
      [bool], [int] below [2^63] in size and plain ASCII [str] values, the
      shape of the documents the producers build when no [float] is
      drawn.  Anything else is left unanswered. *)
Module RefGen.

Definition draw (g : list Z) : Z * list Z :=
  match g with
  | [] => (0%Z, [])
  | r :: g' => (r, g')
  end.

(** [k / 2^53] for [0 <= k < 2^53], which is exact. *)
Definition unit_float (r : Z) : float :=
  PrimFloat.div (Ref.float_of_Z (r mod 2 ^ 53)) (Ref.float_of_Z (2 ^ 53)).

(** The [float] literal written as the decimal [c]: the correctly rounded
    quotient of numerator and denominator. *)
Definition float_literal (c : Q) : float :=
  PrimFloat.div (Ref.float_of_Z (Qnum c)) (Ref.float_of_Z (Zpos (Qden c))).

Definition between (a b r : Z) : Z := (a + r mod (b - a + 1))%Z.

(** The integers next to a rational, below and above. *)
Definition floor (q : Q) : Z := (Qnum q / Zpos (Qden q))%Z.

Definition ceiling (q : Q) : Z := (- ((- Qnum q) / Zpos (Qden q)))%Z.

Definition below (n : nat) (g : list Z) : nat * list Z :=
  let '(r, g') := draw g in (Z.to_nat (r mod Z.of_nat n), g').

Lemma below_lt (n : nat) (g : list Z) : 0 < n -> (below n g).1 < n.
Proof.
  intros Hn. unfold below. destruct (draw g) as [r g']. simpl.
  pose proof (Z.mod_pos_bound r (Z.of_nat n) ltac:(lia)). lia.
Qed.

Definition words : list string := ["amber"; "river"; "stone"; "cloud"].

Definition word (g : list Z) : string * list Z :=
  let '(i, g') := below 4 g in (nth i words "amber", g').

Definition sentence (n : Z) (g : list Z) : string * list Z :=
  let '(w, g') := word g in
  (String.append "Amber"
     (String.append (String.concat EmptyString (repeat (String.append " " w) (Z.to_nat n - 1)))
        "."), g').

#[export] Instance random : PyRandom float (list Z) := {
  random_random := fun g => let '(r, g') := draw g in (unit_float r, g');
  float_lt := fun t c => PrimFloat.ltb t (float_literal c);
  random_randint := fun a b g => let '(r, g') := draw g in (between a b r, g');
  random_uniform_round := fun a b _ g =>
    let '(r, g') := draw g in
    (Ref.float_of_Z (between (ceiling a) (floor b) r), g');
  randbelow := below;
  randbelow_lt := below_lt;
  faker_word := word;
  faker_sentence := sentence
}.

Definition is_flat_value (v : json float) : bool :=
  match v with
  | JNull | JBool _ | JStr _ => true
  | JInt z => (Z.abs z <? 2 ^ 63)%Z
  | _ => false
  end.

Definition dumps_flat (v : json float) : res bytes :=
  match v with
  | JDict d => if forallb (fun kv => is_flat_value kv.2) d then Ref.write v else NoFuel
  | _ => NoFuel
  end.

#[export] Instance codec : JsonCodec float := {
  json_dumps := dumps_flat;
  json_loads := Ref.loads
}.

End RefGen.

(** ** Sample data for the producers *)
Module SampleCsv.
#[local] Existing Instances RefGen.random RefGen.codec.

(** A file of 26 columns and 3 rows; the second row starts with an empty
    cell. *)
Definition labels : list string :=
  map (fun i => String.append "c" (str_nat i)) (seq 1 26).

Definition table : DataFrame :=
  Table labels [repeat "a" 26; EmptyString :: repeat "b" 25; repeat "c" 26].

Definition read_csv (path : string) : outcome DataFrame :=
  if String.eqb path "data.csv" then Returns table
  else if String.eqb path "empty.csv" then Returns (Table labels [])
  else Raises (Exc (OSError "No such file or directory")).

(** [--mode csv --file data.csv --batch 2 --interval 1], and the same with
    [--interval 0]. *)
Definition csv_args : args :=
  Args (Some "data.csv") "127.0.0.1" 5000 1 ModeCsv 2 false None false 1.

Definition once_args : args :=
  Args (Some "data.csv") "127.0.0.1" 5000 0 ModeCsv 2 false None false 1.

(** [--mode generate --batch 1 --interval 0], and the same with
    [--interval 1]. *)
Definition generate_args : args :=
  Args None "127.0.0.1" 5000 0 ModeGenerate 1 false None false 1.

Definition stream_args : args :=
  Args None "127.0.0.1" 5000 1 ModeGenerate 1 false None false 1.

(** [--mode csv --file data.csv --loop --batch 2 --interval 1] *)
Definition loop_args : args :=
  Args (Some "data.csv") "127.0.0.1" 5000 1 ModeCsv 2 true None false 1.

(** [--mode csv --file empty.csv --batch 2 --interval 1]: a header and
    nothing below it. *)
Definition empty_args : args :=
  Args (Some "empty.csv") "127.0.0.1" 5000 1 ModeCsv 2 false None false 1.

(** The loaded file: its first 25 labels and its rows. *)
Definition header25 : list string := take 25 labels.

Definition csv_rows : list (list (option string)) :=
  map (fun r => map cell_of (take 25 r)) (cells table).

(** The first two documents of the file, with the random source at the
    start of an empty script, and their frames. *)
Definition built : list (document float) * source (list Z) :=
  match build_batch Ref.utcnow csv_args header25 csv_rows 3 2 (Source 0 [] 0) with
  | Returns x => x
  | _ => ([], Source 0 [] 0)
  end.

(** The first of them alone, with the loop variables after it. *)
Definition first : document float * source (list Z) :=
  match next_doc Ref.utcnow csv_args header25 csv_rows 3 (Source 0 [] 0) with
  | Returns x => x
  | _ => ([], Source 0 [] 0)
  end.

(** Four documents of the file read in a loop. *)
Definition looped : list (document float) * source (list Z) :=
  match build_batch Ref.utcnow loop_args header25 csv_rows 3 4 (Source 0 [] 0) with
  | Returns x => x
  | _ => ([], Source 0 [] 0)
  end.

Definition frame_for (doc : document float) : bytes :=
  match RefGen.dumps_flat (JDict doc) with
  | Ok b => match frame_of b with Ok fr => fr | _ => [] end
  | _ => []
  end.

Definition frames : list bytes := map frame_for built.1.

(** A socket that accepts every write and has nothing to deliver. *)
Definition quiet : socket := Socket [] [] [].

(** The arguments of the two older producers. *)
Definition tcp_args : Tcp.tcp_args := Tcp.TcpArgs "data.csv" "127.0.0.1" 5000 None 1.

Definition mongo_args : Mongo.mongo_args :=
  Mongo.MongoArgs (Some "data.csv") "mongodb://localhost:27017" "testdb"
                  "sensor_data" 2 None None.

Definition read_json (path : string) : outcome (json float) :=
  Raises (Exc (OSError "No such file or directory")).

Definition path_exists (path : string) : bool := String.eqb path "data.csv".

Definition mongo_docs : list (document float) :=
  match Mongo.documents Ref.utcnow labels DEFAULT_COUNTRIES (cells table) [] 0 with
  | Returns docs => docs
  | _ => []
  end.

End SampleCsv.

(** * Properties *)

(** ** The length header *)

Lemma to_N_byte_of_N (n : N) : Byte.to_N (byte_of_N n) = (n mod 256)%N.
Proof.
  unfold byte_of_N.
  destruct (Byte.of_N (n mod 256)) as [b|] eqn:E.
  - by apply Byte.to_of_N.
  - apply Byte.of_N_None_iff in E.
    pose proof (N.mod_upper_bound n 256). lia.
Qed.

Lemma be32_join (v : N) :
  (v < 2 ^ 32)%N ->
  N.lor (N.shiftl (N.shiftr v 24 mod 256) 24)
    (N.lor (N.shiftl (N.shiftr v 16 mod 256) 16)
       (N.lor (N.shiftl (N.shiftr v 8 mod 256) 8) (v mod 256))) = v.
Proof.
  intros Hv. apply N.bits_inj. intros i.
  change 256%N with (2 ^ 8)%N.
  rewrite !N.lor_spec.
  destruct (N.lt_ge_cases i 8) as [H8|H8].
  { rewrite !N.shiftl_spec_low by lia. rewrite N.mod_pow2_bits_low by lia. done. }
  rewrite (N.mod_pow2_bits_high v) by lia. rewrite orb_false_r.
  destruct (N.lt_ge_cases i 16) as [H16|H16].
  { rewrite (N.shiftl_spec_low _ 24), (N.shiftl_spec_low _ 16) by lia.
    rewrite N.shiftl_spec_high' by lia.
    rewrite N.mod_pow2_bits_low by lia.
    rewrite N.shiftr_spec'. simpl. f_equal. lia. }
  rewrite (N.shiftl_spec_high' _ 8) by lia.
  rewrite (N.mod_pow2_bits_high (N.shiftr v 8)) by lia. rewrite orb_false_r.
  destruct (N.lt_ge_cases i 24) as [H24|H24].
  { rewrite (N.shiftl_spec_low _ 24) by lia.
    rewrite N.shiftl_spec_high' by lia.
    rewrite N.mod_pow2_bits_low by lia.
    rewrite N.shiftr_spec'. simpl. f_equal. lia. }
  rewrite (N.shiftl_spec_high' _ 16) by lia.
  rewrite (N.mod_pow2_bits_high (N.shiftr v 16)) by lia. rewrite orb_false_r.
  rewrite N.shiftl_spec_high' by lia.
  destruct (N.lt_ge_cases i 32) as [H32|H32].
  { rewrite N.mod_pow2_bits_low by lia.
    rewrite N.shiftr_spec'. f_equal. lia. }
  rewrite N.mod_pow2_bits_high by lia.
  symmetry. destruct (N.eq_dec v 0%N) as [->|Hne]; [apply N.bits_0|].
  apply N.bits_above_log2.
  apply N.log2_lt_pow2; [lia|].
  eapply N.lt_le_trans; [exact Hv|]. apply N.pow_le_mono_r; lia.
Qed.

(** The header written by [struct.pack] has four bytes and reads back as the
    length it was made from. *)
Lemma struct_pack_unpack (n : nat) (header : bytes) :
  struct_pack_I n = Ok header ->
  length header = 4 /\ struct_unpack_I header = Ok n.
Proof.
  unfold struct_pack_I. destruct (N.ltb_spec (N.of_nat n) (2 ^ 32)) as [Hn|Hn]; [|done].
  intros [= <-]. split; [done|].
  unfold struct_unpack_I. rewrite !to_N_byte_of_N.
  rewrite be32_join by done. by rewrite Nat2N.id.
Qed.

Lemma struct_pack_fits (n : nat) :
  (Z.of_nat n <= 2 ^ 32 - 1)%Z -> exists header, struct_pack_I n = Ok header.
Proof.
  intros Hn. unfold struct_pack_I.
  destruct (N.ltb_spec (N.of_nat n) (2 ^ 32)) as [_|Hge]; [eauto|].
  exfalso. change (2 ^ 32)%N with 4294967296%N in Hge.
  change (2 ^ 32 - 1)%Z with 4294967295%Z in Hn. lia.
Qed.

Lemma struct_unpack_four (b3 b2 b1 b0 : byte) :
  exists n, struct_unpack_I [b3; b2; b1; b0] = Ok n.
Proof. eexists. reflexivity. Qed.

(** ** Reading from a socket *)

Lemma recv_segments_concat (segs : list bytes) (n : nat) chunk rest :
  recv_segments segs n = (chunk, rest) ->
  chunk ++ concat rest = concat segs /\ length chunk <= n.
Proof.
  revert chunk rest. induction segs as [|seg segs IH]; intros chunk rest.
  - simpl. intros [= <- <-]. simpl. split; [done|lia].
  - destruct seg as [|b seg].
    + simpl. apply IH.
    + cbn [recv_segments]. destruct (Nat.leb_spec (length (b :: seg)) n) as [Hle|Hgt].
      * intros [= <- <-]. split; [done|lia].
      * intros [= <- <-]. cbn [concat].
        rewrite app_assoc, take_drop. split; [done|]. rewrite length_take. lia.
Qed.

Lemma recv_segments_eof (segs : list bytes) (n : nat) :
  concat segs = [] -> recv_segments segs n = ([], []).
Proof.
  induction segs as [|seg segs IH]; [done|].
  simpl. intros Hnil. apply app_eq_nil in Hnil as [-> Hnil]. by apply IH.
Qed.

Lemma recv_segments_data (segs : list bytes) (n : nat) chunk rest :
  recv_segments segs n = (chunk, rest) ->
  0 < n -> concat segs <> [] -> chunk <> [].
Proof.
  revert chunk rest. induction segs as [|seg segs IH]; intros chunk rest; [done|].
  destruct seg as [|b seg].
  - simpl. apply IH.
  - cbn [recv_segments]. destruct (Nat.leb_spec (length (b :: seg)) n) as [Hle|Hgt].
    + by intros [= <- <-].
    + intros [= <- <-] Hn _. destruct n; [lia|done].
Qed.

Lemma recv_segments_first (seg : bytes) (segs : list bytes) (n : nat) :
  0 < n -> n <= length seg -> (recv_segments (seg :: segs) n).1 = take n seg.
Proof.
  intros Hn Hseg. destruct seg as [|b seg]; [simpl in Hseg; lia|].
  cbn [recv_segments]. destruct (Nat.leb_spec (length (b :: seg)) n).
  - simpl. symmetry. apply take_ge. lia.
  - done.
Qed.


Lemma sock_recv_spec (s : socket) (n : nat) :
  exists chunk s',
    sock_recv s n = (chunk, s') /\
    chunk ++ pending s' = pending s /\ length chunk <= n /\
    tx s' = tx s /\ wr s' = wr s /\
    (pending s = [] -> chunk = [] /\ rx s' = []) /\
    (0 < n -> pending s <> [] -> chunk <> []).
Proof.
  unfold sock_recv, pending.
  destruct (recv_segments (rx s) n) as [chunk rest] eqn:E.
  exists chunk, (Socket rest (tx s) (wr s)). simpl.
  destruct (recv_segments_concat _ _ _ _ E) as [Hc Hl].
  repeat split; try done.
  - rewrite recv_segments_eof in E by done. congruence.
  - rewrite recv_segments_eof in E by done. congruence.
  - intros. by eapply recv_segments_data.
Qed.

(** [recv_exact] depends on the pending bytes only, not on their segments:
    with [need] bytes still to read it returns the first [need] pending bytes
    when there are that many, and raises when the peer closes earlier.  The
    step bound [fuel] is never used up. *)
Lemma recv_exact_loop_spec (fuel : nat) (s : socket) (n : nat) (buf : bytes) :
  n - length buf <= fuel ->
  exists s', tx s' = tx s /\ wr s' = wr s /\
    (n - length buf <= length (pending s) ->
       recv_exact_loop fuel s n buf
         = (Ok (buf ++ take (n - length buf) (pending s)), s') /\
       pending s' = drop (n - length buf) (pending s)) /\
    (length (pending s) < n - length buf ->
       recv_exact_loop fuel s n buf
         = (Raise (ConnectionError "Socket closed while reading"), s') /\
       rx s' = []).
Proof.
  revert s buf. induction fuel as [|fuel IH]; intros s buf Hfuel.
  - exists s. repeat split; try done; try lia.
    + simpl. destruct (Nat.ltb_spec (length buf) n); [lia|].
      replace (n - length buf) with 0 by lia. by rewrite take_0, app_nil_r.
    + replace (n - length buf) with 0 by lia. by rewrite drop_0.
  - cbn [recv_exact_loop]. destruct (Nat.ltb_spec (length buf) n) as [Hlt|Hge].
    2:{ exists s. replace (n - length buf) with 0 by lia.
        rewrite take_0, app_nil_r, drop_0. repeat split; try done; lia. }
    destruct (sock_recv_spec s (n - length buf))
      as (chunk & s1 & -> & Hcat & Hlen & Htx & Hwr & Heof & Hdata).
    destruct chunk as [|b chunk].
    + exists s1. split; [done|]. split; [done|].
      assert (pending s = []) as Hnil.
      { destruct (pending s) eqn:E; [done|]. exfalso. apply Hdata; [lia|done|done]. }
      split.
      * rewrite Hnil. simpl. lia.
      * intros _. split; [done|]. by apply Heof.
    + destruct (IH s1 (buf ++ b :: chunk)) as (s' & Htx' & Hwr' & Hok & Hshort).
      { rewrite length_app. simpl in *. lia. }
      exists s'. split; [congruence|]. split; [congruence|].
      rewrite length_app in Hok, Hshort.
      rewrite <- Hcat. rewrite length_app.
      split.
      * intros Hneed. destruct Hok as [E1 E2]; [simpl in *; lia|].
        rewrite E1, E2. split.
        -- f_equal. f_equal. rewrite <- app_assoc. f_equal.
           rewrite take_app_ge by (simpl in *; lia).
           f_equal. f_equal. lia.
        -- rewrite drop_app_ge by (simpl in *; lia). f_equal. lia.
      * intros Hneed. destruct Hshort as [E1 E2]; [simpl in *; lia|].
        by rewrite E1, E2.
Qed.

Lemma recv_exact_ok (s : socket) (n : nat) :
  n <= length (pending s) ->
  exists s', recv_exact s n = (Ok (take n (pending s)), s') /\
    pending s' = drop n (pending s) /\ tx s' = tx s /\ wr s' = wr s.
Proof.
  intros Hn. unfold recv_exact.
  destruct (recv_exact_loop_spec n s n []) as (s' & Htx & Hwr & Hok & _);
    [simpl; lia|].
  simpl in Hok. rewrite Nat.sub_0_r in Hok. destruct (Hok Hn) as [E1 E2]. eauto.
Qed.

Lemma recv_exact_short (s : socket) (n : nat) :
  length (pending s) < n ->
  exists s', recv_exact s n
      = (Raise (ConnectionError "Socket closed while reading"), s') /\
    rx s' = [] /\ tx s' = tx s /\ wr s' = wr s.
Proof.
  intros Hn. unfold recv_exact.
  destruct (recv_exact_loop_spec n s n []) as (s' & Htx & Hwr & _ & Hshort);
    [simpl; lia|].
  simpl in Hshort. rewrite Nat.sub_0_r in Hshort. destruct (Hshort Hn) as [E1 E2]. eauto.
Qed.

(** [recv_exact] returns or raises; its loop bound is never the answer. *)
Lemma recv_exact_total (s : socket) (n : nat) : (recv_exact s n).1 <> NoFuel.
Proof.
  destruct (Nat.le_gt_cases n (length (pending s))) as [Hn|Hn].
  - destruct (recv_exact_ok s n Hn) as (s' & -> & _). done.
  - destruct (recv_exact_short s n Hn) as (s' & -> & _). done.
Qed.

(** ** The server's frame decoder *)

Lemma struct_unpack_length4 (h : bytes) :
  length h = 4 -> exists n, struct_unpack_I h = Ok n.
Proof.
  destruct h as [|b3 [|b2 [|b1 [|b0 [|]]]]]; try done. intros _. apply struct_unpack_four.
Qed.

(** [read_frame] computes [decode] of the pending bytes, however the
    transport cuts them into segments. *)
Lemma read_frame_decode (conn : socket) :
  exists c', tx c' = tx conn /\ wr c' = wr conn /\
    match decode (pending conn) with
    | ConnectionClosed => read_frame conn = (Ok Eof, c') /\ rx c' = []
    | TruncatedFrame =>
        read_frame conn
          = (Raise (ConnectionError "Socket closed while reading"), c') /\
        rx c' = []
    | Decoded payload rest =>
        read_frame conn = (Ok (Frame payload), c') /\ pending c' = rest
    end.
Proof.
  unfold read_frame.
  destruct (sock_recv_spec conn 4)
    as (header & c1 & -> & Hcat & Hlen & Htx & Hwr & Heof & Hdata).
  destruct header as [|h0 header].
  { assert (pending conn = []) as Hnil.
    { destruct (pending conn) eqn:E; [done|]. exfalso. apply Hdata; [lia|done|done]. }
    rewrite Hnil. simpl. exists c1. repeat split; try done. by apply Heof. }
  set (hd := h0 :: header) in *.
  assert (pending conn <> []) as Hne by (rewrite <- Hcat; done).
  unfold decode. destruct (pending conn) as [|p0 stream] eqn:Estream; [done|].
  rewrite <- Estream in *. clear p0 stream Estream.
  assert (length (pending conn) = length hd + length (pending c1)) as Hsz
    by (rewrite <- Hcat; apply length_app).
  (* the header, completed *)
  assert (exists c2, tx c2 = tx conn /\ wr c2 = wr conn /\
    ((length (pending conn) < 4 /\
      (if length hd <? 4 then
         match recv_exact c1 (4 - length hd) with
         | (Ok more, c) => (Ok (hd ++ more), c)
         | (Raise e, c) => (Raise e, c)
         | (NoFuel, c) => (NoFuel, c)
         end
       else (Ok hd, c1))
      = (Raise (ConnectionError "Socket closed while reading"), c2) /\ rx c2 = []) \/
     (4 <= length (pending conn) /\
      (if length hd <? 4 then
         match recv_exact c1 (4 - length hd) with
         | (Ok more, c) => (Ok (hd ++ more), c)
         | (Raise e, c) => (Raise e, c)
         | (NoFuel, c) => (NoFuel, c)
         end
       else (Ok hd, c1))
      = (Ok (take 4 (pending conn)), c2) /\ pending c2 = drop 4 (pending conn))))
    as (c2 & Htx2 & Hwr2 & Hhdr).
  { destruct (Nat.ltb_spec (length hd) 4) as [Hshort|Hfull].
    - destruct (Nat.le_gt_cases (4 - length hd) (length (pending c1))) as [Hn|Hn].
      + destruct (recv_exact_ok c1 _ Hn) as (c2 & -> & Hp & Htx' & Hwr').
        exists c2. split; [congruence|]. split; [congruence|]. right.
        split; [lia|]. rewrite <- Hcat. split.
        * f_equal. rewrite take_app_ge by lia. done.
        * rewrite drop_app_ge by lia. done.
      + destruct (recv_exact_short c1 _ Hn) as (c2 & -> & Hp & Htx' & Hwr').
        exists c2. split; [congruence|]. split; [congruence|]. left.
        split; [lia|done].
    - exists c1. split; [done|]. split; [done|]. right.
      assert (length hd = 4) as H4 by lia.
      split; [lia|]. rewrite <- Hcat. split.
      + f_equal. by rewrite take_app_length'.
      + by rewrite drop_app_length'. }
  destruct Hhdr as [(Hlt & -> & Hrx)|(Hge & -> & Hp2)].
  { destruct (Nat.ltb_spec (length (pending conn)) 4); [|lia].
    exists c2. done. }
  destruct (Nat.ltb_spec (length (pending conn)) 4); [lia|].
  destruct (struct_unpack_length4 (take 4 (pending conn))) as [msglen ->].
  { rewrite length_take. lia. }
  destruct (Nat.ltb_spec (length (pending conn) - 4) msglen) as [Hshort|Hfull].
  - destruct (recv_exact_short c2 msglen) as (c3 & -> & Hrx & Htx3 & Hwr3).
    { rewrite Hp2, length_drop. lia. }
    exists c3. split; [congruence|]. split; [congruence|]. done.
  - destruct (recv_exact_ok c2 msglen) as (c3 & -> & Hp3 & Htx3 & Hwr3).
    { rewrite Hp2, length_drop. lia. }
    exists c3. split; [congruence|]. split; [congruence|].
    rewrite Hp2. split; [done|]. rewrite Hp3, Hp2. by rewrite drop_drop.
Qed.

Lemma frame_of_length (payload fr : bytes) :
  frame_of payload = Ok fr ->
  exists header, fr = header ++ payload /\ length header = 4 /\
    struct_unpack_I header = Ok (length payload).
Proof.
  unfold frame_of. destruct (struct_pack_I (length payload)) as [header| |] eqn:E; try done.
  simpl. intros [= <-]. exists header. by destruct (struct_pack_unpack _ _ E).
Qed.

(** The decoder gives back the payload of a frame and what follows it. *)
Lemma decode_frame (payload fr rest : bytes) :
  frame_of payload = Ok fr -> decode (fr ++ rest) = Decoded payload rest.
Proof.
  intros (header & -> & H4 & Hun)%frame_of_length.
  unfold decode. rewrite <- app_assoc.
  destruct (header ++ payload ++ rest) as [|b0 s] eqn:E.
  { apply (f_equal length) in E. rewrite length_app in E. simpl in E. lia. }
  rewrite <- E. clear b0 s E.
  rewrite !length_app, H4.
  destruct (Nat.ltb_spec (4 + (length payload + length rest)) 4); [lia|].
  rewrite take_app_length' by done. rewrite Hun.
  destruct (Nat.ltb_spec (4 + (length payload + length rest) - 4) (length payload)); [lia|].
  rewrite drop_app_length' by done. rewrite take_app_length.
  f_equal. rewrite <- H4. rewrite drop_app_add'; [|done].
  by rewrite drop_app_length.
Qed.

Lemma decode_mid_frame (stream : bytes) :
  ends_mid_frame stream -> decode stream = TruncatedFrame.
Proof.
  intros [Hne Hcut]. unfold decode. destruct stream as [|b s] eqn:E; [done|].
  rewrite <- E in *. clear b s E Hne.
  destruct (Nat.ltb_spec (length stream) 4) as [|H4]; [done|].
  destruct Hcut as [|(l & -> & Hl)]; [lia|].
  destruct (Nat.ltb_spec (length stream - 4) l); [done|lia].
Qed.

(** ** The connection handler *)

Section HandlerFacts.
Context {F C : Type} `{JsonCodec F} `{PyArith F} `{Collection F C}.
Variable utcnow : nat -> string.

Lemma send_response_ok (c : socket) (obj : json F) (b fr : bytes) :
  json_dumps obj = Ok b -> frame_of b = Ok fr -> write_ok c = true ->
  send_response c obj = (Ok tt, Socket (rx c) (tx c ++ [fr]) (tail (wr c))).
Proof.
  unfold send_response, frame_of, write_ok, sock_sendall. intros -> Hfr Hw.
  destruct (struct_pack_I (length b)) as [header| |]; try done.
  simpl in Hfr. injection Hfr as <-.
  by destruct (wr c) as [|[e|] w].
Qed.

(** One turn of the loop, read off the pending bytes. *)
Lemma handle_frame_decode (st : server C) :
  exists c', tx c' = tx (conn st) /\ wr c' = wr (conn st) /\
    match decode (pending (conn st)) with
    | ConnectionClosed =>
        handle_frame utcnow st = Break (Server c' (coll st) (clock st)) /\
        rx c' = []
    | TruncatedFrame =>
        handle_frame utcnow st
          = Throw (ConnectionError "Socket closed while reading")
                  (Server c' (coll st) (clock st)) /\
        rx c' = []
    | Decoded payload rest =>
        handle_frame utcnow st = process_payload utcnow st c' payload /\
        pending c' = rest
    end.
Proof.
  destruct (read_frame_decode (conn st)) as (c' & Htx & Hwr & Hrd).
  exists c'. split; [done|]. split; [done|]. unfold handle_frame.
  destruct (decode (pending (conn st))); destruct Hrd as [-> Hp]; done.
Qed.

(** C3.  The handler tells a clean close from a truncated frame.  When the
    peer has closed and the first read of a frame yields no byte, the
    handler leaves its loop by [break]: it ends as [ClosedByPeer], having
    sent nothing more.  When the stream ends after at least one byte of a
    frame, inside the header or inside the payload, [recv_exact] raises and
    the handler ends in its [except ConnectionError] clause: a
    [ConnectionFault], which is a different outcome, and the end of that
    connection. *)
Theorem clean_close_and_truncated_frame (st : server C) :
  (pending (conn st) = [] ->
   exists c',
     handle_client utcnow st
       = Some (Exit ClosedByPeer (Server c' (coll st) (clock st)) false) /\
     tx c' = tx (conn st)) /\
  (ends_mid_frame (pending (conn st)) ->
   exists c',
     handle_client utcnow st
       = Some (Exit (ConnectionFault (ConnectionError "Socket closed while reading"))
                    (Server c' (coll st) (clock st)) false) /\
     tx c' = tx (conn st)) /\
  (forall e, ClosedByPeer <> ConnectionFault e).
Proof.
  split; [|split; [|done]].
  - intros Hnil. destruct (handle_frame_decode st) as (c' & Htx & _ & Hd).
    rewrite Hnil in Hd. simpl in Hd. destruct Hd as [Hf _].
    exists c'. split; [|done].
    unfold handle_client, turns. cbn [handle_client_loop]. rewrite Hf. done.
  - intros Hcut. destruct (handle_frame_decode st) as (c' & Htx & _ & Hd).
    rewrite (decode_mid_frame _ Hcut) in Hd. destruct Hd as [Hf _].
    exists c'. split; [|done].
    unfold handle_client, turns. cbn [handle_client_loop]. rewrite Hf. done.
Qed.



(** C10.  An error ack does not mean the record was not stored.  When
    [insert_one] succeeds and the enrichment that follows raises [e], the
    handler answers the frame with the error ack carrying [str(e)] and goes
    on, and the store it goes on with still holds the record, with its
    ["_receivedAt"] stamp and no enrichment: nothing undoes the insert.
    (The loop body is the same in both servers.) *)
Theorem error_ack_after_insert
    (st : server C) (payload fr rest : bytes) (d : document F)
    (i : oid) (c1 c2 : C) (now' : nat) (e : exn) (ack fr_ack : bytes) :
  frame_of payload = Ok fr ->
  pending (conn st) = fr ++ rest ->
  json_loads payload = Ok (JDict d) ->
  let doc := dict_set "_receivedAt" (JStr (utcnow (clock st))) d in
  insert_one (coll st) doc = (Ok i, c1) ->
  enrichment_raises utcnow doc i c1 (S (clock st)) e c2 now' ->
  json_dumps (error_ack (exn_str e)) = Ok ack ->
  frame_of ack = Ok fr_ack ->
  write_ok (conn st) = true ->
  exists c',
    handle_frame utcnow st = Continue (Server c' c2 now') /\
    tx c' = tx (conn st) ++ [fr_ack] /\
    pending c' = rest /\
    find_one c2 i = Some (doc, None) /\
    dict_get "_receivedAt" doc = Some (JStr (utcnow (clock st))).
Proof.
  intros Hfr Hpend Hloads doc Hins Henr Hdumps Hack Hw.
  destruct (handle_frame_decode st) as (c0 & Htx & Hwr & Hd).
  rewrite Hpend, (decode_frame _ _ rest Hfr) in Hd. destruct Hd as [Hf Hp].
  assert (write_ok c0 = true) as Hw0 by (unfold write_ok in *; by rewrite Hwr).
  pose proof (send_response_ok c0 _ _ _ Hdumps Hack Hw0) as Hsend.
  assert (store_record utcnow doc (coll st) (S (clock st))
          = (Ok (error_ack (exn_str e)), c2, now')) as Hstore.
  { unfold store_record. rewrite Hins.
    destruct Henr as [(-> & -> & ->)|(r & -> & -> & ->)]; done. }
  eexists. split.
  { rewrite Hf. unfold process_payload. rewrite Hloads. fold doc.
    rewrite Hstore, Hsend. reflexivity. }
  simpl. split; [by rewrite Htx|]. split; [done|]. split.
  - pose proof (insert_one_find _ _ _ _ Hins) as Hfind.
    destruct Henr as [(_ & -> & _)|(r & _ & Hup & _)]; [done|].
    by rewrite (update_one_raise_find _ _ _ _ _ i Hup).
  - clear. subst doc. induction d as [|[k v] d IH]; simpl.
    + done.
    + destruct (String.eqb_spec k "_receivedAt") as [->|Hne]; simpl.
      * done.
      * by destruct (String.eqb_spec k "_receivedAt").
Qed.

(** *** The loop bound of [handle_client] is large enough *)


Lemma bind_answers {A B : Type} (m : res A) (k : A -> res B) :
  m <> NoFuel -> (forall a, k a <> NoFuel) -> m ≫= k <> NoFuel.
Proof. intros Hm Hk. destruct m; [apply Hk|done|done]. Qed.

Lemma send_response_rx (c : socket) (obj : json F) :
  rx (send_response c obj).2 = rx c.
Proof.
  unfold send_response, sock_sendall.
  destruct (json_dumps obj); try done.
  destruct (struct_pack_I (length a)); try done.
  by destruct (wr c) as [|[e|] w].
Qed.

Lemma send_response_answers (c : socket) (obj : json F) :
  collaborators_answer -> (send_response c obj).1 <> NoFuel.
Proof.
  intros (_ & Hdumps & _). unfold send_response, sock_sendall.
  pose proof (Hdumps obj) as Hd. destruct (json_dumps obj); try done.
  unfold struct_pack_I. destruct (N.of_nat (length a) <? 2 ^ 32)%N; [|done].
  by destruct (wr c) as [|[e|] w].
Qed.

Lemma store_record_answers (doc : document F) (c : C) (now : nat) :
  collaborators_answer -> (store_record utcnow doc c now).1.1 <> NoFuel.
Proof.
  intros (_ & _ & Hsum & Hdiv & Hins & Hupd). unfold store_record.
  pose proof (Hins c doc) as Hi.
  destruct (insert_one c doc) as [[i| |] c1]; try done.
  assert (process_document doc <> NoFuel) as Hp.
  { unfold process_document, summarize.
    destruct (omap _ doc) as [|n nums]; [done|].
    apply bind_answers; [apply Hsum|]. intros s.
    apply bind_answers; [apply Hdiv|]. done. }
  destruct (process_document doc) as [r| |]; try done.
  pose proof (Hupd c1 i (Patch (utcnow now) r)) as Hu.
  by destruct (update_one c1 i (Patch (utcnow now) r)) as [[u| |] c2].
Qed.

(** The [try] block catches every exception. *)
Lemma store_record_catches (doc : document F) (c : C) (now : nat) (e : exn) :
  (store_record utcnow doc c now).1.1 <> Raise e.
Proof.
  unfold store_record.
  destruct (insert_one c doc) as [[i| |] c1]; try done.
  destruct (process_document doc) as [r| |]; try done.
  by destruct (update_one c1 i (Patch (utcnow now) r)) as [[u| |] c2].
Qed.

(** A turn handles a frame, stops, or raises; it is never cut off, and a
    turn that does not end the loop leaves fewer pending bytes. *)
Lemma handle_frame_progress (st : server C) :
  collaborators_answer ->
  match handle_frame utcnow st with
  | Continue st' => length (pending (conn st')) < length (pending (conn st))
  | Stuck => False
  | _ => True
  end.
Proof.
  intros Hans. destruct (handle_frame_decode st) as (c' & _ & _ & Hd).
  destruct (decode (pending (conn st))) as [| |payload rest] eqn:Edec.
  - by destruct Hd as [-> _].
  - by destruct Hd as [-> _].
  - destruct Hd as [-> Hrest].
    assert (length rest < length (pending (conn st))) as Hlt.
    { unfold decode in Edec. destruct (pending (conn st)) as [|b0 s0] eqn:E; [done|].
      rewrite <- E in *.
      destruct (Nat.ltb_spec (length (pending (conn st))) 4); [done|].
      destruct (struct_unpack_I (take 4 (pending (conn st)))) as [l| |]; try done.
      destruct (Nat.ltb_spec (length (pending (conn st)) - 4) l); [done|].
      injection Edec as _ <-. rewrite length_drop. lia. }
    unfold process_payload.
    pose proof (proj1 Hans payload) as Hl.
    destruct (json_loads payload) as [v|e|]; try done.
    + assert (forall d, match
          (let doc := dict_set "_receivedAt" (JStr (utcnow (clock st))) d in
           match store_record utcnow doc (coll st) (S (clock st)) with
           | (Ok ack, c1, now) =>
               match send_response c' ack with
               | (Ok _, c'') => Continue (Server c'' c1 now)
               | (Raise e', c'') => Throw e' (Server c'' c1 now)
               | (NoFuel, _) => Stuck
               end
           | _ => Stuck
           end) with
          | Continue st' => length (pending (conn st')) < length (pending (conn st))
          | Stuck => False
          | _ => True
          end) as Hdict.
      { intros d. cbv zeta.
        pose proof (store_record_answers
                      (dict_set "_receivedAt" (JStr (utcnow (clock st))) d)
                      (coll st) (S (clock st)) Hans) as Hs.
        pose proof (store_record_catches
                      (dict_set "_receivedAt" (JStr (utcnow (clock st))) d)
                      (coll st) (S (clock st))) as Hc.
        destruct (store_record utcnow _ (coll st) (S (clock st))) as [[[ack|e| ] c1] now].
        - pose proof (send_response_answers c' ack Hans) as Hsr.
          pose proof (send_response_rx c' ack) as Hrx.
          destruct (send_response c' ack) as [[u|e'|] c'']; try done.
          simpl in *. unfold pending. rewrite Hrx. fold (pending c'). by rewrite Hrest.
        - by destruct (Hc e).
        - done. }
      destruct v; try done. apply Hdict.
    + pose proof (send_response_answers c'
                    (error_ack (String.append "invalid json: " (exn_str e))) Hans) as Hsr.
      pose proof (send_response_rx c'
                    (error_ack (String.append "invalid json: " (exn_str e)))) as Hrx.
      destruct (send_response c' _) as [[u|e'|] c'']; try done.
      simpl in *. unfold pending. rewrite Hrx. fold (pending c'). by rewrite Hrest.
Qed.

(** [handle_client] always comes to an end within its bound. *)
Lemma handle_client_loop_ends (fuel : nat) (st : server C) :
  collaborators_answer ->
  length (pending (conn st)) < fuel ->
  handle_client_loop utcnow fuel st <> None.
Proof.
  intros Hans. revert st. induction fuel as [|fuel IH]; intros st Hfuel; [lia|].
  cbn [handle_client_loop].
  pose proof (handle_frame_progress st Hans) as Hp.
  destruct (handle_frame utcnow st) as [st'|st'|e st'|]; try done.
  - apply IH. lia.
  - by destruct (is_ConnectionError e).
Qed.

Lemma handle_client_ends (st : server C) :
  collaborators_answer ->
  handle_client utcnow st <> None /\ handle_client_threaded utcnow st <> None.
Proof.
  intros Hans.
  pose proof (handle_client_loop_ends (turns st) st Hans) as Hends.
  unfold handle_client, handle_client_threaded.
  destruct (handle_client_loop utcnow (turns st) st) as [[[] st']|].
  - done.
  - done.
  - done.
  - exfalso. apply Hends; [|done]. unfold turns, pending. lia.
Qed.

(** *** One ack per frame, in order *)






(** C4 (the handler fails it).  A frame whose payload is valid JSON but
    not an object gets no AckResponse.  [json.loads] succeeds, the item
    assignment [doc["_receivedAt"] = ...] raises [TypeError] outside the
    [try] blocks that build acks, and the handler ends in its
    [except Exception] clause: nothing was sent for the frame, nothing was
    stored, and the frames that follow on the connection are never read. *)
Theorem non_object_payload_gets_no_ack
    (st : server C) (payload fr rest : bytes) (v : json F) :
  frame_of payload = Ok fr ->
  pending (conn st) = fr ++ rest ->
  json_loads payload = Ok v ->
  (forall d, v <> JDict d) ->
  exists c',
    handle_client utcnow st
      = Some (Exit (UnexpectedError (TypeError "object does not support item assignment"))
                   (Server c' (coll st) (S (clock st))) true) /\
    handle_client_threaded utcnow st
      = Some (Exit (UnexpectedError (TypeError "object does not support item assignment"))
                   (Server c' (coll st) (S (clock st))) true) /\
    tx c' = tx (conn st) /\
    pending c' = rest.
Proof.
  intros Hfr Hpend Hloads Hv.
  destruct (handle_frame_decode st) as (c' & Htx & _ & Hd).
  rewrite Hpend, (decode_frame _ _ rest Hfr) in Hd. destruct Hd as [Hf Hp].
  assert (handle_frame utcnow st
          = Throw (TypeError "object does not support item assignment")
                  (Server c' (coll st) (S (clock st)))) as Hturn.
  { rewrite Hf. unfold process_payload. rewrite Hloads.
    destruct v; try done. by destruct (Hv d). }
  exists c'. unfold handle_client, handle_client_threaded, turns.
  cbn [handle_client_loop]. rewrite Hturn. done.
Qed.

End HandlerFacts.

(** ** The client's frame decoder *)

Section FramingFacts.
Context {F : Type} `{JsonCodec F}.

(** The payload loop of [recv_frame] is the loop of [recv_exact] with
    another message. *)
Lemma recv_frame_loop_recv_exact_loop (fuel : nat) (s : socket) (n : nat) (buf : bytes) :
  recv_frame_loop fuel s n buf =
  match recv_exact_loop fuel s n buf with
  | (Raise _, s') => (Raise (ConnectionError "server closed mid-frame"), s')
  | r => r
  end.
Proof.
  revert s buf. induction fuel as [|fuel IH]; intros s buf; simpl.
  - by destruct (length buf <? n).
  - destruct (length buf <? n); [|done].
    destruct (sock_recv s (n - length buf)) as [[|b chunk] s']; [done|].
    apply IH.
Qed.

Lemma recv_frame_loop_ok (s : socket) (n : nat) :
  n <= length (pending s) ->
  exists s', recv_frame_loop n s n [] = (Ok (take n (pending s)), s') /\
    pending s' = drop n (pending s) /\ tx s' = tx s /\ wr s' = wr s.
Proof.
  intros Hn. rewrite recv_frame_loop_recv_exact_loop.
  destruct (recv_exact_ok s n Hn) as (s' & E & Hrest). unfold recv_exact in E.
  rewrite E. eauto.
Qed.

(** When the first segment holds the whole header, [recv_frame] returns
    what [json.loads] makes of the payload. *)
Lemma recv_frame_header_at_once (s : socket) (seg : bytes) (segs : list bytes)
    (payload fr more : bytes) :
  rx s = seg :: segs -> 4 <= length seg ->
  frame_of payload = Ok fr -> pending s = fr ++ more ->
  exists s', recv_frame s = (json_loads payload, s') /\
    pending s' = more /\ tx s' = tx s /\ wr s' = wr s.
Proof.
  intros Hrx Hseg (header & -> & H4 & Hun)%frame_of_length Hpend.
  unfold recv_frame.
  destruct (sock_recv_spec s 4)
    as (hd & s1 & E & Hcat & Hlen & Htx & Hwr & _ & _).
  assert (hd = header /\ pending s1 = payload ++ more) as [-> Hp1].
  { assert (length hd = 4) as Hhd.
    { pose proof (recv_segments_first seg segs 4 ltac:(lia) Hseg) as Hfirst.
      unfold sock_recv in E. rewrite Hrx in E.
      destruct (recv_segments (seg :: segs) 4) as [chunk rest].
      injection E as <- _. simpl in Hfirst. rewrite Hfirst, length_take. lia. }
    rewrite Hpend, <- app_assoc in Hcat.
    apply app_inj_1 in Hcat; [done|lia]. }
  rewrite E. destruct header as [|h0 header]; [done|].
  destruct (Nat.ltb_spec (length (h0 :: header)) 4); [lia|].
  rewrite Hun.
  destruct (recv_frame_loop_ok s1 (length payload)) as (s' & -> & Hp' & Htx' & Hwr').
  { rewrite Hp1, length_app. lia. }
  exists s'. rewrite Hp1, take_app_length in *. rewrite drop_app_length in Hp'.
  split; [done|]. split; [done|]. split; congruence.
Qed.

(** When the transport hands over the header one byte at a time,
    [recv_frame] has two bytes of it after its two reads and
    [struct.unpack] raises. *)
Lemma recv_frame_header_bytewise (h0 h1 : byte) (segs : list bytes)
    (t : list bytes) (w : list (option exn)) :
  (recv_frame (Socket ([h0] :: [h1] :: segs) t w)).1
  = Raise (StructError "unpack requires a buffer of 4 bytes").
Proof. reflexivity. Qed.

(** The server's decoder gives the same answer however the pending bytes
    are cut into segments. *)
Lemma read_frame_any_segments (c1 c2 : socket) :
  pending c1 = pending c2 -> (read_frame c1).1 = (read_frame c2).1.
Proof.
  intros Hp.
  destruct (read_frame_decode c1) as (c1' & _ & _ & H1).
  destruct (read_frame_decode c2) as (c2' & _ & _ & H2).
  rewrite Hp in H1.
  destruct (decode (pending c2)); destruct H1 as [-> _], H2 as [-> _]; done.
Qed.

Lemma read_frame_frame (c : socket) (payload fr rest : bytes) :
  frame_of payload = Ok fr -> pending c = fr ++ rest ->
  exists c', read_frame c = (Ok (Frame payload), c') /\
    pending c' = rest /\ tx c' = tx c /\ wr c' = wr c.
Proof.
  intros Hfr Hp. destruct (read_frame_decode c) as (c' & Htx & Hwr & Hd).
  rewrite Hp, (decode_frame _ _ _ Hfr) in Hd. destruct Hd as [-> Hrest]. eauto.
Qed.

Lemma pending_bytewise (b : bytes) (t : list bytes) (w : list (option exn)) :
  pending (Socket (bytewise b) t w) = b.
Proof.
  unfold pending, bytewise. simpl. induction b as [|x b IH]; simpl; congruence.
Qed.

Lemma send_frame_ok (s : socket) (obj : json F) (b fr : bytes) :
  json_dumps obj = Ok b -> frame_of b = Ok fr -> write_ok s = true ->
  send_frame s obj = (Ok tt, Socket (rx s) (tx s ++ [fr]) (tail (wr s))).
Proof.
  unfold send_frame, frame_of, write_ok, sock_sendall. intros -> Hfr Hw.
  destruct (struct_pack_I (length b)) as [header| |]; try done.
  simpl in Hfr. injection Hfr as <-.
  by destruct (wr s) as [|[e|] w].
Qed.

(** C2.  Frame round trip.  Let [obj] be an object that [json.dumps]
    serializes to at most [2^32 - 1] bytes and that [json.loads] reads back
    from them.  Then [send_frame] (and [send_response], the same code on
    the server) writes one buffer, the frame of that text, and decoding
    that frame gives [obj] again: [recv_frame] returns [obj] whenever the
    first segment it reads holds the four header bytes (as when the frame
    arrives as it was sent), and the decoder of [handle_client] returns the
    text, which [json.loads] turns into [obj], however the frame is cut
    into segments. *)
Theorem frame_round_trip (obj : json F) (b : bytes) (s : socket) :
  json_dumps obj = Ok b ->
  (Z.of_nat (length b) <= 2 ^ 32 - 1)%Z ->
  json_loads b = Ok obj ->
  write_ok s = true ->
  exists fr,
    frame_of b = Ok fr /\
    send_frame s obj = (Ok tt, Socket (rx s) (tx s ++ [fr]) (tail (wr s))) /\
    send_response s obj = (Ok tt, Socket (rx s) (tx s ++ [fr]) (tail (wr s))) /\
    (forall seg segs t w,
       4 <= length seg -> concat (seg :: segs) = fr ->
       (recv_frame (Socket (seg :: segs) t w)).1 = Ok obj) /\
    (forall c, pending c = fr ->
       (read_frame c).1 = Ok (Frame b) /\ json_loads b = Ok obj).
Proof.
  intros Hdumps Hlen Hloads Hw.
  destruct (struct_pack_fits _ Hlen) as [header Hpack].
  exists (header ++ b).
  assert (frame_of b = Ok (header ++ b)) as Hfr by (unfold frame_of; by rewrite Hpack).
  split; [done|].
  split; [by apply (send_frame_ok s obj b)|].
  split.
  { unfold send_response, write_ok, sock_sendall in *. rewrite Hdumps, Hpack.
    by destruct (wr s) as [|[e|] w']. }
  split.
  - intros seg segs t w H4 Hcat.
    assert (pending (Socket (seg :: segs) t w) = (header ++ b) ++ []) as Hp.
    { unfold pending. cbn [rx]. by rewrite Hcat, app_nil_r. }
    destruct (recv_frame_header_at_once (Socket (seg :: segs) t w) seg segs _ _ _
                eq_refl H4 Hfr Hp) as (s' & -> & _).
    done.
  - intros c Hc. split; [|done].
    destruct (read_frame_frame c b (header ++ b) []) as (c' & -> & _); try done.
    by rewrite app_nil_r.
Qed.

(** C1 (the client fails it).  Take any frame and hand it over one byte
    at a time.  The server's decoder, which completes the header with
    [recv_exact], returns the payload, as it does for every way of cutting
    the frame into segments.  [recv_frame] returns [json.loads] of the
    payload for the frame in one segment, but byte by byte it raises
    [struct.error]: it completes the header with a single [recv], and
    unpacks two bytes. *)
Theorem one_byte_at_a_time (payload fr : bytes) (t : list bytes) (w : list (option exn)) :
  frame_of payload = Ok fr ->
  (forall c, pending c = fr -> (read_frame c).1 = Ok (Frame payload)) /\
  (read_frame (Socket (bytewise fr) t w)).1 = Ok (Frame payload) /\
  (recv_frame (Socket [fr] t w)).1 = json_loads payload /\
  (recv_frame (Socket (bytewise fr) t w)).1
    = Raise (StructError "unpack requires a buffer of 4 bytes").
Proof.
  intros Hfr.
  assert (pending (Socket [fr] t w) = fr ++ []) as Hwhole
    by (unfold pending; simpl; by rewrite !app_nil_r).
  split.
  { intros c Hc. rewrite <- (app_nil_r fr) in Hc.
    destruct (read_frame_frame _ _ _ [] Hfr Hc) as (c' & -> & _). done. }
  split.
  { rewrite (read_frame_any_segments _ (Socket [fr] t w)).
    - destruct (read_frame_frame _ _ _ [] Hfr Hwhole) as (c' & -> & _). done.
    - by rewrite pending_bytewise, Hwhole, app_nil_r. }
  destruct (frame_of_length _ _ Hfr) as (header & -> & H4 & _).
  split.
  - assert (4 <= length (header ++ payload)) as Hlen by (rewrite length_app; lia).
    destruct (recv_frame_header_at_once (Socket [header ++ payload] t w) _ [] _ _ _
                eq_refl Hlen Hfr Hwhole) as (s' & -> & _).
    done.
  - destruct header as [|h0 [|h1 header]]; try (simpl in H4; lia).
    apply recv_frame_header_bytewise.
Qed.

End FramingFacts.

(** ** Reconnect backoff *)







(** ** The send loop of the client *)

Section ProducerFacts.
Context {F : Type} `{JsonCodec F}.

Lemma first_attempt_events (a : args) (s : socket) (doc : json F) :
  (first_attempt a s doc).2 = [EvSend doc] \/
  (first_attempt a s doc).2 = [EvSend doc; EvRecv].
Proof. unfold first_attempt. repeat case_match; simpl; auto. Qed.

Lemma second_attempt_events (a : args) (s : socket) (doc : json F) :
  (second_attempt a s doc).2 = [EvSend doc] \/
  (second_attempt a s doc).2 = [EvSend doc; EvRecv].
Proof. unfold second_attempt. repeat case_match; simpl; auto. Qed.

Lemma filter_is_send_sleeps (slept : list Q) :
  List.filter is_send (map (@EvSleep F) slept) = [].
Proof. induction slept as [|d slept IH]; [done|]. done. Qed.

Lemma sends_of_one_attempt (doc : json F) (evs : list (event F)) :
  evs = [EvSend doc] \/ evs = [EvSend doc; EvRecv] ->
  List.filter is_send evs = [EvSend doc].
Proof. by intros [-> | ->]. Qed.

Lemma sends_of_two_attempts (doc : json F) (evs evs2 : list (event F)) (slept : list Q) :
  evs = [EvSend doc] \/ evs = [EvSend doc; EvRecv] ->
  evs2 = [EvSend doc] \/ evs2 = [EvSend doc; EvRecv] ->
  List.filter is_send ((evs ++ [EvClose] ++ map EvSleep slept ++ [EvConnected]) ++ evs2)
  = [EvSend doc; EvSend doc].
Proof.
  intros H1 H2. rewrite !List.filter_app, filter_is_send_sleeps.
  rewrite (sends_of_one_attempt doc evs H1), (sends_of_one_attempt doc evs2 H2).
  done.
Qed.

(** An exception of the first attempt that is neither a [ConnectionError]
    nor another [OSError] is not caught: it leaves the loop, and nothing is
    closed or resent. *)
Lemma send_doc_uncaught (a : args) (st : client F) (doc : json F)
    (e : exn) (s1 : socket) (evs : list (event F)) :
  first_attempt a (sock st) doc = (Raise e, s1, evs) ->
  is_ConnectionError_or_OSError e = false ->
  send_doc a st doc
    = (Raise e, Client s1 (net st) (sent_total st) (log st ++ evs)) /\
  forall rest,
    send_batch a st (doc :: rest)
    = (Raise e, Client s1 (net st) (sent_total st) (log st ++ evs)).
Proof.
  intros Hfirst He.
  assert (send_doc a st doc
          = (Raise e, Client s1 (net st) (sent_total st) (log st ++ evs))) as Hsend.
  { unfold send_doc. by rewrite Hfirst, He. }
  split; [done|]. intros rest. cbn [send_batch]. by rewrite Hsend.
Qed.

(** C7, as the code has it.  At most two attempts.  Whatever happens, one
    turn of the send loop calls [send_frame] on the document once or twice,
    never a third time.  When the first attempt (the send, or the wait for
    the ack) fails with a [ConnectionError] or another [OSError], which is
    what the loop catches, and the reconnect gets a socket, the client has
    closed the old socket, slept the backoff delays, and made exactly one
    further attempt on the new socket, starting with the send of the same
    document; whether that attempt succeeds or raises, the turn ends
    normally and the loop goes on with the next document.  An exception of
    the first attempt that is not an [OSError] is not caught: it leaves the
    loop. *)
Theorem resend_once_then_abandon (a : args) (st : client F) (doc : json F) :
  (exists new,
     log (send_doc a st doc).2 = log st ++ new /\
     (List.filter is_send new = [EvSend doc] \/
      List.filter is_send new = [EvSend doc; EvSend doc])) /\
  (forall e s1 evs s2 net' slept r2 s3 evs2,
     first_attempt a (sock st) doc = (Raise e, s1, evs) ->
     is_ConnectionError_or_OSError e = true ->
     main_connect a (net st) = (Ok s2, net', slept) ->
     second_attempt a s2 doc = (r2, s3, evs2) ->
     r2 <> NoFuel ->
     let new := (evs ++ [EvClose] ++ map EvSleep slept ++ [EvConnected]) ++ evs2 in
     let st' :=
       Client s3 net'
              (if r2 is Ok _ then S (sent_total st) else sent_total st)
              (log st ++ new) in
     send_doc a st doc = (Ok tt, st') /\
     (evs2 = [EvSend doc] \/ evs2 = [EvSend doc; EvRecv]) /\
     List.filter is_send new = [EvSend doc; EvSend doc] /\
     forall rest, send_batch a st (doc :: rest) = send_batch a st' rest) /\
  (forall e s1 evs,
     first_attempt a (sock st) doc = (Raise e, s1, evs) ->
     is_ConnectionError_or_OSError e = false ->
     send_doc a st doc
     = (Raise e, Client s1 (net st) (sent_total st) (log st ++ evs))).
Proof.
  split; [|split; [|intros e s1 evs Hfirst He;
                     by destruct (send_doc_uncaught a st doc e s1 evs Hfirst He)]].
  - pose proof (first_attempt_events a (sock st) doc) as H1.
    unfold send_doc.
    destruct (first_attempt a (sock st) doc) as [[[u|e|] s1] evs]; simpl in H1.
    + exists evs. split; [done|]. left. by apply sends_of_one_attempt.
    + destruct (is_ConnectionError_or_OSError e).
      * destruct (main_connect a (net st)) as [[[s2|e'|] net'] slept].
        -- pose proof (second_attempt_events a s2 doc) as H2.
           destruct (second_attempt a s2 doc) as [[[u|e2|] s3] evs2]; simpl in H2;
             (eexists; split; [reflexivity|]; right; by apply sends_of_two_attempts).
        -- exists (evs ++ [EvClose] ++ map EvSleep slept). split; [done|]. left.
           rewrite !List.filter_app, filter_is_send_sleeps.
           by rewrite (sends_of_one_attempt doc evs H1).
        -- exists (evs ++ [EvClose] ++ map EvSleep slept). split; [done|]. left.
           rewrite !List.filter_app, filter_is_send_sleeps.
           by rewrite (sends_of_one_attempt doc evs H1).
      * exists evs. split; [done|]. left. by apply sends_of_one_attempt.
    + exists evs. split; [done|]. left. by apply sends_of_one_attempt.
  - intros e s1 evs s2 net' slept r2 s3 evs2 Hfirst He Hconn Hsecond Hr2 new st'.
    pose proof (first_attempt_events a (sock st) doc) as H1.
    pose proof (second_attempt_events a s2 doc) as H2.
    rewrite Hfirst in H1. rewrite Hsecond in H2. simpl in H1, H2.
    assert (send_doc a st doc = (Ok tt, st')) as Hsend.
    { unfold send_doc. rewrite Hfirst, He, Hconn, Hsecond.
      subst st' new. by destruct r2 as [[]| |]. }
    split; [done|]. split; [done|].
    split; [by apply sends_of_two_attempts|].
    intros rest. cbn [send_batch]. by rewrite Hsend.
Qed.

End ProducerFacts.

(** ** Broadcast *)

Lemma offer_spec (data_str : string) (h : gmap nat queue) (q : nat) :
  exists h', offer data_str h q = Ok h' /\
    forall q', h' !! q' =
      if decide (q' = q) then delivered data_str <$> h !! q else h !! q'.
Proof.
  unfold offer, delivered, put_nowait. destruct (h !! q) as [obj|] eqn:E; simpl.
  - destruct (queue_full obj) eqn:Efull; simpl.
    + exists h. split; [done|]. intros q'. case_decide; subst; by rewrite ?E.
    + eexists. split; [done|]. intros q'. case_decide; subst.
      * by rewrite lookup_insert_eq.
      * by rewrite lookup_insert_ne.
  - exists h. split; [done|]. intros q'. case_decide; subst; by rewrite ?E.
Qed.

Lemma offer_all_spec (data_str : string) (l : list nat) (h : gmap nat queue) :
  NoDup l ->
  exists h',
    foldl (fun (acc : res (gmap nat queue)) q => h ← acc; offer data_str h q)
          (Ok h) l = Ok h' /\
    forall q, h' !! q =
      if decide (q ∈ l) then delivered data_str <$> h !! q else h !! q.
Proof.
  revert h. induction l as [|x l IH]; intros h Hnd.
  - exists h. split; [done|]. intros q. case_decide as Hq; [|done].
    by apply elem_of_nil in Hq.
  - apply NoDup_cons in Hnd as [Hx Hnd].
    destruct (offer_spec data_str h x) as (h1 & E1 & H1).
    destruct (IH h1 Hnd) as (h' & E' & H').
    exists h'. split.
    { cbn [foldl]. change (Ok h ≫= (fun h0 => offer data_str h0 x)) with (offer data_str h x).
      by rewrite E1. }
    intros q. rewrite H', !H1.
    destruct (decide (q = x)) as [->|Hne].
    + rewrite decide_False by done.
      rewrite decide_True by apply list_elem_of_here. done.
    + destruct (decide (q ∈ l)) as [Hin|Hout].
      * rewrite decide_True by (by apply list_elem_of_further). done.
      * rewrite decide_False by (by apply not_elem_of_cons). done.
Qed.

(** C8.  Broadcast fan-out with drop-on-full.  [broadcast_to_clients]
    always returns, without an exception.  Afterwards every registered
    channel that was not full holds the message behind what it held, every
    registered channel that was full holds what it held, and nothing else
    has changed: no channel was added or removed. *)
Theorem broadcast_fan_out (data_str : string) (reg : registry) :
  exists h',
    broadcast_to_clients data_str reg = Ok (Registry h' (clients reg)) /\
    (forall q obj,
       q ∈ clients reg -> heap reg !! q = Some obj -> queue_full obj = false ->
       h' !! q = Some (Queue (maxsize obj) (items obj ++ [data_str]))) /\
    (forall q obj,
       q ∈ clients reg -> heap reg !! q = Some obj -> queue_full obj = true ->
       h' !! q = Some obj) /\
    (forall q, q ∉ clients reg -> h' !! q = heap reg !! q) /\
    dom h' = dom (heap reg).
Proof.
  destruct (offer_all_spec data_str (elements (clients reg)) (heap reg))
    as (h' & E & Hh'); [apply NoDup_elements|].
  exists h'. unfold broadcast_to_clients. rewrite E. split; [done|].
  split; [|split; [|split]].
  - intros q obj Hq Hobj Hfull.
    rewrite Hh', decide_True by (by apply elem_of_elements).
    rewrite Hobj. simpl. unfold delivered. by rewrite Hfull.
  - intros q obj Hq Hobj Hfull.
    rewrite Hh', decide_True by (by apply elem_of_elements).
    rewrite Hobj. simpl. unfold delivered. by rewrite Hfull.
  - intros q Hq. rewrite Hh', decide_False by (by rewrite elem_of_elements). done.
  - apply set_eq. intros q. rewrite !elem_of_dom, Hh'.
    case_decide; [|done]. destruct (heap reg !! q); simpl; split; intros [? ?]; eauto; done.
Qed.

(** A subscriber that has just connected is registered, with an empty
    channel of 200 places, and no other channel has changed. *)
Lemma sse_register_spec (reg : registry) :
  let '(q, reg') := sse_register reg in
  q ∈ clients reg' /\ heap reg' !! q = Some (Queue 200 []) /\
  heap reg !! q = None /\
  forall q', q' <> q -> heap reg' !! q' = heap reg !! q'.
Proof.
  unfold sse_register. simpl.
  pose proof (is_fresh (dom (heap reg))) as Hfresh.
  split; [set_solver|]. split; [by rewrite lookup_insert_eq|].
  split; [by apply not_elem_of_dom|].
  intros q' Hq'. by rewrite lookup_insert_ne.
Qed.

(** ** The two enrichment functions *)

Section EnrichmentFacts.
Context {F : Type} `{PyArith F}.

(** On anything but a string [to_number] is the [isinstance] test. *)
Lemma to_number_not_str (v : json F) :
  (forall s, v <> JStr s) -> to_number v = Ok (as_int_or_float v).
Proof. intros Hv. destruct v; try done. by destruct (Hv s). Qed.

(** C9, as the code has it.  The two [process_document] functions return
    the same summary for every document in which no string stored under a
    ["gen_"] key is one that [to_number] converts: blank strings and strings
    that neither [int] nor [float] reads.  (A numeric string under such a
    key is counted by the poll-based consumer only.) *)
Theorem process_document_agree (doc : document F) :
  (forall k s, In (k, JStr s) doc -> is_gen_key k = true ->
     to_number (JStr s) = Ok None) ->
  process_document_poll doc = process_document doc.
Proof.
  intros Hstr. unfold process_document_poll, process_document.
  assert (numeric_values doc
          = Ok (omap (fun '(k, v) => if is_gen_key k then as_int_or_float v else None) doc))
    as ->; [|done].
  induction doc as [|[k v] doc IH]; [done|].
  cbn [numeric_values omap list_omap].
  rewrite IH by (intros k' s Hin; apply Hstr; by right).
  destruct (is_gen_key k) eqn:Ek; [|done].
  assert (to_number v = Ok (as_int_or_float v)) as ->.
  { destruct v; try done. rewrite (Hstr k s); [done|by left|done]. }
  simpl. by destruct (as_int_or_float v).
Qed.

End EnrichmentFacts.
(** * Further properties of the sources *)

(** ** [recv_exact] *)

(** X2.  [recv_exact(sock, n)] returns the first [n] bytes the peer has sent
    and leaves the rest to be read, however the transport cuts the bytes
    into segments; when the peer closes before [n] bytes have come it raises
    [ConnectionError], having taken what there was.  It writes nothing. *)
Theorem recv_exact_contract (s : socket) (n : nat) :
  exists s',
    recv_exact s n
    = (if n <=? length (pending s) then Ok (take n (pending s))
       else Raise (ConnectionError "Socket closed while reading"), s') /\
    pending s' = drop n (pending s) /\
    tx s' = tx s /\ wr s' = wr s.
Proof.
  destruct (Nat.leb_spec n (length (pending s))) as [Hn|Hn].
  - destruct (recv_exact_ok s n Hn) as (s' & E & Hp & Htx & Hwr). by exists s'.
  - destruct (recv_exact_short s n Hn) as (s' & E & Hrx & Htx & Hwr).
    exists s'. split; [done|]. split; [|done].
    unfold pending at 1. rewrite Hrx. simpl. by rewrite drop_ge by lia.
Qed.

(** ** The client's decoder at the end of the stream *)

Section MoreFraming.
Context {F : Type} `{JsonCodec F}.

Lemma struct_unpack_not_four (h : bytes) :
  length h <> 4 ->
  struct_unpack_I h = Raise (StructError "unpack requires a buffer of 4 bytes").
Proof. destruct h as [|b3 [|b2 [|b1 [|b0 [|]]]]]; simpl; try done; intros; lia. Qed.

(** X3.  When the server closes before a whole ack header has come,
    [recv_frame] raises [ConnectionError] only if no byte has come at all.
    After one, two or three bytes it raises [struct.error], whatever the
    segments: the header is short when it is unpacked. *)
Theorem recv_frame_short_header (s : socket) :
  length (pending s) < 4 ->
  (recv_frame s).1
  = match pending s with
    | [] => Raise (ConnectionError "connection closed by server")
    | _ :: _ => Raise (StructError "unpack requires a buffer of 4 bytes")
    end.
Proof.
  intros Hlen. unfold recv_frame.
  destruct (sock_recv_spec s 4)
    as (hd & s1 & -> & Hcat & Hhd & _ & _ & Heof & Hdata).
  destruct (pending s) as [|x p] eqn:Ep.
  { destruct Heof as [-> _]; done. }
  destruct hd as [|h0 hd]; [exfalso; apply Hdata; [lia|done|done]|].
  assert (length (h0 :: hd) + length (pending s1) = length (x :: p)) as Hsum
    by (rewrite <- Hcat, length_app; done).
  destruct (Nat.ltb_spec (length (h0 :: hd)) 4) as [_|Hge]; [|lia].
  destruct (sock_recv_spec s1 (4 - length (h0 :: hd)))
    as (more & s2 & -> & Hcat2 & _).
  rewrite struct_unpack_not_four; [done|].
  assert (length more <= length (pending s1))
    by (rewrite <- Hcat2, length_app; lia).
  rewrite length_app. lia.
Qed.

End MoreFraming.

(** ** [connect_with_backoff] *)


(** ** The send loop on a connection that works *)

Section MoreProducer.
Context {F : Type} `{JsonCodec F}.

Lemma recv_frame_loop_done (fuel : nat) (s : socket) (n : nat) (data : bytes) :
  n <= length data -> recv_frame_loop fuel s n data = (Ok data, s).
Proof.
  intros Hn. destruct fuel; simpl; by destruct (Nat.ltb_spec (length data) n); try lia.
Qed.

(** A frame that arrives in a segment of its own is read whole, and the
    segments behind it are left as they are. *)
Lemma recv_frame_one_segment (payload fr : bytes) (segs t : list bytes)
    (w : list (option exn)) :
  frame_of payload = Ok fr ->
  recv_frame (Socket (fr :: segs) t w) = (json_loads payload, Socket segs t w).
Proof.
  intros (header & -> & H4 & Hun)%frame_of_length.
  destruct header as [|h0 [|h1 [|h2 [|h3 [|]]]]]; try done.
  unfold recv_frame, sock_recv. destruct payload as [|p payload].
  - cbn [app recv_segments length Nat.leb take drop rx tx wr Nat.ltb].
    cbn [app] in Hun. rewrite Hun. done.
  - cbn [app recv_segments length Nat.leb take drop rx tx wr Nat.ltb].
    cbn [app] in Hun. rewrite Hun.
    cbn [recv_frame_loop length Nat.ltb Nat.leb Nat.sub sock_recv rx tx wr
         recv_segments app].
    unfold sock_recv. cbn [recv_segments rx tx wr length Nat.leb].
    rewrite Nat.leb_refl.
    rewrite recv_frame_loop_done by (simpl; lia). done.
Qed.

Lemma send_doc_without_ack (a : args) (st : client F) (doc : json F) (fr : bytes) :
  ack a = false -> wr (sock st) = [] -> framed doc fr ->
  send_doc a st doc
  = (Ok tt, Client (Socket (rx (sock st)) (tx (sock st) ++ [fr]) [])
                   (net st) (S (sent_total st)) (log st ++ [EvSend doc])).
Proof.
  intros Ha Hw (b & Hb & Hfr). unfold send_doc, first_attempt.
  rewrite (send_frame_ok _ _ _ _ Hb Hfr) by (unfold write_ok; by rewrite Hw).
  by rewrite Ha, Hw.
Qed.

(** Without [--ack], on a connection that accepts every write, the send
    loop writes one frame per document of the batch, in order, each in one
    [sendall], and counts every document; it reads nothing and never
    reconnects. *)
Lemma send_batch_without_ack (a : args) (st : client F)
    (docs : list (json F)) (frames : list bytes) :
  ack a = false -> wr (sock st) = [] ->
  Forall2 framed docs frames ->
  send_batch a st docs
  = (Ok tt, Client (Socket (rx (sock st)) (tx (sock st) ++ frames) [])
                   (net st) (sent_total st + length docs)
                   (log st ++ map EvSend docs)).
Proof.
  intros Ha Hw Hfr. revert st Hw.
  induction Hfr as [|doc fr docs frames Hdoc _ IH]; intros st Hw.
  - simpl. rewrite !app_nil_r, Nat.add_0_r. destruct st as [[] ? ? ?]. simpl in *. by subst.
  - cbn [send_batch]. rewrite (send_doc_without_ack a st doc fr Ha Hw Hdoc).
    rewrite IH by done. simpl. rewrite <- !app_assoc. simpl.
    do 3 f_equal. lia.
Qed.

(** X5.  With [--ack], when each answer of the server is a frame that
    carries a JSON object and arrives in a segment of its own, every
    document of the batch is sent once and counted as sent, whatever the
    answer says: an ack with [status] ["error"] is only printed.  Nothing is
    sent twice. *)
Theorem send_batch_counts_every_answer (a : args) (st : client F)
    (docs : list (json F)) (frames answers rest : list bytes) :
  ack a = true -> wr (sock st) = [] ->
  Forall2 framed docs frames ->
  Forall object_frame answers -> length answers = length docs ->
  rx (sock st) = answers ++ rest ->
  send_batch a st docs
  = (Ok tt, Client (Socket rest (tx (sock st) ++ frames) [])
                   (net st) (sent_total st + length docs)
                   (log st ++ concat (map (fun d => [EvSend d; EvRecv]) docs))).
Proof.
  intros Ha Hw Hfr. revert st answers Hw.
  induction Hfr as [|doc fr docs frames Hdoc _ IH]; intros st answers Hw Hans Hlen Hrx.
  - destruct answers; [|done]. simpl in *.
    rewrite !app_nil_r, Nat.add_0_r. destruct st as [[] ? ? ?]. simpl in *. by subst.
  - destruct answers as [|ans answers]; [done|].
    apply Forall_cons in Hans as [(payload & d & Hpay & Hload) Hans].
    destruct Hdoc as (b & Hb & Hfrb). cbn [send_batch].
    assert (send_doc a st doc
            = (Ok tt, Client (Socket (answers ++ rest) (tx (sock st) ++ [fr]) [])
                             (net st) (S (sent_total st))
                             (log st ++ [EvSend doc; EvRecv]))) as ->.
    { unfold send_doc, first_attempt.
      rewrite (send_frame_ok _ _ _ _ Hb Hfrb) by (unfold write_ok; by rewrite Hw).
      rewrite Ha, Hrx, Hw. simpl.
      rewrite (recv_frame_one_segment payload ans _ _ _ Hpay), Hload. done. }
    rewrite (IH _ answers); try done; [|simpl in Hlen; lia].
    simpl. rewrite <- !app_assoc. simpl. do 3 f_equal. lia.
Qed.

End MoreProducer.

(** ** Enrichment *)

Section MoreEnrichment.
Context {F : Type} `{PyArith F}.

(** X6.  Both [process_document] functions look at the entries under
    ["gen_"] keys only: setting any other key of a document, as the handler
    does with ["_receivedAt"] and the store with ["_id"], changes nothing in
    the summary. *)
Theorem process_document_ignores_other_keys
    (k : string) (v : json F) (doc : document F) :
  is_gen_key k = false ->
  process_document (dict_set k v doc) = process_document doc /\
  process_document_poll (dict_set k v doc) = process_document_poll doc.
Proof.
  intros Hk. unfold process_document, process_document_poll. split.
  - f_equal. induction doc as [|[k' v'] doc IH];
      cbn [dict_set omap list_omap]; [by rewrite Hk|].
    destruct (String.eqb_spec k' k) as [->|Hne]; cbn [omap list_omap].
    + by rewrite Hk.
    + fold (@omap list _ _ _ (fun '(k, v) => if is_gen_key k then @as_int_or_float F v else None)) in *.
      by rewrite IH.
  - assert (numeric_values (dict_set k v doc) = numeric_values doc) as ->; [|done].
    induction doc as [|[k' v'] doc IH]; simpl; [by rewrite Hk|].
    destruct (String.eqb_spec k' k) as [->|Hne]; cbn [numeric_values].
    + by rewrite Hk.
    + by rewrite IH.
Qed.

(** X7.  [to_number] catches whatever [int] and [float] raise: the
    conversion of a value never raises, and neither does the loop that
    collects the numbers of a document.  An exception of the poll-based
    [process_document] can only come from the sum or the division. *)
Theorem to_number_never_raises (e : exn) :
  (forall v : json F, to_number v <> Raise e) /\
  (forall doc : document F, numeric_values doc <> Raise e) /\
  (forall doc : document F,
     process_document_poll doc = Raise e ->
     exists nums, numeric_values doc = Ok nums /\ summarize nums = Raise e).
Proof.
  assert (forall v : json F, to_number v <> Raise e) as Hv.
  { intros v. unfold to_number. destruct v; simpl; try done.
    destruct (strip_is_empty s); [done|].
    destruct (has_dot s).
    - by destruct (py_float s).
    - destruct (py_int s); simpl; try done. by destruct (py_float s). }
  assert (forall doc : document F, numeric_values doc <> Raise e) as Hdoc.
  { induction doc as [|[k v] doc IH]; simpl; [done|].
    destruct (is_gen_key k); [|done].
    specialize (Hv v). destruct (to_number v) as [num| |]; simpl; try done.
    - destruct (numeric_values doc); simpl; done.
    - intros [= ->]. by apply Hv. }
  split; [done|]. split; [done|].
  intros doc. unfold process_document_poll. specialize (Hdoc doc).
  destruct (numeric_values doc) as [nums| |]; simpl; try done.
  - eauto.
  - intros [= ->]. by destruct Hdoc.
Qed.

Lemma summarize_count (nums : list (number F)) (s : summary F) :
  summarize nums = Ok s -> numeric_count s = length nums.
Proof.
  unfold summarize. destruct nums as [|n nums]; [by intros [= <-]|].
  destruct (py_sum (n :: nums)) as [t| |]; simpl; try done.
  destruct (py_truediv t (S (length nums))); simpl; try done. by intros [= <-].
Qed.

(** X8.  Whatever the server's [process_document] counts, the poll-based one
    counts too: the numbers the first collects are among the numbers the
    second collects, in the same order. *)
Theorem poll_counts_what_the_server_counts
    (doc : document F) (s1 s2 : summary F) :
  process_document doc = Ok s1 ->
  process_document_poll doc = Ok s2 ->
  numeric_count s1 <= numeric_count s2.
Proof.
  unfold process_document, process_document_poll. intros H1 H2.
  destruct (numeric_values doc) as [nums| |] eqn:E; simpl in H2; try done.
  rewrite (summarize_count _ _ H1), (summarize_count _ _ H2).
  apply sublist_length. clear H1 H2. revert nums E.
  induction doc as [|[k v] doc IH]; intros nums E; simpl in *.
  - injection E as <-. constructor.
  - destruct (is_gen_key k); [|by apply IH].
    destruct (to_number v) as [num| |] eqn:Ev; simpl in E; try done.
    destruct (numeric_values doc) as [rest| |]; simpl in E; try done.
    injection E as <-. specialize (IH rest eq_refl).
    destruct v; simpl in *; try (injection Ev as <-); try done;
      try (by constructor).
    destruct num; by try constructor.
Qed.

End MoreEnrichment.

(** ** Change notifications, from the watcher to the event stream *)

(** What one broadcast does to every channel. *)
Lemma broadcast_to_clients_spec (data_str : string) (reg : registry) :
  exists h',
    broadcast_to_clients data_str reg = Ok (Registry h' (clients reg)) /\
    forall q, h' !! q =
      if decide (q ∈ clients reg) then delivered data_str <$> heap reg !! q
      else heap reg !! q.
Proof.
  destruct (offer_all_spec data_str (elements (clients reg)) (heap reg))
    as (h' & E & Hh'); [apply NoDup_elements|].
  exists h'. unfold broadcast_to_clients. rewrite E. split; [done|].
  intros q. rewrite Hh'. destruct (decide (q ∈ clients reg)) as [Hq|Hq].
  - by rewrite decide_True by (by apply elem_of_elements).
  - by rewrite decide_False by (by rewrite elem_of_elements).
Qed.

(** A registered channel of 200 places after a run of broadcasts: what it
    held and then the messages, as far as there was room. *)
Lemma broadcasts_channel (msgs : list string) (reg : registry) :
  exists reg',
    broadcasts msgs reg = Ok reg' /\
    clients reg' = clients reg /\
    dom (heap reg') = dom (heap reg) /\
    (forall q, q ∉ clients reg -> heap reg' !! q = heap reg !! q) /\
    (forall q l, q ∈ clients reg -> heap reg !! q = Some (Queue 200 l) ->
       length l <= 200 ->
       heap reg' !! q = Some (Queue 200 (take 200 (l ++ msgs)))).
Proof.
  revert reg. induction msgs as [|m msgs IH]; intros reg.
  - exists reg. simpl. repeat split; try done.
    intros q l _ Hq Hl. by rewrite app_nil_r, take_ge.
  - destruct (broadcast_to_clients_spec m reg) as (h1 & E & Hh1).
    destruct (IH (Registry h1 (clients reg))) as (reg' & E' & Hcl & Hdom' & Hout' & Hin').
    exists reg'. cbn [broadcasts]. rewrite E. simpl. rewrite E'. simpl in *.
    split; [done|]. split; [done|]. split.
    { rewrite Hdom'. apply set_eq. intros q. rewrite !elem_of_dom, Hh1.
      case_decide; [|done]. destruct (heap reg !! q); simpl; split; intros [? ?]; eauto; done. }
    split.
    + intros q Hq. rewrite Hout' by done. by rewrite Hh1, decide_False.
    + intros q l Hq Hl Hlen.
      assert (h1 !! q = Some (delivered m (Queue 200 l))) as Hd
        by (by rewrite Hh1, decide_True, Hl).
      unfold delivered, queue_full in Hd. simpl in Hd.
      destruct (decide (length l = 200)) as [H200|Hlt].
      * rewrite H200 in Hd. simpl in Hd.
        rewrite (Hin' q l Hq Hd Hlen). rewrite !take_app_le by lia. done.
      * destruct (Z.leb_spec 200 (Z.of_nat (length l))) as [?|_]; [lia|].
        rewrite (Hin' q (l ++ [m]) Hq Hd).
        -- by rewrite <- app_assoc.
        -- rewrite length_app. simpl. lia.
Qed.

Lemma gen_pulls_data (q : nat) (l : list string) (reg : registry) :
  heap reg !! q = Some (Queue 200 l) ->
  exists reg',
    gen_pulls (S (length l)) q Suspended reg
    = (map (fun d => Yielded (sse_data d)) l ++ [Waiting], Suspended, reg') /\
    heap reg' !! q = Some (Queue 200 []) /\
    clients reg' = clients reg /\
    forall q', q' <> q -> heap reg' !! q' = heap reg !! q'.
Proof.
  revert reg. induction l as [|d l IH]; intros reg Hq.
  - exists reg. simpl. by rewrite Hq.
  - destruct (IH (Registry (<[q := Queue 200 l]> (heap reg)) (clients reg)))
      as (reg' & E & Hq' & Hcl & Hother).
    { simpl. by rewrite lookup_insert_eq. }
    exists reg'. cbn [gen_pulls length]. cbn [gen_next]. rewrite Hq.
    cbn [gen_pulls length] in E. rewrite E. simpl.
    split; [done|]. split; [done|]. split; [done|].
    intros q' Hne. rewrite Hother by done. simpl. by rewrite lookup_insert_ne.
Qed.

(** X9.  From registration to the wire.  A subscriber registers, and
    messages are broadcast before it reads.  Its stream then starts with the
    [": connected"] comment and goes on with one [data:] event per message,
    in the order of the broadcasts; of more than 200 messages only the first
    200 are delivered, the rest was dropped for this subscriber.  After the
    last event the stream waits. *)
Theorem sse_stream_in_order (msgs : list string) (reg : registry) :
  exists reg1,
    broadcasts msgs (sse_register reg).2 = Ok reg1 /\
    heap reg1 !! (sse_register reg).1 = Some (Queue 200 (take 200 msgs)) /\
    (gen_pulls (2 + length (take 200 msgs)) (sse_register reg).1 Created reg1).1.1
    = Yielded sse_connected
        :: map (fun d => Yielded (sse_data d)) (take 200 msgs) ++ [Waiting].
Proof.
  pose proof (sse_register_spec reg) as Hreg.
  destruct (sse_register reg) as [q reg0]. destruct Hreg as (Hin & Hq & _ & _).
  destruct (broadcasts_channel msgs reg0) as (reg1 & E & _ & _ & _ & Hch).
  exists reg1. cbn [fst snd]. split; [done|].
  pose proof (Hch q [] Hin Hq ltac:(simpl; lia)) as Hq1. simpl in Hq1.
  split; [done|].
  destruct (gen_pulls_data q _ reg1 Hq1) as (reg2 & E2 & _).
  change (2 + length (take 200 msgs)) with (S (S (length (take 200 msgs)))).
  remember (S (length (take 200 msgs))) as n.
  cbn [gen_pulls gen_next]. by rewrite E2.
Qed.

(** X10.  Closing the stream.  When the generator of a subscriber is closed
    at a [yield], its queue leaves the registry: later broadcasts do not
    touch it, and every other channel receives them as before.  A generator
    that is closed before its first [next] has not run at all, and its queue
    stays registered. *)
Theorem closed_stream_gets_nothing (q : nat) (msgs : list string) (reg : registry) :
  (gen_close q Suspended reg).1 = Finished /\
  (q ∉ clients ((gen_close q Suspended reg).2)) /\
  (exists reg',
     broadcasts msgs (gen_close q Suspended reg).2 = Ok reg' /\
     heap reg' !! q = heap reg !! q /\
     forall q' l, q' ∈ clients reg -> q' <> q ->
       heap reg !! q' = Some (Queue 200 l) -> length l <= 200 ->
       heap reg' !! q' = Some (Queue 200 (take 200 (l ++ msgs)))) /\
  gen_close q Created reg = (Finished, reg).
Proof.
  simpl. split; [done|].
  assert (q ∉ clients reg ∖ {[q]}) as Hq
    by (rewrite elem_of_difference, elem_of_singleton; tauto).
  split; [done|]. split; [|done].
  destruct (broadcasts_channel msgs (sse_unregister q reg))
    as (reg' & E & _ & _ & Hout & Hin).
  exists reg'. split; [done|]. split.
  - by rewrite Hout.
  - intros q' l Hq' Hne Hl Hlen. apply Hin; [|done|done]. simpl.
    rewrite elem_of_difference, elem_of_singleton. tauto.
Qed.

Section Watcher.
Context {F : Type} `{JsonCodec F}.

(** X11.  [mongo_watcher] broadcasts the text of every change, in order, as
    long as [json.dumps] gives one.  The first change it cannot serialize
    ends it: that change and all later ones reach no subscriber, and the
    watcher is not started again. *)
Theorem mongo_watcher_forwards
    (changes : list (json F)) (texts : list bytes) (reg : registry) :
  Forall2 (fun c t => json_dumps c = Ok t) changes texts ->
  exists reg',
    broadcasts (map string_of_list_byte texts) reg = Ok reg' /\
    mongo_watcher changes reg = Some (Watching, reg') /\
    forall bad e later,
      json_dumps bad = Raise e ->
      mongo_watcher (changes ++ bad :: later) reg = Some (Ended e, reg').
Proof.
  intros Hd. revert reg. induction Hd as [|c t changes texts Hc _ IH]; intros reg.
  - exists reg. simpl. split; [done|]. split; [done|].
    intros bad e later ->. done.
  - destruct (broadcast_to_clients_spec (string_of_list_byte t) reg) as (h1 & E & _).
    destruct (IH (Registry h1 (clients reg))) as (reg' & Eb & Ew & Hbad).
    exists reg'. cbn [map broadcasts mongo_watcher app]. rewrite Hc, E. simpl.
    split; [done|]. split; [done|]. done.
Qed.

End Watcher.

(** ** Dictionaries *)

Lemma dict_get_set_eq {F : Type} (k : string) (v : json F) (d : document F) :
  dict_get k (dict_set k v d) = Some v.
Proof.
  induction d as [|[k' v'] d IH]; simpl.
  - by rewrite String.eqb_refl.
  - destruct (String.eqb_spec k' k) as [->|Hne]; simpl.
    + by rewrite String.eqb_refl.
    + by destruct (String.eqb_spec k' k).
Qed.

Lemma dict_get_set_ne {F : Type} (k k' : string) (v : json F) (d : document F) :
  k <> k' -> dict_get k' (dict_set k v d) = dict_get k' d.
Proof.
  intros Hne. induction d as [|[k0 v0] d IH]; simpl.
  - by destruct (String.eqb_spec k k').
  - destruct (String.eqb_spec k0 k) as [->|Hne0]; simpl.
    + by destruct (String.eqb_spec k k').
    + by rewrite IH.
Qed.

Lemma dict_set_keys {F : Type} (k : string) (v : json F) (d : document F) :
  map fst (dict_set k v d)
  = if decide (k ∈ map fst d) then map fst d else map fst d ++ [k].
Proof.
  induction d as [|[k' v'] d IH]; cbn [dict_set map fst].
  - case_decide as Hin; [by apply elem_of_nil in Hin|done].
  - destruct (String.eqb_spec k' k) as [->|Hne]; cbn [map fst].
    + destruct (decide (k ∈ k :: map fst d)) as [Hin|Hin]; [done|].
      destruct Hin. apply list_elem_of_here.
    + rewrite IH. destruct (decide (k ∈ map fst d)) as [Hin|Hout].
      * rewrite decide_True; [done|]. by apply list_elem_of_further.
      * rewrite decide_False; [done|]. apply not_elem_of_cons. split; [congruence|done].
Qed.

Lemma dict_set_length {F : Type} (k : string) (v : json F) (d : document F) :
  dict_get k d = None -> length (dict_set k v d) = S (length d).
Proof.
  induction d as [|[k' v'] d IH]; simpl; [done|].
  destruct (String.eqb_spec k' k) as [->|Hne]; [done|].
  intros Hd. simpl. by rewrite IH.
Qed.

Lemma dict_update_keys {F : Type} (d fields : document F) :
  NoDup (map fst d ++ map fst fields) ->
  map fst (dict_update d fields) = map fst d ++ map fst fields.
Proof.
  unfold dict_update. revert d.
  induction fields as [|[k v] fields IH]; intros d Hnd; simpl.
  - by rewrite app_nil_r.
  - assert (k ∉ map fst d) as Hk.
    { apply NoDup_app in Hnd as (_ & Hdis & _). intros Hin.
      apply (Hdis _ Hin). apply list_elem_of_here. }
    assert (map fst (dict_set k v d) = map fst d ++ [k]) as Hkeys
      by (by rewrite dict_set_keys, decide_False).
    rewrite IH; rewrite Hkeys, <- app_assoc; done.
Qed.

(** ** The generated fields and the place *)

Section GenerationFacts.
Context {F G : Type} `{PyRandom F G}.

Lemma comprehension_keys (key : nat -> string) (value : nat -> G -> json F * G)
    (indices : list nat) (acc : document F) (g : G) :
  NoDup (map fst acc ++ map key indices) ->
  map fst (comprehension key value indices acc g).1
  = map fst acc ++ map key indices.
Proof.
  revert acc g. induction indices as [|i indices IH]; intros acc g Hnd; simpl.
  - by rewrite app_nil_r.
  - destruct (value i g) as [v g'].
    assert (key i ∉ map fst acc) as Hi.
    { apply NoDup_app in Hnd as (_ & Hdis & _). intros Hin.
      apply (Hdis _ Hin). apply list_elem_of_here. }
    assert (map fst (dict_set (key i) v acc) = map fst acc ++ [key i]) as Hk
      by (by rewrite dict_set_keys, decide_False).
    rewrite IH; rewrite Hk, <- app_assoc; done.
Qed.

Lemma prefix_append (p s : string) : String.prefix p (String.append p s) = true.
Proof.
  induction p as [|a p IH].
  - by destruct s.
  - change (String.append (String a p) s) with (String a (String.append p s)).
    cbn [String.prefix]. by destruct (ascii_dec a a).
Qed.

Lemma gen_keys_NoDup : NoDup (map gen_key (seq 26 125)).
Proof. apply (bool_decide_unpack _). by vm_compute. Qed.

(** X12.  [build_generated_fields] returns 125 entries, under the keys
    ["gen_26"] to ["gen_150"] in this order, whatever the random sources
    give: all keys differ, and all start with ["gen_"]. *)
Theorem build_generated_fields_keys (g : G) :
  map fst (build_generated_fields g).1 = map gen_key (seq 26 125) /\
  length (build_generated_fields g).1 = 125 /\
  NoDup (map fst (build_generated_fields g).1) /\
  Forall (fun k => is_gen_key k = true) (map fst (build_generated_fields g).1).
Proof.
  assert (map fst (build_generated_fields g).1 = map gen_key (seq 26 125)) as E.
  { unfold build_generated_fields. rewrite comprehension_keys; [done|].
    simpl app. apply gen_keys_NoDup. }
  split; [done|]. split.
  { rewrite <- (length_map fst), E. by rewrite length_map, length_seq. }
  rewrite E. split; [apply gen_keys_NoDup|].
  apply Forall_forall. intros k (i & -> & _)%list_elem_of_fmap.
  apply prefix_append.
Qed.

Lemma random_choice_spec {A : Type} (seq : list A) (g : G) :
  match (random_choice seq g).1 with
  | Returns x => x ∈ seq
  | Raises r =>
      seq = [] /\ r = IndexError "Cannot choose from an empty sequence"
  | Unanswered => False
  end.
Proof.
  unfold random_choice. destruct seq as [|x seq]; [done|].
  pose proof (randbelow_lt (length (x :: seq)) g ltac:(simpl; lia)) as Hlt.
  destruct (randbelow (length (x :: seq)) g) as [i g']. cbn [fst] in *.
  apply list_elem_of_In. by apply nth_In.
Qed.

Lemma mapping_get_key (mapping : list (string * list string)) (k : string) :
  k ∈ map fst mapping -> exists cities, mapping_get mapping k = Some cities.
Proof.
  induction mapping as [|[k' cs] mapping IH]; simpl.
  - by intros ?%elem_of_nil.
  - intros Hin. destruct (String.eqb_spec k' k) as [->|Hne]; [eauto|].
    apply elem_of_cons in Hin as [->|Hin]; [done|]. by apply IH.
Qed.

(** X13.  [pick_country_city] returns a country of the mapping with one of
    its cities, or with [""] when the country has no city.  It raises only
    on an empty mapping, and then [IndexError]. *)
Theorem pick_country_city_spec (mapping : list (string * list string)) (g : G) :
  match (pick_country_city mapping g).1 with
  | Returns (country, city) =>
      exists cities,
        country ∈ map fst mapping /\
        mapping_get mapping country = Some cities /\
        match cities with
        | [] => city = EmptyString
        | _ :: _ => city ∈ cities
        end
  | Raises r =>
      mapping = [] /\ r = IndexError "Cannot choose from an empty sequence"
  | Unanswered => False
  end.
Proof.
  unfold pick_country_city.
  pose proof (random_choice_spec (map fst mapping) g) as Hc.
  destruct (random_choice (map fst mapping) g) as [[country|r|] g1]; simpl in Hc.
  - destruct (mapping_get_key _ _ Hc) as [cities Hget]. rewrite Hget.
    destruct cities as [|c cities]; [simpl; by exists []|].
    cbv beta iota.
    pose proof (random_choice_spec (c :: cities) g1) as Hcity.
    destruct (random_choice (c :: cities) g1) as [[city|r|] g2]; cbn [fst] in *.
    + by exists (c :: cities).
    + by destruct Hcity as [? _].
    + done.
  - simpl. destruct Hc as [Hnil ->]. split; [|done].
    by destruct mapping.
  - done.
Qed.

(** On [DEFAULT_COUNTRIES], where every country has cities,
    [pick_country_city] always returns a country and one of its cities. *)
Lemma pick_default (g : G) :
  exists country city cities g',
    pick_country_city DEFAULT_COUNTRIES g = (Returns (country, city), g') /\
    mapping_get DEFAULT_COUNTRIES country = Some cities /\ city ∈ cities.
Proof.
  unfold pick_country_city.
  pose proof (random_choice_spec (map fst DEFAULT_COUNTRIES) g) as Hc.
  destruct (random_choice (map fst DEFAULT_COUNTRIES) g) as [[country|r|] g1];
    cbn [fst] in Hc; [|by destruct Hc|done].
  assert (exists c cities, mapping_get DEFAULT_COUNTRIES country = Some (c :: cities))
    as (c & cities & Hget).
  { simpl in Hc.
    repeat (apply elem_of_cons in Hc as [->|Hc]; [by eexists _, _|]).
    by apply elem_of_nil in Hc. }
  rewrite Hget.
  pose proof (random_choice_spec (c :: cities) g1) as Hcity.
  destruct (random_choice (c :: cities) g1) as [[city|r|] g2]; cbn [fst] in Hcity.
  - by exists country, city, (c :: cities), g2.
  - by destruct Hcity as [? _].
  - done.
Qed.

End GenerationFacts.

(** ** [main] of producer_periodic.py on a CSV file *)

Section MainFacts.
Context {F G : Type} `{JsonCodec F} `{PyRandom F G}.
Variable utcnow : nat -> string.
Variable read_csv : string -> outcome DataFrame.

Lemma interval_positive (a : args) : (0 < interval a)%Q -> Qle_bool (interval a) 0 = false.
Proof.
  intros Hi. destruct (Qle_bool (interval a) 0) eqn:E; [|done].
  apply Qle_bool_iff in E. lra.
Qed.

(** X14.  The schema of a generated document.  In [generate] mode a document
    is always built, and it has 153 entries:  ["col1"] to ["col25"],
    ["gen_26"] to ["gen_150"], ["country"], ["city"] and ["_ingestedAt"], in
    this order and under distinct keys; ["_ingestedAt"] holds the clock
    reading made for this document.  [row_index] stays where it is. *)
Theorem generated_document_schema (a : args) (header25 : list string)
    (csv_rows : list (list (option string))) (total_rows : nat) (src : source G) :
  mode a = ModeGenerate ->
  exists doc g',
    next_doc utcnow a header25 csv_rows total_rows src
    = Returns (doc, Source (row_index src) g' (S (readings src))) /\
    map fst doc
    = map col_key (seq 0 25) ++ map gen_key (seq 26 125)
      ++ ["country"; "city"; "_ingestedAt"] /\
    NoDup (map fst doc) /\
    dict_get "_ingestedAt" doc = Some (JStr (utcnow (readings src))).
Proof.
  intros Hm. unfold next_doc. rewrite Hm.
  destruct (comprehension col_key (fun i => random_value_for_col (i + 1))
              (seq 0 25) [] (rng src)) as [doc0 g0] eqn:E0.
  assert (map fst doc0 = map col_key (seq 0 25)) as K0.
  { change doc0 with (doc0, g0).1. rewrite <- E0. rewrite comprehension_keys; [done|].
    simpl app. apply (bool_decide_unpack _). by vm_compute. }
  cbn [mbind outcome_bind].
  destruct (build_generated_fields g0) as [fields g1] eqn:E1.
  assert (map fst fields = map gen_key (seq 26 125)) as K1.
  { change fields with (fields, g1).1. rewrite <- E1. unfold build_generated_fields.
    rewrite comprehension_keys; [done|]. simpl app. apply gen_keys_NoDup. }
  destruct (pick_default g1) as (country & city & cities & g2 & -> & _).
  eexists _, g2. split; [reflexivity|].
  assert (map fst (dict_update doc0 fields)
          = map col_key (seq 0 25) ++ map gen_key (seq 26 125)) as K2.
  { rewrite dict_update_keys; rewrite K0, K1; [done|].
    apply (bool_decide_unpack _). by vm_compute. }
  assert (map fst
            (dict_set "_ingestedAt" (JStr (utcnow (readings src)))
               (dict_set "city" (JStr city)
                  (dict_set "country" (JStr country) (dict_update doc0 fields))))
          = map col_key (seq 0 25) ++ map gen_key (seq 26 125)
            ++ ["country"; "city"; "_ingestedAt"]) as K.
  { rewrite !dict_set_keys, K2.
    rewrite (decide_False (P := _ ∈ map col_key (seq 0 25) ++ map gen_key (seq 26 125)))
      by (apply (bool_decide_unpack _); by vm_compute).
    rewrite (decide_False (P := _ ∈ (_ ++ _) ++ [_]))
      by (apply (bool_decide_unpack _); by vm_compute).
    rewrite (decide_False (P := _ ∈ ((_ ++ _) ++ [_]) ++ [_]))
      by (apply (bool_decide_unpack _); by vm_compute).
    by rewrite <- !app_assoc. }
  split; [done|]. split.
  - rewrite K. apply (bool_decide_unpack _). by vm_compute.
  - apply dict_get_set_eq.
Qed.










(** X16.  With [--interval] above 0, [main] leaves its loop by itself only
    in CSV mode without [--loop]: in [generate] mode and with [--loop] no
    run of the loop, however long, ends by one of the two [break]s.  The
    loop goes on until an exception or Ctrl+C ends it. *)
Theorem runs_until_interrupted (a : args) (header25 : list string)
    (csv_rows : list (list (option string))) (total_rows : nat) (fuel : nat)
    (src : source G) (cl : client F) :
  (0 < interval a)%Q -> is_csv (mode a) && negb (loop a) = false ->
  match main_loop utcnow fuel a header25 csv_rows total_rows src cl with
  | Some (SingleRun, _) | Some (CsvExhausted, _) => False
  | _ => True
  end.
Proof.
  intros Hi Hm. revert src cl.
  induction fuel as [|fuel IH]; intros src cl; cbn [main_loop]; [done|].
  destruct (build_batch utcnow a header25 csv_rows total_rows (batch a) src)
    as [[batch_to_send src1]| |]; try done.
  destruct (send_batch a cl (map JDict batch_to_send)) as [[[]|e|] cl1]; try done.
  rewrite (interval_positive a Hi), Hm. cbn [andb]. apply IH.
Qed.

Lemma next_doc_loop (a : args) (header25 : list string)
    (csv_rows : list (list (option string))) (src : source G)
    (doc : document F) (src' : source G) :
  mode a = ModeCsv -> loop a = true ->
  row_index src < length csv_rows ->
  next_doc utcnow a header25 csv_rows (length csv_rows) src = Returns (doc, src') ->
  row_index src' = S (row_index src) mod length csv_rows.
Proof.
  intros Hm Hl Hr. unfold next_doc, list_index. rewrite Hm, Hl.
  destruct (Nat.eqb_spec (length csv_rows) 0) as [E|_]; [lia|].
  destruct (csv_rows !! row_index src) as [row_values|]; cbn [mbind outcome_bind];
    [|done].
  destruct (row_document header25 row_values (seq 0 25) []) as [d| |];
    cbn [mbind outcome_bind]; try done.
  rewrite andb_true_r.
  destruct (build_generated_fields (rng src)) as [fields g1].
  destruct (pick_country_city DEFAULT_COUNTRIES g1) as [[[country city]|r|] g2];
    try done.
  intros [= _ <-]. simpl.
  destruct (Nat.leb_spec (length csv_rows) (S (row_index src))) as [Hend|Hmore].
  - replace (S (row_index src)) with (length csv_rows) by lia.
    by rewrite Nat.Div0.mod_same.
  - by rewrite Nat.mod_small.
Qed.

(** X17.  With [--loop] the rows are taken round and round: after [n]
    documents, starting at the first row, [row_index] is [n] modulo the
    number of rows, and it never leaves the file. *)
Theorem loop_wraps_around (a : args) (header25 : list string)
    (csv_rows : list (list (option string))) (n : nat) (src : source G)
    (docs : list (document F)) (src' : source G) :
  mode a = ModeCsv -> loop a = true ->
  row_index src < length csv_rows ->
  build_batch utcnow a header25 csv_rows (length csv_rows) n src
  = Returns (docs, src') ->
  row_index src' = (row_index src + n) mod length csv_rows /\
  row_index src' < length csv_rows.
Proof.
  intros Hm Hl. revert src docs.
  induction n as [|n IH]; intros src docs Hr; cbn [build_batch].
  - intros [= _ <-]. rewrite Nat.add_0_r, Nat.mod_small by done. done.
  - destruct (next_doc utcnow a header25 csv_rows (length csv_rows) src)
      as [[doc src1]| |] eqn:E1; simpl; try done.
    pose proof (next_doc_loop a header25 csv_rows src doc src1 Hm Hl Hr E1) as H1.
    assert (row_index src1 < length csv_rows) as Hr1
      by (rewrite H1; apply Nat.mod_upper_bound; lia).
    destruct (build_batch utcnow a header25 csv_rows (length csv_rows) n src1)
      as [[ds src2]| |] eqn:E2; simpl; try done.
    intros [= _ <-]. destruct (IH src1 ds Hr1 E2) as [H2 Hlt]. split; [|done].
    rewrite H2, H1. rewrite Nat.Div0.add_mod_idemp_l. f_equal. lia.
Qed.

Lemma build_batch_length (a : args) (header25 : list string)
    (csv_rows : list (list (option string))) (total n : nat) (src : source G)
    (docs : list (document F)) (src' : source G) :
  build_batch utcnow a header25 csv_rows total n src = Returns (docs, src') ->
  length docs = n.
Proof.
  revert src docs. induction n as [|n IH]; intros src docs; cbn [build_batch].
  - by intros [= <- _].
  - destruct (next_doc utcnow a header25 csv_rows total src) as [[doc src1]| |];
      simpl; try done.
    destruct (build_batch utcnow a header25 csv_rows total n src1) as [[ds src2]| |] eqn:E;
      simpl; try done.
    intros [= <- <-]. simpl. f_equal. by eapply IH.
Qed.

(** X18.  [--interval 0] (or below).  [main] builds one batch, sends it and
    leaves the loop:  [--batch] documents are sent, not the whole file.
    (Here without [--ack], on a connection that accepts every write.) *)
Theorem single_run
    (a : args) (g : G) (s : socket) (network : list dial)
    (header25 : list string) (csv_rows : list (list (option string)))
    (total_rows : nat)
    (docs : list (document F)) (src : source G) (frames : list bytes) (fuel : nat) :
  (interval a <= 0)%Q -> ack a = false ->
  is_csv (mode a) && no_file a = false ->
  main_inputs read_csv a = Returns (header25, csv_rows, total_rows) ->
  build_batch utcnow a header25 csv_rows total_rows (batch a) (Source 0 g 0)
  = Returns (docs, src) ->
  Forall2 framed (map JDict docs) frames ->
  wr s = [] ->
  length docs = batch a /\
  main utcnow read_csv (S fuel) a g (Accepted s :: network)
  = Ran SingleRun
        (Client (Socket (rx s) (tx s ++ frames) []) network (batch a)
                ([EvConnected] ++ map EvSend (map JDict docs) ++ [EvClose])).
Proof.
  intros Hi Ha Hfile Hin Hbuild Hfr Hw.
  pose proof (build_batch_length _ _ _ _ _ _ _ _ Hbuild) as Hlen.
  split; [done|].
  unfold main, main_connect, connect_with_backoff. rewrite Hfile, Hin.
  cbn [connect_loop map app main_loop]. rewrite Hbuild.
  rewrite (send_batch_without_ack a (Client s network 0 [EvConnected])
             (map JDict docs) frames Ha Hw Hfr).
  apply Qle_bool_iff in Hi. rewrite Hi. simpl.
  by rewrite length_map, Hlen.
Qed.

End MainFacts.

(** ** [load_csv_rows] *)

Lemma series_get_lookup (cols r : list string) (i : nat) (label v : string) :
  NoDup cols -> cols !! i = Some label -> r !! i = Some v ->
  series_get cols r label = Returns v.
Proof.
  revert r i. induction cols as [|c cols IH]; intros r i Hnd Hc Hr; [done|].
  destruct r as [|v0 r]; [done|]. apply NoDup_cons in Hnd as [Hc0 Hnd].
  destruct i as [|i]; simpl in *.
  - injection Hc as ->. injection Hr as ->. by rewrite String.eqb_refl.
  - destruct (String.eqb_spec c label) as [->|_].
    + destruct Hc0. by eapply list_elem_of_lookup_2.
    + by eapply IH.
Qed.

Lemma row_cells_take (header r : list string) (n k : nat) :
  NoDup header -> k + n <= length header -> length r = length header ->
  row_cells header r (seq k n) = Returns (map cell_of (take n (drop k r))).
Proof.
  intros Hnd. revert k. induction n as [|n IH]; intros k Hk Hr; simpl; [done|].
  unfold list_index.
  destruct (lookup_lt_is_Some_2 header k ltac:(lia)) as [label Hlabel].
  destruct (lookup_lt_is_Some_2 r k ltac:(lia)) as [v Hv].
  rewrite Hlabel. simpl. rewrite (series_get_lookup _ _ _ _ _ Hnd Hlabel Hv). simpl.
  rewrite IH by lia. simpl.
  by rewrite (drop_S _ _ _ Hv).
Qed.

Section CsvFacts.
Variable read_csv : string -> outcome DataFrame.

(** X19.  [load_csv_rows] on a frame as [read_csv] makes them, with distinct
    column labels and rows as long as the header.  With fewer than 25
    columns it raises [SystemExit].  Otherwise it returns the first 25
    labels and, for every row of the file in order, the first 25 cells,
    [None] standing for an empty cell; columns past the 25th are dropped. *)
Theorem load_csv_rows_spec (path : string) (df : DataFrame) :
  read_csv path = Returns df ->
  NoDup (columns df) ->
  Forall (fun r => length r = length (columns df)) (cells df) ->
  load_csv_rows read_csv path
  = if length (columns df) <? 25 then
      Raises (SystemExit
                (String.append "CSV has "
                   (String.append (str_nat (length (columns df)))
                      " columns; at least 25 required")))
    else
      Returns (take 25 (columns df),
               map (fun r => map cell_of (take 25 r)) (cells df)).
Proof.
  intros Hread Hnd Hrect. unfold load_csv_rows. rewrite Hread. simpl.
  destruct (Nat.ltb_spec (length (columns df)) 25) as [|H25]; [done|].
  assert (rows_of (columns df) (cells df)
          = Returns (map (fun r => map cell_of (take 25 r)) (cells df))) as ->; [|done].
  induction Hrect as [|r rs Hr _ IH]; [done|].
  cbn [rows_of map]. rewrite (row_cells_take _ _ 25 0) by (done || lia).
  rewrite IH. by rewrite drop_0.
Qed.

End CsvFacts.

(** ** tcp/producer_tcp.py *)

Section TcpFacts.
Context {F G : Type} `{JsonCodec F} `{PyRandom F G}.
Variable utcnow : nat -> string.
Variable read_csv : string -> outcome DataFrame.

(** X20.  The older TCP producer sends nothing.  Its loop variable [row] is
    the pair that [df.iterrows()] yields, and [row[key]] with the first
    column label raises [TypeError] on the first row of the file, before any
    document is complete:  [main] dies there and closes the socket, on which
    it has neither written nor read.  On a file without rows it ends
    normally, with 0 documents sent. *)
Theorem producer_tcp_sends_nothing
    (a : Tcp.tcp_args) (g : G) (df : DataFrame) (s : socket) (network : list dial) :
  read_csv (Tcp.file a) = Returns df ->
  25 <= length (columns df) ->
  Tcp.main utcnow read_csv a g (Accepted s :: network)
  = match cells df with
    | [] => Tcp.TcpFinished 0 s
    | _ :: _ =>
        Tcp.TcpDied
          (Exc (TypeError "tuple indices must be integers or slices, not str")) s
    end.
Proof.
  intros Hread H25. unfold Tcp.main. rewrite Hread.
  destruct (Nat.ltb_spec (length (columns df)) 25) as [|_]; [lia|].
  destruct (cells df) as [|r rs]; [done|].
  cbn [imap Tcp.rows_loop]. change (seq 0 25) with (0 :: seq 1 24).
  cbn [Tcp.row_fields]. unfold list_index.
  destruct (columns df) as [|c cols]; [simpl in H25; lia|]. done.
Qed.

End TcpFacts.

(** ** tcp/producer.py *)

Section MongoFacts.
Context {F G : Type} `{PyRandom F G}.
Variable utcnow : nat -> string.
Variable read_csv : string -> outcome DataFrame.
Variable read_json : string -> outcome (json F).
Variable path_exists : string -> bool.

(** X21.  The store-writing producer generates 124 fields, ["gen_26"] to
    ["gen_149"]: one fewer than the TCP producers, whose last key is
    ["gen_150"]. *)
Theorem mongo_generated_fields_keys (g : G) :
  map fst (Mongo.build_generated_fields (F:=F) g).1 = map gen_key (seq 26 124) /\
  last (map fst (Mongo.build_generated_fields (F:=F) g).1) = Some (gen_key 149) /\
  last (map fst (build_generated_fields (F:=F) g).1) = Some (gen_key 150).
Proof.
  assert (map fst (Mongo.build_generated_fields (F:=F) g).1
          = map gen_key (seq 26 124)) as E.
  { unfold Mongo.build_generated_fields. rewrite comprehension_keys; [done|].
    simpl app. apply (bool_decide_unpack _). by vm_compute. }
  split; [done|]. rewrite E. split; [done|].
  unfold build_generated_fields. rewrite comprehension_keys; [done|].
  simpl app. apply gen_keys_NoDup.
Qed.

(** X22.  [pick_country_city] of the store-writing producer returns a
    country of the mapping with one of its cities.  It raises [IndexError]
    on an empty mapping and also when the country it drew has no city, where
    the TCP producers return [""]. *)
Theorem mongo_pick_country_city_spec
    (mapping : list (string * list string)) (g : G) :
  match (Mongo.pick_country_city mapping g).1 with
  | Returns (country, city) =>
      exists cities,
        country ∈ map fst mapping /\
        mapping_get mapping country = Some cities /\ city ∈ cities
  | Raises r =>
      r = IndexError "Cannot choose from an empty sequence" /\
      (mapping = [] \/
       exists country,
         country ∈ map fst mapping /\ mapping_get mapping country = Some [])
  | Unanswered => False
  end.
Proof.
  unfold Mongo.pick_country_city.
  pose proof (random_choice_spec (map fst mapping) g) as Hc.
  destruct (random_choice (map fst mapping) g) as [[country|r|] g1]; cbn [fst] in Hc.
  - destruct (mapping_get_key _ _ Hc) as [cities Hget]. rewrite Hget.
    pose proof (random_choice_spec cities g1) as Hcity.
    destruct (random_choice cities g1) as [[city|r|] g2]; cbn [fst] in *.
    + by exists cities.
    + destruct Hcity as [-> ->]. split; [done|]. right. by exists country.
    + done.
  - cbn [fst]. destruct Hc as [Hnil ->]. split; [done|]. left.
    by destruct mapping.
  - done.
Qed.

Lemma insert_many_ok (c : Mongo.bulk F) (docs : list (document F)) :
  Mongo.faults c = [] -> docs <> [] ->
  Mongo.insert_many c docs = (Ok tt, Mongo.Bulk (Mongo.inserted c ++ [docs]) []).
Proof. intros Hf Hd. unfold Mongo.insert_many. rewrite Hf. by destruct docs. Qed.

Lemma mongo_rows_loop_batches (csv_header : list string)
    (countries_map : list (string * list string)) (bs : nat) :
  0 < bs ->
  forall (rows : list (list string)) (batch_doc : list (document F)) (total : nat)
         (c : Mongo.bulk F) (g : G) (now : nat) (docs : list (document F)),
    length batch_doc < bs -> Mongo.faults c = [] ->
    Mongo.documents utcnow csv_header countries_map rows g now = Returns docs ->
    exists full rest,
      Mongo.rows_loop utcnow csv_header countries_map bs rows batch_doc total c g now
      = (Returns (rest, total + length docs),
         Mongo.Bulk (Mongo.inserted c ++ full) []) /\
      concat full ++ rest = batch_doc ++ docs /\
      Forall (fun b => length b = bs) full /\
      length rest < bs.
Proof.
  intros Hbs rows. induction rows as [|row rows IH];
    intros batch_doc total c g now docs Hlen Hf Hdocs.
  - simpl in Hdocs. injection Hdocs as <-. exists [], batch_doc. simpl.
    rewrite !app_nil_r, Nat.add_0_r. destruct c as [ins fl]. simpl in *. subst.
    done.
  - cbn [Mongo.documents] in Hdocs. cbn [Mongo.rows_loop].
    destruct (Mongo.make_doc utcnow csv_header countries_map row g now)
      as [[doc g']| |]; simpl in Hdocs; try done.
    destruct (Mongo.documents utcnow csv_header countries_map rows g' (S now))
      as [docs'| |] eqn:E; simpl in Hdocs; try done.
    injection Hdocs as <-.
    destruct (Nat.leb_spec bs (length (batch_doc ++ [doc]))) as [Hfull|Hroom].
    + rewrite insert_many_ok by (done || by destruct batch_doc).
      destruct (IH [] (S total) (Mongo.Bulk (Mongo.inserted c ++ [batch_doc ++ [doc]]) [])
                   g' (S now) docs') as (full & rest & -> & Hcat & Hall & Hrest);
        try done.
      exists ((batch_doc ++ [doc]) :: full), rest. simpl.
      rewrite <- !app_assoc. simpl. split; [do 3 f_equal; lia|].
      split; [simpl in Hcat; by rewrite Hcat|]. split; [|done].
      constructor; [|done]. rewrite length_app in *. simpl in *. lia.
    + destruct (IH (batch_doc ++ [doc]) (S total) c g' (S now) docs')
        as (full & rest & -> & Hcat & Hall & Hrest); try done.
      exists full, rest. simpl. split; [do 3 f_equal; lia|].
      split; [by rewrite Hcat, <- app_assoc|]. done.
Qed.

(** X23.  Batching.  [main] hands the documents of the file to [insert_many]
    in the order of the rows, each exactly once: first in runs of [max(1,
    --batch)] documents, and at the end what is left, if anything is.
    [insert_many] is never called with an empty list, and [total] counts
    every document.  (Here the store accepts every call.) *)
Theorem insert_many_batches
    (a : Mongo.mongo_args) (g : G) (c : Mongo.bulk F) (df : DataFrame)
    (csv_path : string) (countries_map : list (string * list string))
    (docs : list (document F)) :
  Mongo.load_country read_json (Mongo.countries_file a) = Returns countries_map ->
  Mongo.file a = Some csv_path -> csv_path <> EmptyString ->
  path_exists csv_path = true ->
  read_csv csv_path = Returns df -> 25 <= length (columns df) ->
  Mongo.documents utcnow (columns df) countries_map (cells df) g 0 = Returns docs ->
  Mongo.faults c = [] ->
  exists full rest,
    Mongo.main utcnow read_csv read_json path_exists a g c
    = Mongo.MongoFinished (length docs)
        (Mongo.Bulk (Mongo.inserted c ++ full ++
                       match rest with [] => [] | _ :: _ => [rest] end) []) /\
    concat full ++ rest = docs /\
    Forall (fun b => length b = Z.to_nat (Z.max 1 (Mongo.batch a))) full /\
    length rest < Z.to_nat (Z.max 1 (Mongo.batch a)).
Proof.
  intros Hload Hfile Hpath Hex Hread H25 Hdocs Hf.
  destruct (mongo_rows_loop_batches (columns df) countries_map
              (Z.to_nat (Z.max 1 (Mongo.batch a))) ltac:(lia)
              (cells df) [] 0 c g 0 docs ltac:(simpl; lia) Hf Hdocs)
    as (full & rest & Hloop & Hcat & Hall & Hrest).
  exists full, rest. split; [|done].
  unfold Mongo.main. rewrite Hload, Hfile, Hex, Hread.
  destruct (String.eqb_spec csv_path EmptyString) as [->|_]; [done|].
  destruct (Nat.ltb_spec (length (columns df)) 25) as [|_]; [lia|].
  cbn [negb andb]. rewrite Hloop. simpl.
  destruct rest as [|d rest].
  - by rewrite app_nil_r.
  - rewrite insert_many_ok by done. simpl. by rewrite <- app_assoc.
Qed.

End MongoFacts.

(** ** A document from a CSV row *)

Lemma dict_get_update_out {F : Type} (k : string) (d fields : document F) :
  k ∉ map fst fields -> dict_get k (dict_update d fields) = dict_get k d.
Proof.
  unfold dict_update. revert d.
  induction fields as [|[k0 v0] fields IH]; intros d Hk; simpl; [done|].
  simpl in Hk. apply not_elem_of_cons in Hk as [Hne Hk].
  rewrite IH by done. apply dict_get_set_ne. congruence.
Qed.

Lemma dict_get_update_in {F : Type} (k : string) (d fields : document F) :
  NoDup (map fst fields) -> k ∈ map fst fields ->
  dict_get k (dict_update d fields) = dict_get k fields.
Proof.
  revert d. induction fields as [|[k0 v0] fields IH]; intros d Hnd Hk; simpl in *.
  { by apply elem_of_nil in Hk. }
  apply NoDup_cons in Hnd as [Hk0 Hnd].
  change (dict_update d ((k0, v0) :: fields))
    with (dict_update (dict_set k0 v0 d) fields).
  destruct (String.eqb_spec k0 k) as [->|Hne].
  - rewrite dict_get_update_out by done. apply dict_get_set_eq.
  - apply elem_of_cons in Hk as [->|Hk]; [done|]. by apply IH.
Qed.

Lemma dict_get_is_Some {F : Type} (k : string) (d : document F) :
  k ∈ map fst d -> is_Some (dict_get k d).
Proof.
  induction d as [|[k0 v0] d IH]; simpl; [by intros ?%elem_of_nil|].
  intros Hk. destruct (String.eqb_spec k0 k) as [->|Hne]; [done|].
  apply elem_of_cons in Hk as [->|Hk]; [done|]. by apply IH.
Qed.

Lemma gen_key_head (j : nat) :
  gen_key j = String "g" (String "e" (String "n" (String "_" (str_nat j)))).
Proof. reflexivity. Qed.

Section CsvDocument.
Context {F G : Type} `{PyRandom F G}.
Variable utcnow : nat -> string.

Lemma row_document_other (header25 : list string) (row_values : list (option string))
    (indices : list nat) (acc doc : document F) (k : string) :
  row_document header25 row_values indices acc = Returns doc ->
  (forall i, i ∈ indices -> header25 !! i <> Some k) ->
  dict_get k doc = dict_get k acc.
Proof.
  revert acc. induction indices as [|j indices IH]; intros acc; simpl.
  - by intros [= ->].
  - unfold list_index. destruct (header25 !! j) as [kj|] eqn:Ej; simpl; [|done].
    destruct (row_values !! j) as [vj|]; simpl; [|done].
    intros Hdoc Hk. rewrite (IH _ Hdoc).
    + apply dict_get_set_ne. intros ->. by apply (Hk j); [apply list_elem_of_here|].
    + intros i Hi. apply Hk. by apply list_elem_of_further.
Qed.

Lemma row_document_get (header25 : list string) (row_values : list (option string))
    (indices : list nat) (acc doc : document F) (i : nat) (k : string)
    (v : option string) :
  NoDup header25 ->
  row_document header25 row_values indices acc = Returns doc ->
  i ∈ indices -> header25 !! i = Some k -> row_values !! i = Some v ->
  dict_get k doc = Some (cell_value v).
Proof.
  intros Hnd. revert acc. induction indices as [|j indices IH]; intros acc; simpl.
  - by intros _ ?%elem_of_nil.
  - unfold list_index. destruct (header25 !! j) as [kj|] eqn:Ej; simpl; [|done].
    destruct (row_values !! j) as [vj|] eqn:Evj; simpl; [|done].
    intros Hdoc Hi Hk Hv.
    destruct (decide (i ∈ indices)) as [Hin|Hout]; [by eapply IH|].
    apply elem_of_cons in Hi as [->|Hi]; [|done].
    assert (kj = k) as -> by congruence. assert (vj = v) as -> by congruence.
    rewrite (row_document_other _ _ _ _ _ k Hdoc).
    + apply dict_get_set_eq.
    + intros i' Hi' E. assert (i' = j) as -> by (by eapply NoDup_lookup). done.
Qed.

(** X24.  What a document built from a CSV row holds.  It takes the row at
    [row_index].  The 125 generated fields, the place and ["_ingestedAt"]
    are set after the columns of the file, so under their keys the
    document always holds the generated value, the country with one of its
    cities, and the clock reading, also when the file has a column of that
    name.  Under every other label among the first 25 (the labels being
    distinct) it holds the cell of the row, [None] for an empty one. *)
Theorem csv_document_fields (a : args) (header25 : list string)
    (csv_rows : list (list (option string))) (total_rows : nat)
    (src : source G) (doc : document F) (src' : source G) :
  mode a = ModeCsv -> NoDup header25 ->
  next_doc utcnow a header25 csv_rows total_rows src = Returns (doc, src') ->
  exists row_values country city cities,
    csv_rows !! row_index src = Some row_values /\
    mapping_get DEFAULT_COUNTRIES country = Some cities /\ city ∈ cities /\
    dict_get "country" doc = Some (JStr country) /\
    dict_get "city" doc = Some (JStr city) /\
    dict_get "_ingestedAt" doc = Some (JStr (utcnow (readings src))) /\
    (forall j, j ∈ seq 26 125 ->
       is_Some (dict_get (gen_key j) doc) /\
       dict_get (gen_key j) doc
       = dict_get (gen_key j) (build_generated_fields (rng src)).1) /\
    (forall i k v,
       i < 25 -> header25 !! i = Some k -> row_values !! i = Some v ->
       k ∉ map gen_key (seq 26 125) ->
       k <> "country" -> k <> "city" -> k <> "_ingestedAt" ->
       dict_get k doc = Some (cell_value v)).
Proof.
  intros Hm Hnd. unfold next_doc, list_index. rewrite Hm.
  destruct (total_rows =? 0); [done|].
  destruct (csv_rows !! row_index src) as [row_values|]; cbn [mbind outcome_bind];
    [|done].
  destruct (row_document header25 row_values (seq 0 25) []) as [doc0| |] eqn:E0;
    cbn [mbind outcome_bind]; try done.
  destruct (build_generated_fields (rng src)) as [fields g1] eqn:E1.
  assert (map fst fields = map gen_key (seq 26 125)) as K1.
  { change fields with (fields, g1).1. rewrite <- E1. unfold build_generated_fields.
    rewrite comprehension_keys; [done|]. simpl app. apply gen_keys_NoDup. }
  destruct (pick_default g1) as (country & city & cities & g2 & -> & Hget & Hcity).
  intros [= <- _].
  exists row_values, country, city, cities.
  split; [done|]. split; [done|]. split; [done|].
  split; [do 2 rewrite dict_get_set_ne by done; by rewrite dict_get_set_eq|].
  split; [rewrite dict_get_set_ne by done; by rewrite dict_get_set_eq|].
  split; [by rewrite dict_get_set_eq|].
  split.
  - intros j Hj.
    assert (gen_key j ∈ map fst fields) as Hin
      by (rewrite K1; by apply list_elem_of_fmap_2).
    rewrite !dict_get_set_ne by (rewrite gen_key_head; discriminate).
    rewrite dict_get_update_in; [|rewrite K1; apply gen_keys_NoDup|done].
    split; [by apply dict_get_is_Some|done].
  - intros i k v Hi Hk Hv Hgen Hc1 Hc2 Hc3.
    rewrite !dict_get_set_ne by congruence.
    rewrite dict_get_update_out by (by rewrite K1).
    eapply row_document_get; try done.
    apply list_elem_of_In, in_seq. lia.
Qed.

End CsvDocument.

(** ** A CSV file without rows *)

Section EmptyCsv.
Context {F G : Type} `{JsonCodec F} `{PyRandom F G}.
Variable utcnow : nat -> string.
Variable read_csv : string -> outcome DataFrame.

(** X25.  A CSV file with a header of 25 columns or more and no row below
    it.  [load_csv_rows] accepts it, and [main] goes on to connect, with
    all the retries that takes; only the first document of the first batch
    raises [SystemExit("CSV has no rows")].  Nothing has been sent by
    then, and the socket is closed on the way out. *)
Theorem csv_without_rows (a : args) (g : G) (p : string) (df : DataFrame)
    (network network' : list dial) (s : socket) (slept : list Q) (fuel : nat) :
  mode a = ModeCsv -> file a = Some p -> p <> EmptyString ->
  read_csv p = Returns df -> 25 <= length (columns df) -> cells df = [] ->
  0 < batch a ->
  main_connect a network = (Ok s, network', slept) ->
  load_csv_rows read_csv p = Returns (take 25 (columns df), []) /\
  main utcnow read_csv (S fuel) a g network
  = Ran (Died (SystemExit "CSV has no rows"))
        (Client s network' 0 (map EvSleep slept ++ [EvConnected; EvClose])).
Proof.
  intros Hm Hf Hp Hdf Hcols Hcells Hb Hconn.
  assert (load_csv_rows read_csv p = Returns (take 25 (columns df), [])) as Hload.
  { unfold load_csv_rows. rewrite Hdf. cbn [mbind outcome_bind].
    destruct (Nat.ltb_spec (length (columns df)) 25); [lia|].
    by rewrite Hcells. }
  split; [done|].
  unfold main, no_file, main_inputs. rewrite Hm, Hf, Hload, Hconn.
  destruct (String.eqb_spec p EmptyString); [done|].
  cbn [is_csv andb mbind outcome_bind length main_loop].
  destruct (batch a) as [|b] eqn:Eb; [lia|].
  cbn [build_batch]. unfold next_doc. rewrite Hm. cbn.
  by rewrite <- app_assoc.
Qed.

End EmptyCsv.

(** * The properties on sample runs

    The theorems above on the sample data, and the runs on which a property
    does not hold as the design document states it, all with the reference
    runtime. *)

Section Runs.
#[local] Existing Instances Ref.arith Ref.codec Ref.collection.
Import Sample.

(** The frame of [{"x": 1}], whole and one byte at a time. *)
Lemma one_byte_at_a_time_witness :
  (forall c, pending c = record_frame -> (read_frame c).1 = Ok (Frame record_text)) /\
  (read_frame (Socket (bytewise record_frame) [] [])).1 = Ok (Frame record_text) /\
  (@recv_frame float Ref.codec (Socket [record_frame] [] [])).1
    = Ok record /\
  (@recv_frame float Ref.codec (Socket (bytewise record_frame) [] [])).1
    = Raise (StructError "unpack requires a buffer of 4 bytes").
Proof.
  exact (one_byte_at_a_time (F:=float) record_text record_frame [] [] eq_refl).
Defined.

(** [{"x": 1}] goes through a frame and comes back. *)
Lemma frame_round_trip_witness :
  exists fr,
    frame_of record_text = Ok fr /\
    send_frame (connection []) record
      = (Ok tt, Socket (rx (connection [])) (tx (connection []) ++ [fr])
                       (tail (wr (connection [])))) /\
    send_response (connection []) record
      = (Ok tt, Socket (rx (connection [])) (tx (connection []) ++ [fr])
                       (tail (wr (connection [])))) /\
    (forall seg segs t w,
       4 <= length seg -> concat (seg :: segs) = fr ->
       (recv_frame (Socket (seg :: segs) t w)).1 = Ok record) /\
    (forall c, pending c = fr ->
       (read_frame c).1 = Ok (Frame record_text) /\
       json_loads record_text = Ok record).
Proof.
  apply (frame_round_trip record record_text (connection [])).
  - reflexivity.
  - vm_compute. discriminate.
  - reflexivity.
  - reflexivity.
Defined.

(** The peer closes at once; the peer closes after two of the four header
    bytes. *)
Lemma clean_close_and_truncated_frame_witness :
  (exists c',
     handle_client Ref.utcnow (Server (Socket [] [] []) empty_store 0)
       = Some (Exit ClosedByPeer (Server c' empty_store 0) false) /\
     tx c' = []) /\
  (exists c',
     handle_client Ref.utcnow (Server (connection [x00; x00]) empty_store 0)
       = Some (Exit (ConnectionFault (ConnectionError "Socket closed while reading"))
                    (Server c' empty_store 0) false) /\
     tx c' = []).
Proof.
  split.
  - apply (clean_close_and_truncated_frame Ref.utcnow
             (Server (Socket [] [] []) empty_store 0)).
    reflexivity.
  - apply (clean_close_and_truncated_frame Ref.utcnow
             (Server (connection [x00; x00]) empty_store 0)).
    split; [discriminate|]. left. simpl. lia.
Defined.

(** The frame of [[]] is not answered. *)
Lemma non_object_payload_gets_no_ack_witness :
  exists c',
    handle_client Ref.utcnow (Server (connection (array_frame ++ record_frame)) empty_store 0)
      = Some (Exit (UnexpectedError (TypeError "object does not support item assignment"))
                   (Server c' empty_store 1) true) /\
    handle_client_threaded Ref.utcnow
        (Server (connection (array_frame ++ record_frame)) empty_store 0)
      = Some (Exit (UnexpectedError (TypeError "object does not support item assignment"))
                   (Server c' empty_store 1) true) /\
    tx c' = [] /\
    pending c' = record_frame.
Proof.
  apply (non_object_payload_gets_no_ack Ref.utcnow
           (Server (connection (array_frame ++ record_frame)) empty_store 0)
           (Ref.text "[]") array_frame record_frame (JList [])).
  - reflexivity.
  - reflexivity.
  - reflexivity.
  - discriminate.
Defined.


(** The store is lost between the insert and the update. *)
Lemma error_ack_after_insert_witness :
  exists c',
    handle_frame Ref.utcnow (Server (connection record_frame) failing_store 0)
      = Continue (Server c'
                    (Ref.Store [([("x", JInt 1); ("_receivedAt", JStr (Ref.utcnow 0))], None)] [])
                    2) /\
    tx c' = [] ++ [ack_frame (error_ack "connection refused")] /\
    pending c' = [] /\
    @find_one float Ref.store Ref.collection
        (Ref.Store [([("x", JInt 1); ("_receivedAt", JStr (Ref.utcnow 0))], None)] []) 0
      = Some (dict_set "_receivedAt" (JStr (Ref.utcnow 0)) [("x", JInt 1)], None) /\
    dict_get "_receivedAt" (dict_set "_receivedAt" (JStr (Ref.utcnow 0)) [("x", @JInt float 1)])
      = Some (JStr (Ref.utcnow 0)).
Proof.
  apply (@error_ack_after_insert float Ref.store Ref.codec Ref.arith Ref.collection
           Ref.utcnow
           (Server (connection record_frame) failing_store 0)
           record_text record_frame [] [("x", JInt 1)] 0
           (Ref.Store [([("x", JInt 1); ("_receivedAt", JStr (Ref.utcnow 0))], None)] [true])
           (Ref.Store [([("x", JInt 1); ("_receivedAt", JStr (Ref.utcnow 0))], None)] [])
           2 Ref.unreachable
           (ack_text (error_ack "connection refused"))
           (ack_frame (error_ack "connection refused"))).
  - reflexivity.
  - reflexivity.
  - reflexivity.
  - reflexivity.
  - right. eexists. split; [reflexivity|]. split; reflexivity.
  - reflexivity.
  - reflexivity.
  - reflexivity.
Defined.



(** A broken pipe on the first send; the reconnect is refused twice, then
    accepted, and the resend is acknowledged. *)
Lemma resend_once_then_abandon_witness :
  send_doc producer_args (Client broken_socket network 0 []) record
    = (Ok tt,
       Client (Socket [] [record_frame] []) [] 1
         ([] ++ ([EvSend record] ++ [EvClose] ++ map EvSleep [100; 60]%Q ++ [EvConnected])
             ++ [EvSend record; EvRecv])) /\
  List.filter is_send
    (([EvSend record] ++ [EvClose] ++ map EvSleep [100; 60]%Q ++ [EvConnected])
       ++ [EvSend record; EvRecv])
    = [EvSend record; EvSend record].
Proof.
  destruct (resend_once_then_abandon producer_args
              (Client broken_socket network 0 []) record) as [_ [Hretry _]].
  destruct (Hretry (OSError "Broken pipe") (Socket [] [] []) [EvSend record]
              fresh_socket [] [100; 60]%Q (Ok tt) (Socket [] [record_frame] [])
              [EvSend record; EvRecv])
    as (Hsend & _ & Hsends & _); try reflexivity; [discriminate|].
  split; [exact Hsend|exact Hsends].
Defined.

(** C9 fails as stated: the string ["5"] under the key ["gen_1"] is counted
    by the poll-based consumer and not by the TCP consumer. *)
Lemma process_document_differ_on_numeric_string :
  process_document_poll [("gen_1", @JStr float "5")]
    = Ok (Summary 1 (NInt 5) (Some 5%float)) /\
  process_document [("gen_1", @JStr float "5")]
    = Ok (Summary 0 (NInt 0) None) /\
  process_document_poll [("gen_1", @JStr float "5")]
    <> process_document [("gen_1", @JStr float "5")].
Proof. split; [reflexivity|]. split; [reflexivity|]. discriminate. Qed.

(** A document with a number, a blank string and a boolean under ["gen_"]
    keys, and a numeric string under another key. *)
Lemma process_document_agree_witness :
  process_document_poll
    [("gen_1", @JInt float 5); ("gen_2", JStr "  "); ("gen_3", JBool true); ("col1", JStr "7")]
  = process_document
      [("gen_1", @JInt float 5); ("gen_2", JStr "  "); ("gen_3", JBool true); ("col1", JStr "7")].
Proof.
  apply process_document_agree.
  intros k s [E|[E|[E|[E|[]]]]] Hk; inversion E; subst; try reflexivity.
  discriminate Hk.
Defined.

(** One message for two channels of one place, the second one taken. *)
Lemma broadcast_fan_out_witness :
  broadcast_to_clients "new" two_channels
  = Ok (Registry {[ 1 := Queue 1 ["new"]; 2 := Queue 1 ["old"] ]} {[ 1; 2 ]}).
Proof.
  destruct (broadcast_fan_out "new" two_channels) as (h' & -> & Hfree & Hfull & Hout & Hdom).
  f_equal. f_equal. apply map_eq. intros q.
  destruct (decide (q = 1)) as [->|H1]; [by rewrite (Hfree 1 (Queue 1 []))|].
  destruct (decide (q = 2)) as [->|H2]; [by rewrite (Hfull 2 (Queue 1 ["old"]))|].
  rewrite Hout.
  - simpl. by rewrite !lookup_insert_ne.
  - simpl. rewrite elem_of_union, !elem_of_singleton. tauto.
Defined.


(** C7 fails as stated: a failure of the wait for the ack that is not an
    [OSError] is not caught by the send loop.  First run: the peer answers
    with a frame that is not JSON and [recv_frame] raises [ValueError].
    Second run: the ack of the server arrives with its header in three
    segments and [recv_frame] raises [struct.error].  In both the document
    was sent once, the answers of the network to a reconnect are unused,
    and the exception ends the loop before the second document. *)
Lemma uncaught_failure_is_not_retried :
  send_batch producer_args
    (Client (Socket [garbage_frame] [] []) network 0 []) [record; record]
  = (Raise (ValueError "Expecting value"),
     Client (Socket [] [record_frame] []) network 0 [EvSend record; EvRecv]) /\
  send_batch producer_args
    (Client (Socket (bytewise (ack_frame (ok_ack "0"))) [] []) network 0 [])
    [record; record]
  = (Raise (StructError "unpack requires a buffer of 4 bytes"),
     Client (Socket (drop 2 (bytewise (ack_frame (ok_ack "0")))) [record_frame] [])
            network 0 [EvSend record; EvRecv]) /\
  List.filter is_send [EvSend record; @EvRecv float] = [EvSend record].
Proof.
  split; [reflexivity|]. split; [|reflexivity].
  apply (send_doc_uncaught producer_args
           (Client (Socket (bytewise (ack_frame (ok_ack "0"))) [] []) network 0 [])
           record (StructError "unpack requires a buffer of 4 bytes")
           (Socket (drop 2 (bytewise (ack_frame (ok_ack "0")))) [record_frame] [])
           [EvSend record; EvRecv]); reflexivity.
Qed.

End Runs.

(** * The further properties on sample runs *)

Section MoreRuns.
#[local] Existing Instances Ref.arith Ref.codec Ref.collection.
Import Sample.

(** The server closes after two bytes of an ack header. *)
Lemma recv_frame_short_header_witness :
  (@recv_frame float Ref.codec (Socket [[x00; x00]] [] [])).1
  = Raise (StructError "unpack requires a buffer of 4 bytes").
Proof.
  apply (recv_frame_short_header (F:=float) (Socket [[x00; x00]] [] [])).
  simpl. lia.
Defined.


(** One record, answered by an error ack: it is counted and not resent. *)
Lemma send_batch_counts_every_answer_witness :
  send_batch producer_args
    (Client (Socket [ack_frame (error_ack "disk full")] [] []) network 0 [])
    [record]
  = (Ok tt,
     Client (Socket [] [record_frame] []) network 1 [EvSend record; EvRecv]).
Proof.
  apply (send_batch_counts_every_answer (F:=float) producer_args
           (Client (Socket [ack_frame (error_ack "disk full")] [] []) network 0 [])
           [record] [record_frame] [ack_frame (error_ack "disk full")] []).
  - reflexivity.
  - reflexivity.
  - repeat constructor. exists record_text. split; reflexivity.
  - repeat constructor.
    exists (ack_text (error_ack "disk full")),
           [("status", JStr "error"); ("reason", JStr "disk full")].
    split; reflexivity.
  - reflexivity.
  - reflexivity.
Defined.

(** The receive time stamp on a document with one number. *)
Lemma process_document_ignores_other_keys_witness :
  process_document (dict_set "_receivedAt" (JStr "t") [("gen_1", @JInt float 1)])
  = process_document [("gen_1", @JInt float 1)] /\
  process_document_poll (dict_set "_receivedAt" (JStr "t") [("gen_1", @JInt float 1)])
  = process_document_poll [("gen_1", @JInt float 1)].
Proof. apply process_document_ignores_other_keys. reflexivity. Defined.

(** A number and a numeric string: one value counted by the server, two by
    the poll-based consumer. *)
Lemma poll_counts_what_the_server_counts_witness :
  numeric_count (Summary 1 (NInt 1) (Some 1%float))
  <= numeric_count (Summary 2 (NInt 3) (Some 1.5%float)).
Proof.
  apply (poll_counts_what_the_server_counts (F:=float)
           [("gen_1", JInt 1); ("gen_2", JStr "2")]); reflexivity.
Defined.

(** One change, serialized and broadcast to the two channels. *)
Lemma mongo_watcher_forwards_witness :
  exists reg',
    broadcasts (map string_of_list_byte [record_text]) two_channels = Ok reg' /\
    mongo_watcher [record] two_channels = Some (Watching, reg') /\
    forall bad e later,
      json_dumps bad = Raise e ->
      mongo_watcher ([record] ++ bad :: later) two_channels = Some (Ended e, reg').
Proof.
  apply (mongo_watcher_forwards (F:=float) [record] [record_text] two_channels).
  repeat constructor.
Defined.

End MoreRuns.

Section ProducerRuns.
#[local] Existing Instances RefGen.random RefGen.codec.
Import SampleCsv.

(** The sample file: 26 columns, of which 25 are kept. *)
Lemma load_csv_rows_spec_witness :
  load_csv_rows read_csv "data.csv" = Returns (header25, csv_rows).
Proof.
  apply (load_csv_rows_spec read_csv "data.csv" table).
  - reflexivity.
  - apply (bool_decide_unpack _). by vm_compute.
  - repeat constructor.
Defined.

Lemma frame_for_framed (doc : document float) :
  frame_for doc <> [] -> framed (JDict doc) (frame_for doc).
Proof.
  unfold frame_for, framed.
  destruct (RefGen.dumps_flat (JDict doc)) as [b| |] eqn:Eb; try done.
  destruct (frame_of b) as [fr| |] eqn:Efr; try done.
  intros _. exists b. split; [exact Eb|exact Efr].
Qed.

Lemma sample_frames : Forall2 framed (map JDict built.1) frames.
Proof.
  unfold frames.
  assert (forallb (fun d => negb (Nat.eqb (length (frame_for d)) 0)) built.1 = true)
    as Hall by (by vm_compute).
  rewrite forallb_forall in Hall.
  induction built.1 as [|d l IH]; [constructor|].
  simpl. constructor.
  - apply frame_for_framed. specialize (Hall d (or_introl eq_refl)).
    by destruct (frame_for d).
  - apply IH. intros x Hx. apply Hall. by right.
Qed.


(** The same file with [--interval 0]: two rows are sent, and that is
    all. *)
Lemma single_run_witness :
  length built.1 = 2 /\
  main Ref.utcnow read_csv 1 once_args [] [Accepted quiet]
  = Ran SingleRun
        (Client (Socket [] frames []) [] 2
                ([EvConnected] ++ map EvSend (map JDict built.1) ++ [EvClose])).
Proof.
  apply (single_run (F:=float) Ref.utcnow read_csv once_args [] quiet []
           header25 csv_rows 3 built.1 built.2 frames 0).
  - discriminate.
  - reflexivity.
  - reflexivity.
  - by vm_compute.
  - by vm_compute.
  - apply sample_frames.
  - reflexivity.
Defined.

(** Two turns of the loop in [generate] mode with [--interval 1]. *)
Lemma runs_until_interrupted_witness :
  match main_loop Ref.utcnow 2 stream_args (map col_key (seq 0 25)) [] 0
                  (Source 0 [] 0) (Client quiet [] 0 []) with
  | Some (SingleRun, _) | Some (CsvExhausted, _) => False
  | _ => True
  end.
Proof.
  apply (runs_until_interrupted (F:=float) Ref.utcnow stream_args
           (map col_key (seq 0 25)) [] 0 2 (Source 0 [] 0) (Client quiet [] 0 []));
    reflexivity.
Defined.

(** Four documents from three rows: the fourth is the first row again. *)
Lemma loop_wraps_around_witness :
  row_index looped.2 = (0 + 4) mod 3 /\ row_index looped.2 < 3.
Proof.
  apply (loop_wraps_around (F:=float) Ref.utcnow loop_args header25 csv_rows 4
           (Source 0 [] 0) looped.1 looped.2).
  - reflexivity.
  - reflexivity.
  - simpl. lia.
  - by vm_compute.
Defined.

(** A generated document, with the random source at the start of an empty
    script. *)
Lemma generated_document_schema_witness :
  exists doc g',
    next_doc (F:=float) Ref.utcnow generate_args (map col_key (seq 0 25)) [] 0
             (Source 0 [] 0)
    = Returns (doc, Source 0 g' 1) /\
    map fst doc
    = map col_key (seq 0 25) ++ map gen_key (seq 26 125)
      ++ ["country"; "city"; "_ingestedAt"] /\
    NoDup (map fst doc) /\
    dict_get "_ingestedAt" doc = Some (JStr (Ref.utcnow 0)).
Proof.
  apply (generated_document_schema (F:=float) Ref.utcnow generate_args
           (map col_key (seq 0 25)) [] 0 (Source 0 [] 0)).
  reflexivity.
Defined.

(** The older TCP producer on the sample file. *)
Lemma producer_tcp_sends_nothing_witness :
  Tcp.main (F:=float) Ref.utcnow read_csv tcp_args [] [Accepted quiet]
  = Tcp.TcpDied
      (Exc (TypeError "tuple indices must be integers or slices, not str")) quiet.
Proof.
  apply (producer_tcp_sends_nothing (F:=float) Ref.utcnow read_csv tcp_args []
           table quiet []).
  - reflexivity.
  - simpl. lia.
Defined.

(** The store-writing producer on the sample file, in batches of two: one
    full batch and a last one of one document. *)
Lemma insert_many_batches_witness :
  exists full rest,
    Mongo.main Ref.utcnow read_csv read_json path_exists mongo_args []
               (Mongo.Bulk [] [])
    = Mongo.MongoFinished (length mongo_docs)
        (Mongo.Bulk ([] ++ full ++ match rest with [] => [] | _ :: _ => [rest] end) []) /\
    concat full ++ rest = mongo_docs /\
    Forall (fun b => length b = 2) full /\
    length rest < 2.
Proof.
  apply (insert_many_batches (F:=float) Ref.utcnow read_csv read_json path_exists
           mongo_args [] (Mongo.Bulk [] []) table "data.csv" DEFAULT_COUNTRIES
           mongo_docs).
  - reflexivity.
  - reflexivity.
  - discriminate.
  - reflexivity.
  - reflexivity.
  - simpl. lia.
  - by vm_compute.
  - reflexivity.
Defined.

(** The first document of the sample file: its cells under ["c1"] to
    ["c25"], and the generated fields. *)
Lemma csv_document_fields_witness :
  exists row_values country city cities,
    csv_rows !! 0 = Some row_values /\
    mapping_get DEFAULT_COUNTRIES country = Some cities /\ city ∈ cities /\
    dict_get "country" first.1 = Some (JStr country) /\
    dict_get "city" first.1 = Some (JStr city) /\
    dict_get "_ingestedAt" first.1 = Some (JStr (Ref.utcnow 0)) /\
    (forall j, j ∈ seq 26 125 ->
       is_Some (dict_get (gen_key j) first.1) /\
       dict_get (gen_key j) first.1
       = dict_get (gen_key j) (build_generated_fields (F:=float) []).1) /\
    (forall i k v,
       i < 25 -> header25 !! i = Some k -> row_values !! i = Some v ->
       k ∉ map gen_key (seq 26 125) ->
       k <> "country" -> k <> "city" -> k <> "_ingestedAt" ->
       dict_get k first.1 = Some (cell_value v)).
Proof.
  apply (csv_document_fields (F:=float) Ref.utcnow csv_args header25 csv_rows 3
           (Source 0 [] 0) first.1 first.2).
  - reflexivity.
  - apply (bool_decide_unpack _). by vm_compute.
  - by vm_compute.
Defined.

(** A file with the 26 labels and no row: the producer connects, then
    stops. *)
Lemma csv_without_rows_witness :
  load_csv_rows read_csv "empty.csv" = Returns (header25, []) /\
  main Ref.utcnow read_csv 1 empty_args [] [Accepted quiet]
  = Ran (Died (SystemExit "CSV has no rows"))
        (Client quiet [] 0 [EvConnected; EvClose]).
Proof.
  apply (csv_without_rows (F:=float) Ref.utcnow read_csv empty_args []
           "empty.csv" (Table labels []) [Accepted quiet] [] quiet [] 0).
  - reflexivity.
  - reflexivity.
  - discriminate.
  - reflexivity.
  - vm_compute. lia.
  - reflexivity.
  - simpl. lia.
  - reflexivity.
Defined.

End ProducerRuns.
